(** * text-sim: a shallow embedding of the BERT layers, the BERT configuration
      object and the logging / model-config tools, with the properties the
      specification states about them.

    Sources embedded here:
    - [sim/tensorflow/layers.py]  PositionEmbedding, BertSelfAttention, BertOutput
    - [sim/bert_base/__init__.py] BertConfig
    - [sim/tools/tools.py]        get_logger, save_model_config, get_model_config

    Part I holds the definitions, Part II the lemmas and theorems. *)

From Stdlib Require Import ZArith List String Ascii Bool Lia Floats Sorted.
From Stdlib Require Import DecimalPos DecimalFacts.
From stdpp Require Import gmap strings list.

Open Scope Z_scope.
Set Warnings "-register-all".
Set Default Proof Using "Type".

(* ===================================================================== *)
(** * Part I: definitions                                                  *)
(* ===================================================================== *)

(** ** Python strings

    A Python [str] is a sequence of Unicode code points.  Literals of the
    source are written [txt "..."]. *)

Module Py.

Definition str := list N.

Definition txt (s : string) : str :=
  map N_of_ascii (list_ascii_of_string s).

(** A text written with an apostrophe wherever it has a double quote, for
    JSON documents in examples. *)
Definition quoted (s : string) : str :=
  map (fun c => if (c =? 39)%N then 34%N else c) (txt s).

Definition str_eqb (a b : str) : bool := bool_decide (a = b).


(** [s.endswith(suffix)] *)
Definition endswith (s suffix : str) : bool :=
  bool_decide (drop (length s - length suffix)%nat s = suffix)
  && bool_decide (length suffix ≤ length s)%nat.

(** Truth value of a string: only the empty string is false. *)
Definition str_truthy (s : str) : bool :=
  match s with [] => false | _ => true end.

(** ** Python values

    The values that configurations and JSON documents are made of.  A finite
    float is kept as the decimal literal that denotes it ([repr] on the way
    out, the matched number on the way in); no arithmetic on floats is
    needed here. *)

Inductive pyfloat :=
| FNaN
| FInf (negative : bool)
| FRepr (lit : str).

Inductive pyval :=
| PyNone
| PyBool (b : bool)
| PyInt (z : Z)
| PyFloat (f : pyfloat)
| PyStr (s : str)
| PyList (l : list pyval)
| PyTuple (l : list pyval)
| PyDict (d : list (str * pyval))
| PyObject (id : nat).     (* any other object (a set, a layer, ...) *)

(** A [dict] with string keys: the entries in insertion order, every key
    once. *)
Definition dict := list (str * pyval).

(** [d.get(k)] / [k in d] *)
Fixpoint dict_get (d : dict) (k : str) : option pyval :=
  match d with
  | [] => None
  | (k', v) :: r => if str_eqb k' k then Some v else dict_get r k
  end.

(** [d[k] = v]: an existing key keeps its place, a new one goes last. *)
Fixpoint dict_set (d : dict) (k : str) (v : pyval) : dict :=
  match d with
  | [] => [(k, v)]
  | (k', v') :: r =>
      if str_eqb k' k then (k', v) :: r else (k', v') :: dict_set r k v
  end.

Definition dict_keys (d : dict) : list str := map fst d.

(** How often a key occurs among the entries. *)
Definition key_count (d : dict) (k : str) : nat :=
  length (filter (fun k' => k' = k) (dict_keys d)).

(** [dict(pairs)] and [d.update(pairs)] *)
Definition dict_update (d : dict) (pairs : list (str * pyval)) : dict :=
  fold_left (fun acc kv => dict_set acc (fst kv) (snd kv)) pairs d.




End Py.

(** An induction principle for values that reaches into lists and dicts. *)
Section PyvalInd.
Import Py.
Variable P : pyval → Prop.
Hypothesis HNone : P PyNone.
Hypothesis HBool : ∀ b, P (PyBool b).
Hypothesis HInt : ∀ z, P (PyInt z).
Hypothesis HFloat : ∀ f, P (PyFloat f).
Hypothesis HStr : ∀ s, P (PyStr s).
Hypothesis HList : ∀ l, Forall P l → P (PyList l).
Hypothesis HTuple : ∀ l, Forall P l → P (PyTuple l).
Hypothesis HDict : ∀ d, Forall (λ kv, P (snd kv)) d → P (PyDict d).
Hypothesis HObject : ∀ id, P (PyObject id).

Fixpoint pyval_nested_ind (v : pyval) : P v :=
  match v with
  | PyNone => HNone
  | PyBool b => HBool b
  | PyInt z => HInt z
  | PyFloat f => HFloat f
  | PyStr s => HStr s
  | PyList l =>
      HList l ((fix go (l : list pyval) : Forall P l :=
                  match l with
                  | [] => List.Forall_nil P
                  | x :: r => @List.Forall_cons _ P x r (pyval_nested_ind x) (go r)
                  end) l)
  | PyTuple l =>
      HTuple l ((fix go (l : list pyval) : Forall P l :=
                   match l with
                   | [] => List.Forall_nil P
                   | x :: r => @List.Forall_cons _ P x r (pyval_nested_ind x) (go r)
                   end) l)
  | PyDict d =>
      HDict d ((fix go (d : list (str * pyval)) : Forall (λ kv, P (snd kv)) d :=
                  match d with
                  | [] => List.Forall_nil _
                  | kv :: r => @List.Forall_cons _ _ kv r (pyval_nested_ind (snd kv)) (go r)
                  end) d)
  | PyObject id => HObject id
  end.
End PyvalInd.

(** ** Tensors

    A tensor of rank 1, 2 or 3 is a (rectangular) nested list of scalars.
    The element type is a parameter: the layers only add, subtract,
    multiply and divide elements, so they are written once for every number
    type with these operations.  [None] stands for the error TensorFlow
    raises (incompatible shapes, an index out of range on CPU). *)

Class Scalar (T : Type) := {
  s_add : T → T → T;
  s_sub : T → T → T;
  s_mul : T → T → T;
  s_div : T → T → T;
  s_one : T;                 (* the literal 1 / 1.0 *)
  s_lit_0_4 : T;             (* the literal 0.4 *)
  s_truthy : T → bool        (* bool(x): x != 0 *)
}.

(** binary64 numbers, the arithmetic of Keras under floatx = float64. *)
#[export] Instance float_scalar : Scalar float := {|
  s_add := PrimFloat.add;
  s_sub := PrimFloat.sub;
  s_mul := PrimFloat.mul;
  s_div := PrimFloat.div;
  s_one := 1%float;
  s_lit_0_4 := 0x1.999999999999ap-2%float;
  s_truthy := fun x => negb (PrimFloat.eqb x 0%float)
|}.

Module Tensor.
Section Ops.
Context {T : Type} `{Scalar T}.

Definition vec := list T.
Definition mat := list (list T).
Definition ten3 := list (list (list T)).

(** NumPy-style broadcasting along one axis: equal sizes are zipped, a
    size-1 axis is stretched, anything else is an error. *)
Definition bcast {A B C} (f : A → B → option C)
    (xs : list A) (ys : list B) : option (list C) :=
  if bool_decide (length xs = length ys) then
    mapM (fun p => f (fst p) (snd p)) (zip xs ys)
  else match xs, ys with
       | [x], _ => mapM (f x) ys
       | _, [y] => mapM (fun x => f x y) xs
       | _, _ => None
       end.

Definition bop1 (op : T → T → T) : vec → vec → option vec :=
  bcast (fun a b => Some (op a b)).
Definition bop2 (op : T → T → T) : mat → mat → option mat :=
  bcast (bop1 op).
Definition bop3 (op : T → T → T) : ten3 → ten3 → option ten3 :=
  bcast (bop2 op).

(** scalar (op) tensor, elementwise *)
Definition smap2 (f : T → T) (m : mat) : mat := map (map f) m.
Definition smap3 (f : T → T) (t : ten3) : ten3 := map (map (map f)) t.

(** [l[i]] for an integer index, as [tf.gather] reads it on CPU: an index
    outside [0, len) is an error (negative indices do not wrap). *)
Definition index {A} (l : list A) (i : Z) : option A :=
  if bool_decide (0 ≤ i) then l !! Z.to_nat i else None.

(** [tf.gather(params, indices)] for a rank-2 index tensor. *)
Definition gather (params : mat) (indices : list (list Z)) : option ten3 :=
  mapM (mapM (index params)) indices.

(** [tf.tile(t, [n, 1, 1])] *)
Definition tile0 (n : nat) (t : ten3) : ten3 := concat (replicate n t).

(** [tf.concat([a, b], axis=-1)]: all axes but the last must agree. *)
Definition zip_exact {A B C} (f : A → B → option C)
    (xs : list A) (ys : list B) : option (list C) :=
  if bool_decide (length xs = length ys) then
    mapM (fun p => f (fst p) (snd p)) (zip xs ys)
  else None.
Definition concat_last (a b : ten3) : option ten3 :=
  zip_exact (zip_exact (fun u v : vec => Some (u ++ v))) a b.

(** [tf.range(0, n)] *)
Definition range (n : nat) : list Z := map Z.of_nat (seq 0 n).
End Ops.
End Tensor.

(** ** PositionEmbedding (layers.py, lines 19-101) *)

Module PositionEmbedding.
Import Py Tensor.
Section Layer.
Context {T : Type} `{Scalar T}.

(** The [hierarchical] argument: None, a bool, or a number. *)
Inductive hierarchical_arg :=
| HNone
| HBool (b : bool)
| HNum (a : T).

Record layer := {
  input_dim : Z;
  output_dim : Z;
  merge_mode : str;
  hierarchical : hierarchical_arg;
  custom_position_ids : bool;
  embeddings : list (list T)   (* the weight, of shape (input_dim, output_dim) *)
}.

(** What [call] receives: one tensor, or the pair (inputs, position_ids). *)
Inductive call_input :=
| Inputs (x : list (list (list T)))
| InputsWithIds (x : list (list (list T))) (position_ids : list (list Z)).

(** [if self.hierarchical:] *)
Definition hierarchical_enabled (h : hierarchical_arg) : bool :=
  match h with
  | HNone => false
  | HBool b => b
  | HNum a => s_truthy a
  end.

(** [alpha = 0.4 if self.hierarchical is True else self.hierarchical] *)
Definition alpha_of (h : hierarchical_arg) : T :=
  match h with
  | HBool true => s_lit_0_4
  | HNum a => a
  | _ => s_lit_0_4   (* not reached: the branch runs only when enabled *)
  end.

(** Lines 58-64: the inputs, the position ids and (without custom ids)
    the batch size. *)
Definition unpack (self : layer) (arg : call_input)
    : option (list (list (list T)) * list (list Z) * nat) :=
  match custom_position_ids self, arg with
  | true, InputsWithIds x ids => Some (x, ids, 0%nat)
  | false, Inputs x =>
      let batch_size := length x in
      let seq_len := length (hd [] x) in
      Some (x, [range seq_len], batch_size)
  | _, _ => None
  end.

(** [position_ids // d] and [position_ids % d]: floor division and its
    remainder; a zero divisor is an error. *)
Definition floordiv (ids : list (list Z)) (d : Z) : option (list (list Z)) :=
  if bool_decide (d = 0) then None else Some (map (map (fun p => p / d)) ids).
Definition floormod (ids : list (list Z)) (d : Z) : option (list (list Z)) :=
  if bool_decide (d = 0) then None else Some (map (map (fun p => p mod d)) ids).

(** Lines 68-69: the table with the first row's share removed, rescaled. *)
Definition rescaled (alpha : T) (E : list (list T)) : option (list (list T)) :=
  e1 ← bop2 s_sub E (smap2 (s_mul alpha) (take 1 E));
  Some (smap2 (fun x => s_div x (s_sub s_one alpha)) e1).

(** The rows of that table: the row of the weight minus [alpha] times the
    first row, divided by [1 - alpha]. *)
Definition rescaled_row (alpha : T) (row0 row : list T) : list T :=
  map (fun x => s_div x (s_sub s_one alpha))
      (zip_with s_sub row (map (s_mul alpha) row0)).

(** [alpha * x + (1 - alpha) * y] on two rows. *)
Definition hierarchical_row (alpha : T) (x y : list T) : list T :=
  zip_with s_add (map (s_mul alpha) x) (map (s_mul (s_sub s_one alpha)) y).

(** The row [i] of a table (the empty row outside the table). *)
Definition row_at {A} (l : list (list A)) (i : Z) : list A :=
  default [] (index l i).

(** Lines 66-77: the value of the local [embeddings] before merging. *)
Definition position_embeddings (self : layer)
    (position_ids : list (list Z)) : option (list (list (list T))) :=
  if hierarchical_enabled (hierarchical self) then
    let alpha := alpha_of (hierarchical self) in
    e ← rescaled alpha (embeddings self);
    ix ← floordiv position_ids (input_dim self);
    embeddings_x ← gather e ix;
    iy ← floormod position_ids (input_dim self);
    embeddings_y ← gather e iy;
    bop3 s_add (smap3 (s_mul alpha) embeddings_x)
               (smap3 (s_mul (s_sub s_one alpha)) embeddings_y)
  else if custom_position_ids self then
    gather (embeddings self) position_ids
  else
    (* self.embeddings[None, :seq_len] *)
    Some [take (length (hd [] position_ids)) (embeddings self)].

(** Lines 79-88. *)
Definition merge (self : layer) (batch_size : nat)
    (inputs emb : list (list (list T))) : option (list (list (list T))) :=
  if str_eqb (merge_mode self) (txt "add") then
    bop3 s_add inputs emb
  else if str_eqb (merge_mode self) (txt "mul") then
    bop3 s_mul inputs (smap3 (fun e => s_add e s_one) emb)
  else if str_eqb (merge_mode self) (txt "zero") then
    Some emb
  else
    let emb := if negb (custom_position_ids self)
               then tile0 batch_size emb else emb in
    concat_last inputs emb.

Definition call (self : layer) (arg : call_input)
    : option (list (list (list T))) :=
  '(inputs, position_ids, batch_size) ← unpack self arg;
  emb ← position_embeddings self position_ids;
  merge self batch_size inputs emb.
End Layer.
Arguments layer T : clear implicits.
Arguments hierarchical_arg T : clear implicits.
Arguments call_input T : clear implicits.
End PositionEmbedding.

(** The layers and tensors of the examples. *)
Module PositionEmbeddingExamples.
Import Py PositionEmbedding.

(** A table of four positions, and a batch of two sequences of length
    two. *)
Definition table_4x1 : list (list float) := [[1]; [2]; [3]; [4]]%float.

Definition batch_2x2x1 : list (list (list float)) :=
  [[[10]; [20]]; [[30]; [40]]]%float.

Definition concat_layer (custom : bool) : layer float :=
  {| input_dim := 4; output_dim := 1; merge_mode := txt "concat";
     hierarchical := HNone; custom_position_ids := custom;
     embeddings := table_4x1 |}.

End PositionEmbeddingExamples.

(** ** Tensor shapes

    What each TensorFlow operation does to the shape of its argument. *)

Module Shape.

Definition shape := list Z.

Definition numel (s : shape) : Z := fold_right Z.mul 1 s.

(** A [keras.layers.Dense(units)] applied to a tensor: the last axis becomes
    [units], the others are kept. *)
Definition dense (units : Z) (s : shape) : option shape :=
  match s with
  | [] => None
  | _ => Some (take (length s - 1)%nat s ++ [units])
  end.

(** [tf.reshape(t, target)]: at most one entry of [target] is -1 and is
    inferred from the number of elements; the element counts must agree. *)
Definition reshape (s : shape) (target : list Z) : option shape :=
  let known := filter (fun d => d ≠ -1) target in
  let holes := (length target - length known)%nat in
  if bool_decide (Exists (fun d => d < -1) target) then None
  else match holes with
       | O => if bool_decide (numel target = numel s) then Some target else None
       | S O =>
           let k := numel known in
           if bool_decide (k = 0) then None
           else if bool_decide (numel s mod k = 0)
                then Some (map (fun d => if bool_decide (d = -1) then numel s / k else d) target)
                else None
       | _ => None
       end.

(** [tf.transpose(t, perm)] *)
Definition transpose (s : shape) (perm : list nat) : option shape :=
  if bool_decide (Permutation perm (seq 0 (length s)))
  then mapM (fun i => s !! i) perm
  else None.

End Shape.

(** ** Tensors with their elements

    A tensor as TensorFlow holds it: its shape, and its elements in
    row-major order (the last axis varies fastest).  [tf.reshape] keeps
    the elements where they are and [tf.transpose] moves them. *)

Module Buffer.
Import Shape.

Section Elements.
Context {T : Type}.

Record tensor := { dims : shape; elems : list T }.

(** The step of each axis in the row-major order. *)
Fixpoint strides (s : shape) : list Z :=
  match s with
  | [] => []
  | _ :: r => numel r :: strides r
  end.

(** The place of the element with the indices [index], for the steps
    [steps] of the axes. *)
Definition offset (index steps : list Z) : Z :=
  fold_right Z.add 0 (zip_with Z.mul index steps).

(** The indices of the element at place [i] of a tensor of shape [s]. *)
Fixpoint unravel (s : shape) (i : Z) : list Z :=
  match s with
  | [] => []
  | _ :: r => i / numel r :: unravel r (i mod numel r)
  end.

(** [t[i0, i1, ...]], for indices within the shape. *)
Definition get (t : tensor) (index : list Z) : option T :=
  elems t !! Z.to_nat (offset index (strides (dims t))).

(** The size of the last axis, and the [r]-th vector along it. *)
Definition last_dim (t : tensor) : nat := Z.to_nat (default 0 (last (dims t))).

Definition row (t : tensor) (r : nat) : list T :=
  take (last_dim t) (drop (r * last_dim t) (elems t)).

(** [keras.layers.Dense(units)]: every vector along the last axis is
    replaced by what the layer makes of it, [affine] (the product with
    the kernel, plus the bias when the layer has one). *)
Definition dense (units : Z) (affine : list T → list T) (t : tensor)
    : option tensor :=
  s ← Shape.dense units (dims t);
  let rows := Z.to_nat (numel (take (length (dims t) - 1)%nat (dims t))) in
  Some {| dims := s;
          elems := concat (map (fun r => affine (row t r)) (seq 0 rows)) |}.

(** [tf.reshape]: the shape changes, the elements stay. *)
Definition reshape (t : tensor) (target : list Z) : option tensor :=
  s ← Shape.reshape (dims t) target;
  Some {| dims := s; elems := elems t |}.

(** [tf.transpose(t, perm)]: the element with the indices [i] of the
    result is the element of [t] whose index along axis [perm[k]] is
    [i[k]]. *)
Definition transpose (t : tensor) (perm : list nat) : option tensor :=
  s ← Shape.transpose (dims t) perm;
  steps ← mapM (fun axis => strides (dims t) !! axis) perm;
  moved ← mapM (fun i => elems t !! Z.to_nat (offset (unravel s i) steps))
               (map Z.of_nat (seq 0 (Z.to_nat (numel s))));
  Some {| dims := s; elems := moved |}.
End Elements.
Arguments tensor T : clear implicits.

End Buffer.

(** ** BertSelfAttention (layers.py, lines 217-308) *)

Module BertSelfAttention.
Import Shape Buffer.

Record layer := {
  num_heads : Z;
  head_size : Z;
  batch_size : Z;
  attention_dropout : float;
  use_bias : bool;
  key_size : Z;
  hidden_size : Z
}.

(** [__init__] (lines 241-249); [None] for an argument left at its default. *)
Definition init (num_heads head_size batch_size : Z) (attention_dropout : float)
    (use_bias : bool) (key_size hidden_size : option Z) : layer :=
  {| num_heads := num_heads;
     head_size := head_size;
     batch_size := batch_size;
     attention_dropout := attention_dropout;
     use_bias := use_bias;
     key_size := match key_size with Some k => k | None => head_size end;
     hidden_size := match hidden_size with
                    | Some h => h
                    | None => num_heads * head_size
                    end |}.

Section Layer.
Context {T : Type}.

(** What the four Dense layers made by [build] (lines 253-260) do to one
    vector: their kernels and biases. *)
Record weights := {
  query_map : list T → list T;
  key_map : list T → list T;
  value_map : list T → list T;
  output_map : list T → list T
}.

(** The four Dense layers, with the units [build] gives them. *)
Definition query_dense (self : layer) (w : weights) : tensor T → option (tensor T) :=
  dense (key_size self * num_heads self) (query_map w).
Definition key_dense (self : layer) (w : weights) : tensor T → option (tensor T) :=
  dense (key_size self * num_heads self) (key_map w).
Definition value_dense (self : layer) (w : weights) : tensor T → option (tensor T) :=
  dense (head_size self * num_heads self) (value_map w).
Definition output_dense (self : layer) (w : weights) : tensor T → option (tensor T) :=
  dense (hidden_size self) (output_map w).

(** Lines 262-268. *)
Definition transpose_for_scores (self : layer) (input_tensor : tensor T)
    (head_size : Z) : option (tensor T) :=
  input_tensor ← reshape input_tensor [batch_size self; -1; num_heads self; head_size];
  transpose input_tensor [0; 2; 1; 3]%nat.

(** Lines 272-279: the three projections, split into heads. *)
Definition heads (self : layer) (w : weights) (query key value : tensor T)
    : option (tensor T * tensor T * tensor T) :=
  query ← query_dense self w query;
  key ← key_dense self w key;
  value ← value_dense self w value;
  query ← transpose_for_scores self query (key_size self);
  key ← transpose_for_scores self key (key_size self);
  value ← transpose_for_scores self value (head_size self);
  Some (query, key, value).

(** [sim.tensorflow.common.scaled_dot_product_attention] is not among the
    sources; it is a parameter of [call]. *)
Variable scaled_dot_product_attention :
  tensor T → tensor T → tensor T → Z → Z → Z → float → option (tensor T)
  → option (tensor T * tensor T).

(** Lines 271-294; [inputs] is the tuple (query, key, value, mask). *)
Definition call (self : layer) (w : weights)
    (inputs : tensor T * tensor T * tensor T * option (tensor T))
    : option (tensor T * tensor T) :=
  let '(query, key, value, mask) := inputs in
  '(query, key, value) ← heads self w query key value;
  '(scaled_attention, attention_weights) ←
     scaled_dot_product_attention query key value (batch_size self)
       (hidden_size self) (head_size self) (attention_dropout self) mask;
  attn_outputs ← output_dense self w scaled_attention;
  Some (attn_outputs, attention_weights).
End Layer.
Arguments weights T : clear implicits.

End BertSelfAttention.

(** A layer of two heads of size 2 with batch size 2, and Dense layers
    that give the vector itself and its multiples by 10, 100 and 1000. *)
Module BertSelfAttentionExamples.
Import Buffer BertSelfAttention.

Definition tenfold (x : list Z) : list Z :=
  x ++ map (Z.mul 10) x ++ map (Z.mul 100) x ++ map (Z.mul 1000) x.

Definition two_heads : layer :=
  init 2 2 2 0x1.999999999999ap-4%float true None None.

Definition tenfold_weights : weights Z :=
  {| query_map := tenfold; key_map := tenfold;
     value_map := tenfold; output_map := tenfold |}.

(** A batch of [b] sequences of one vector of one feature: 1, 2, ... *)
Definition batch_of (b : nat) : tensor Z :=
  {| dims := [Z.of_nat b; 1; 1]; elems := map Z.of_nat (seq 1 b) |}.

(** Two sequences of two vectors of one feature. *)
Definition batch_2x2 : tensor Z :=
  {| dims := [2; 2; 1]; elems := [1; 2; 3; 4] |}.

End BertSelfAttentionExamples.

(** ** BertOutput (layers.py, lines 311-390) *)

Module BertOutput.
Import Py.

(** [with_pool], [with_nsp] and [with_mlm] are typed [Any]: a bool, or the
    name of the activation to use. *)
Inductive flag :=
| FBool (b : bool)
| FName (activation : str).

Definition truthy (f : flag) : bool :=
  match f with
  | FBool b => b
  | FName s => str_truthy s
  end.

(** What a Python call hands back: a value, or None when the body ends
    without reaching a [return]. *)
Inductive returned (A : Type) :=
| ReturnNone
| Return (v : A).
Arguments ReturnNone {A}.
Arguments Return {A} v.

Section Layer.
(** [tensor]: the tensors; [V]: the values of the keyword arguments. *)
Context {tensor V : Type}.

Record layer := {
  with_pool : flag;
  with_nsp : flag;
  with_mlm : flag;
  pool_activation : option flag;
  mlm_activation : option flag;
  hidden_size : option V;
  embedding_size : option V;
  hidden_act : option V;
  layer_norm_eps : option V;
  token_embeddings_arg : option V;
  layer_kwargs : gmap str V      (* what is passed on to keras.layers.Layer *)
}.

(** [del kwargs[k]]: a KeyError when [k] is absent. *)
Definition del (k : str) (kwargs : gmap str V) : option (gmap str V) :=
  match kwargs !! k with
  | Some _ => Some (delete k kwargs)
  | None => None
  end.

(** [__init__] (lines 321-346); [None] is the AssertionError or KeyError. *)
Definition init (with_pool with_nsp with_mlm : flag) (kwargs : gmap str V)
    : option layer :=
  if negb (truthy with_pool || truthy with_mlm) then None
  else if truthy with_pool && negb (bool_decide (is_Some (kwargs !! txt "hidden_size")))
  then None
  else if truthy with_mlm &&
          negb (bool_decide (is_Some (kwargs !! txt "embedding_size"))
                && bool_decide (is_Some (kwargs !! txt "hidden_act"))
                && bool_decide (is_Some (kwargs !! txt "layer_norm_eps"))
                && bool_decide (is_Some (kwargs !! txt "token_embeddings")))
  then None
  else
    let pick k := kwargs !! txt k in
    kw ← del (txt "hidden_size") kwargs;
    kw ← del (txt "embedding_size") kw;
    kw ← del (txt "hidden_act") kw;
    kw ← del (txt "layer_norm_eps") kw;
    kw ← del (txt "token_embeddings") kw;
    Some {|
      with_pool := with_pool;
      with_nsp := with_nsp;
      with_mlm := with_mlm;
      pool_activation :=
        if truthy with_pool
        then Some (match with_pool with FBool true => FName (txt "tanh") | f => f end)
        else None;
      mlm_activation :=
        if truthy with_mlm
        then Some (match with_mlm with FBool true => FName (txt "softmax") | f => f end)
        else None;
      hidden_size := if truthy with_pool then pick "hidden_size" else None;
      embedding_size := if truthy with_mlm then pick "embedding_size" else None;
      hidden_act := if truthy with_mlm then pick "hidden_act" else None;
      layer_norm_eps := if truthy with_mlm then pick "layer_norm_eps" else None;
      token_embeddings_arg := if truthy with_mlm then pick "token_embeddings" else None;
      layer_kwargs := kw
    |}.

(** The Keras layers made by [build] (lines 357-372) and the token
    embedding layer handed over at construction, as functions on tensors. *)
Variables pooler pooler_dense nsp_prob : tensor → tensor.
Variables mlm_dense mlm_norm token_embeddings_dense mlm_bias mlm_act : tensor → tensor.

(** Lines 375-390: the list [outputs] as the body of [call] leaves it. *)
Definition call_outputs (self : layer) (inputs : tensor) : list tensor :=
  let outputs := [] in
  let outputs :=
    if truthy (with_pool self) then
      let sub_outputs := pooler inputs in
      let sub_outputs := pooler_dense sub_outputs in
      let sub_outputs :=
        if truthy (with_nsp self) then nsp_prob sub_outputs else sub_outputs in
      outputs ++ [sub_outputs]
    else outputs in
  let outputs :=
    if truthy (with_mlm self) then
      let sub_outputs := mlm_dense inputs in
      let sub_outputs := mlm_norm sub_outputs in
      let sub_outputs := token_embeddings_dense sub_outputs in
      let sub_outputs := mlm_bias sub_outputs in
      let sub_outputs := mlm_act sub_outputs in
      outputs ++ [sub_outputs]
    else outputs in
  outputs.

(** [call] (lines 374-390).  The body fills [outputs] and ends: there is
    no [return] statement, so the call evaluates to None. *)
Definition call (self : layer) (inputs : tensor) : returned (list tensor) :=
  let outputs := call_outputs self inputs in
  ReturnNone.
End Layer.
Arguments layer V : clear implicits.
End BertOutput.

(** ** The json module of the Python standard library

    [json.dump] / [json.dumps] with an [indent] given (both uses in the
    repository give one) and [json.load] / [json.loads] with the default
    decoder, over text as sequences of code points. *)

Module Json.
Import Py.

(** *** Encoder *)

Definition hex_digit (n : N) : N :=
  (if n <? 10 then 48 + n else 87 + n)%N.

(** ['{0:04x}'.format(n)] *)
Definition hex4 (n : N) : str :=
  [hex_digit (n / 4096 mod 16); hex_digit (n / 256 mod 16);
   hex_digit (n / 16 mod 16); hex_digit (n mod 16)]%N.

Definition u_escape (n : N) : str := 92%N :: 117%N :: hex4 n.

(** One character of a string literal.  The short escapes and the control
    characters are always escaped; with [ensure_ascii] so is everything
    outside the printable ASCII range, as one \uXXXX or as a surrogate
    pair. *)
Definition escape_char (ensure_ascii : bool) (c : N) : str :=
  (if c =? 34 then [92; 34]
   else if c =? 92 then [92; 92]
   else if c =? 10 then [92; 110]
   else if c =? 13 then [92; 114]
   else if c =? 9 then [92; 116]
   else if c =? 8 then [92; 98]
   else if c =? 12 then [92; 102]
   else if c <? 32 then u_escape c
   else if ensure_ascii && (126 <? c) then
     if c <? 65536 then u_escape c
     else
       let n := c - 65536 in
       let s1 := N.lor 55296 (N.land (N.shiftr n 10) 1023) in
       let s2 := N.lor 56320 (N.land n 1023) in
       u_escape s1 ++ u_escape s2
   else [c])%N.

Definition encode_str (ensure_ascii : bool) (s : str) : str :=
  34%N :: flat_map (escape_char ensure_ascii) s ++ [34%N].

Definition digit_char (d : N) : N := (48 + d)%N.

Fixpoint uint_digits (u : Decimal.uint) : str :=
  match u with
  | Decimal.Nil => []
  | Decimal.D0 u => digit_char 0 :: uint_digits u
  | Decimal.D1 u => digit_char 1 :: uint_digits u
  | Decimal.D2 u => digit_char 2 :: uint_digits u
  | Decimal.D3 u => digit_char 3 :: uint_digits u
  | Decimal.D4 u => digit_char 4 :: uint_digits u
  | Decimal.D5 u => digit_char 5 :: uint_digits u
  | Decimal.D6 u => digit_char 6 :: uint_digits u
  | Decimal.D7 u => digit_char 7 :: uint_digits u
  | Decimal.D8 u => digit_char 8 :: uint_digits u
  | Decimal.D9 u => digit_char 9 :: uint_digits u
  end.

(** [int.__repr__] *)
Definition int_str (z : Z) : str :=
  match z with
  | Z0 => [48%N]
  | Zpos p => uint_digits (Pos.to_uint p)
  | Zneg p => 45%N :: uint_digits (Pos.to_uint p)
  end.

(** [float.__repr__], with NaN and the infinities as [allow_nan] writes
    them. *)
Definition float_str (f : pyfloat) : str :=
  match f with
  | FNaN => txt "NaN"
  | FInf false => txt "Infinity"
  | FInf true => txt "-Infinity"
  | FRepr lit => lit
  end.

(** [sorted(dct.items())] on a dict with string keys: insertion sort by code
    points. *)
Fixpoint str_leb (a b : str) : bool :=
  match a, b with
  | [], _ => true
  | _ :: _, [] => false
  | x :: a, y :: b => (x <? y)%N || ((x =? y)%N && str_leb a b)
  end.

Fixpoint insert_item {A} (kv : str * A) (l : list (str * A)) : list (str * A) :=
  match l with
  | [] => [kv]
  | kv' :: r => if str_leb (fst kv) (fst kv') then kv :: l else kv' :: insert_item kv r
  end.

Definition sort_items {A} (d : list (str * A)) : list (str * A) :=
  fold_right insert_item [] d.

(** What the encoding generator has yielded: the chunks, and whether it ran
    to its end ([false]: a TypeError stopped it after these chunks). *)
Definition out := (list str * bool)%type.

Definition yield (c : str) : out := ([c], true).

Definition andthen (a b : out) : out :=
  if snd a then (fst a ++ fst b, snd b) else a.

Section Encoder.
Variables (ensure_ascii : bool) (indent : nat) (sort_keys : bool).

(** ['\n' + ' ' * indent * level] *)
Definition newline_indent (level : nat) : str :=
  10%N :: replicate (indent * level) 32%N.

Definition item_separator (level : nat) : str := 44%N :: newline_indent level.

Definition key_separator : str := [58; 32]%N.

(** The text of a value that is written in one piece. *)
Definition scalar_text (v : pyval) : option str :=
  match v with
  | PyStr s => Some (encode_str ensure_ascii s)
  | PyNone => Some (txt "null")
  | PyBool true => Some (txt "true")
  | PyBool false => Some (txt "false")
  | PyInt z => Some (int_str z)
  | PyFloat f => Some (float_str f)
  | _ => None
  end.

(** [_iterencode_list], given for every item its text when it is written
    in one piece and the chunks of its own encoding.  A scalar goes out
    in one chunk with the bracket or separator before it. *)
Fixpoint list_items (level : nat) (first : bool) (l : list (option str * out)) : out :=
  match l with
  | [] => ([], true)
  | (scalar, item_chunks) :: r =>
      let buf := if first then 91%N :: newline_indent level
                 else item_separator level in
      andthen
        match scalar with
        | Some t => yield (buf ++ t)
        | None => andthen (yield buf) item_chunks
        end
        (list_items level false r)
  end.

Definition encode_list (level : nat) (l : list (option str * out)) : out :=
  match l with
  | [] => yield (txt "[]")
  | _ => andthen (list_items (S level) true l)
        (andthen (yield (newline_indent level)) (yield [93%N]))
  end.

(** [_iterencode_dict], given the chunks of each value, in the order in
    which the entries are written. *)
Fixpoint dict_items (level : nat) (first : bool) (l : list (str * out)) : out :=
  match l with
  | [] => ([], true)
  | (k, value_chunks) :: r =>
      andthen (if first then ([], true) else yield (item_separator level))
     (andthen (yield (encode_str ensure_ascii k))
     (andthen (yield key_separator)
     (andthen value_chunks
              (dict_items level false r))))
  end.

Definition encode_dict (level : nat) (l : list (str * out)) : out :=
  match l with
  | [] => yield (txt "{}")
  | _ => andthen (yield [123%N])
        (andthen (yield (newline_indent (S level)))
        (andthen (dict_items (S level) true l)
        (andthen (yield (newline_indent level)) (yield [125%N]))))
  end.

(** [_iterencode] of [json.encoder._make_iterencode]; [level] is the
    indentation level of the enclosing container.  The chunks of the
    items of a container are computed first and then put together by
    [encode_list] / [encode_dict], for a dict in the order
    [sorted(dct.items())] under [sort_keys]: encoding an item does not
    depend on its place, and the generator still stops at the first
    item, in that order, that cannot be encoded. *)
Fixpoint iterencode (level : nat) (v : pyval) : out :=
  match v with
  | PyList l | PyTuple l =>
      encode_list level
        (map (fun x => (scalar_text x, iterencode (S level) x)) l)
  | PyDict d =>
      let items := map (fun kv => (fst kv, iterencode (S level) (snd kv))) d in
      encode_dict level (if sort_keys then sort_items items else items)
  | PyObject _ => ([], false)
  | _ => match scalar_text v with
         | Some t => yield t
         | None => ([], false)
         end
  end.

(** [json.dumps(obj, ...)]: the chunks joined, or the TypeError. *)
Definition dumps (obj : pyval) : option str :=
  let '(chunks, ok) := iterencode 0 obj in
  if ok then Some (concat chunks) else None.

(** The text written for a value, and whether it was written to the end. *)
Definition text_of (level : nat) (v : pyval) : str :=
  concat (fst (iterencode level v)).
Definition complete (level : nat) (v : pyval) : bool :=
  snd (iterencode level v).

(** The text of the items of a list, after the first. *)
Definition more_items (level : nat) (l : list pyval) : str :=
  flat_map (fun y => item_separator level ++ text_of level y) l.

(** The text of the entries of a dict, after the first. *)
Definition more_entries (level : nat) (l : list (str * pyval)) : str :=
  flat_map (fun kv => item_separator level ++ encode_str ensure_ascii (fst kv)
                      ++ key_separator ++ text_of level (snd kv)) l.

(** The entries of a dict in the order in which they are written. *)
Definition ordered {A} (d : list (str * A)) : list (str * A) :=
  if sort_keys then sort_items d else d.
End Encoder.

(** *** Decoder *)

Definition is_ws (c : N) : bool :=
  ((c =? 32) || (c =? 9) || (c =? 10) || (c =? 13))%N.

Fixpoint skip_ws (s : str) : str :=
  match s with
  | c :: r => if is_ws c then skip_ws r else s
  | [] => []
  end.

Definition is_digit (c : N) : bool := ((48 <=? c) && (c <=? 57))%N.

Definition hex_val (c : N) : option N :=
  (if (48 <=? c) && (c <=? 57) then Some (c - 48)
   else if (97 <=? c) && (c <=? 102) then Some (c - 87)
   else if (65 <=? c) && (c <=? 70) then Some (c - 55)
   else None)%N.

(** The four hexadecimal digits after a backslash-u. *)
Definition decode_uXXXX (a b c d : N) : option N :=
  a ← hex_val a; b ← hex_val b; c ← hex_val c; d ← hex_val d;
  Some (((a * 16 + b) * 16 + c) * 16 + d)%N.

Definition is_high_surrogate (c : N) : bool := ((55296 <=? c) && (c <=? 56319))%N.
Definition is_low_surrogate (c : N) : bool := ((56320 <=? c) && (c <=? 57343))%N.
Definition join_surrogates (hi lo : N) : N :=
  (65536 + N.lor (N.shiftl (hi - 55296) 10) (lo - 56320))%N.

(** The character a one-letter escape stands for. *)
Definition backslash (e : N) : option N :=
  (if e =? 34 then Some 34
   else if e =? 92 then Some 92
   else if e =? 47 then Some 47
   else if e =? 98 then Some 8
   else if e =? 102 then Some 12
   else if e =? 110 then Some 10
   else if e =? 114 then Some 13
   else if e =? 116 then Some 9
   else None)%N.

(** [scanstring] (strict), from just after the opening quote: the string and
    the text after its closing quote. *)
Fixpoint scanstring (s : str) : option (str * str) :=
  match s with
  | [] => None
  | c :: r =>
      if (c =? 34)%N then Some ([], r)
      else if (c =? 92)%N then
        match r with
        | [] => None
        | e :: r1 =>
            if (e =? 117)%N then
              match r1 with
              | h1 :: h2 :: h3 :: h4 :: r2 =>
                  match decode_uXXXX h1 h2 h3 h4 with
                  | None => None
                  | Some uni =>
                      let plain := '(t, r4) ← scanstring r2; Some (uni :: t, r4) in
                      if is_high_surrogate uni then
                        match r2 with
                        | b :: u :: l1 :: l2 :: l3 :: l4 :: r3 =>
                            if (b =? 92)%N && (u =? 117)%N then
                              match decode_uXXXX l1 l2 l3 l4 with
                              | None => None
                              | Some uni2 =>
                                  if is_low_surrogate uni2 then
                                    '(t, r4) ← scanstring r3;
                                    Some (join_surrogates uni uni2 :: t, r4)
                                  else plain
                              end
                            else plain
                        | _ => plain
                        end
                      else plain
                  end
              | _ => None
              end
            else
              match backslash e with
              | Some ch => '(t, r2) ← scanstring r1; Some (ch :: t, r2)
              | None => None
              end
        end
      else if (c <? 32)%N then None
      else '(t, r') ← scanstring r; Some (c :: t, r')
  end.

Fixpoint span_digits (s : str) : str * str :=
  match s with
  | c :: r =>
      if is_digit c then let '(d, r') := span_digits r in (c :: d, r')
      else ([], s)
  | [] => ([], [])
  end.

(** The optional fraction: a dot and at least one digit. *)
Definition match_frac (s : str) : str * str :=
  match s with
  | c :: r =>
      if (c =? 46)%N then
        match span_digits r with
        | ([], _) => ([], s)
        | (ds, r') => (c :: ds, r')
        end
      else ([], s)
  | [] => ([], s)
  end.

(** The optional exponent: e or E, an optional sign, at least one digit. *)
Definition match_exp (s : str) : str * str :=
  match s with
  | e :: r =>
      if ((e =? 101) || (e =? 69))%N then
        let '(sign, r1) :=
          match r with
          | c :: t => if ((c =? 43) || (c =? 45))%N then ([c], t) else ([], r)
          | [] => ([], r)
          end in
        match span_digits r1 with
        | ([], _) => ([], s)
        | (ds, r2) => (e :: sign ++ ds, r2)
        end
      else ([], s)
  | [] => ([], s)
  end.

(** [NUMBER_RE.match]: the integer part with its sign, the fraction, the
    exponent, and the text after the number. *)
Definition match_number (s : str) : option (str * str * str * str) :=
  let '(sign, s1) :=
    match s with
    | c :: r => if (c =? 45)%N then ([c], r) else ([], s)
    | [] => ([], s)
    end in
  match s1 with
  | c :: r =>
      if is_digit c then
        let '(ds, r1) := if (c =? 48)%N then ([], r) else span_digits r in
        let '(frac, r2) := match_frac r1 in
        let '(exp, r3) := match_exp r2 in
        Some (sign ++ c :: ds, frac, exp, r3)
      else None
  | [] => None
  end.

Fixpoint digits_uint (s : str) : Decimal.uint :=
  match s with
  | [] => Decimal.Nil
  | c :: r =>
      let u := digits_uint r in
      (if c =? 48 then Decimal.D0 u else if c =? 49 then Decimal.D1 u
       else if c =? 50 then Decimal.D2 u else if c =? 51 then Decimal.D3 u
       else if c =? 52 then Decimal.D4 u else if c =? 53 then Decimal.D5 u
       else if c =? 54 then Decimal.D6 u else if c =? 55 then Decimal.D7 u
       else if c =? 56 then Decimal.D8 u else Decimal.D9 u)%N
  end.

(** [int(s)] for an optional minus sign followed by digits. *)
Definition parse_int (s : str) : Z :=
  match s with
  | c :: r => if (c =? 45)%N then - Z.of_uint (digits_uint r)
              else Z.of_uint (digits_uint s)
  | [] => 0
  end.

(** [s.startswith(p)]: the text after the prefix. *)
Fixpoint strip_prefix (p s : str) : option str :=
  match p, s with
  | [], _ => Some s
  | a :: p, b :: s => if (a =? b)%N then strip_prefix p s else None
  | _ :: _, [] => None
  end.

(** The literals tried when the text is neither a string, a container nor
    a number. *)
Definition scan_constant (s : str) : option (pyval * str) :=
  match strip_prefix (txt "NaN") s with
  | Some r => Some (PyFloat FNaN, r)
  | None =>
  match strip_prefix (txt "Infinity") s with
  | Some r => Some (PyFloat (FInf false), r)
  | None =>
  match strip_prefix (txt "-Infinity") s with
  | Some r => Some (PyFloat (FInf true), r)
  | None => None
  end end end.

Definition scan_number (s : str) : option (pyval * str) :=
  match match_number s with
  | Some (integer, frac, exp, r) =>
      match frac, exp with
      | [], [] => Some (PyInt (parse_int integer), r)
      | _, _ => Some (PyFloat (FRepr (integer ++ frac ++ exp)), r)
      end
  | None => scan_constant s
  end.

(** [scan_once], [JSONArray] and [JSONObject].  [fuel] bounds the number of
    values and entries read; [loads] gives more than the text can need.
    [array_items] and [object_items] start at the first item, after the
    opening bracket and the white space behind it. *)
Fixpoint scan_once (fuel : nat) (s : str) : option (pyval * str) :=
  match fuel with
  | O => None
  | S fuel =>
      match s with
      | [] => None
      | c :: r =>
          if (c =? 34)%N then
            '(t, r') ← scanstring r; Some (PyStr t, r')
          else if (c =? 123)%N then
            match skip_ws r with
            | c1 :: r1 =>
                if (c1 =? 125)%N then Some (PyDict [], r1)
                else '(pairs, r2) ← object_items fuel (c1 :: r1);
                     Some (PyDict (dict_update [] pairs), r2)
            | [] => None
            end
          else if (c =? 91)%N then
            match skip_ws r with
            | c1 :: r1 =>
                if (c1 =? 93)%N then Some (PyList [], r1)
                else '(values, r2) ← array_items fuel (c1 :: r1);
                     Some (PyList values, r2)
            | [] => None
            end
          else
            match strip_prefix (txt "null") s with
            | Some r' => Some (PyNone, r')
            | None =>
            match strip_prefix (txt "true") s with
            | Some r' => Some (PyBool true, r')
            | None =>
            match strip_prefix (txt "false") s with
            | Some r' => Some (PyBool false, r')
            | None => scan_number s
            end end end
      end
  end
with array_items (fuel : nat) (s : str) : option (list pyval * str) :=
  match fuel with
  | O => None
  | S fuel =>
      '(value, r) ← scan_once fuel s;
      match skip_ws r with
      | c :: r1 =>
          if (c =? 93)%N then Some ([value], r1)
          else if (c =? 44)%N then
            '(values, r2) ← array_items fuel (skip_ws r1);
            Some (value :: values, r2)
          else None
      | [] => None
      end
  end
with object_items (fuel : nat) (s : str) : option (list (str * pyval) * str) :=
  match fuel with
  | O => None
  | S fuel =>
      match s with
      | q :: r =>
          if (q =? 34)%N then
            '(key, r1) ← scanstring r;
            match skip_ws r1 with
            | c :: r2 =>
                if (c =? 58)%N then
                  '(value, r3) ← scan_once fuel (skip_ws r2);
                  match skip_ws r3 with
                  | c' :: r4 =>
                      if (c' =? 125)%N then Some ([(key, value)], r4)
                      else if (c' =? 44)%N then
                        '(pairs, r5) ← object_items fuel (skip_ws r4);
                        Some ((key, value) :: pairs, r5)
                      else None
                  | [] => None
                  end
                else None
            | [] => None
            end
          else None
      | [] => None
      end
  end.

(** [JSONDecoder.decode]: one value, white space around it, nothing else. *)
Definition decode (s : str) : option pyval :=
  '(obj, r) ← scan_once (S (length s)) (skip_ws s);
  match skip_ws r with
  | [] => Some obj
  | _ => None
  end.

(** [json.loads(s)]; [None] is the JSONDecodeError. *)
Definition loads (s : str) : option pyval :=
  match s with
  | c :: _ => if (c =? 65279)%N then None else decode s
  | [] => decode s
  end.

(** *** What a JSON document keeps of a value *)

(** The value read back from the document written for [v]: tuples come
    back as lists, and under [sort_keys] the entries of every dict come
    back in the order of their keys. *)
Fixpoint as_json (sort_keys : bool) (v : pyval) : pyval :=
  match v with
  | PyList l | PyTuple l => PyList (map (as_json sort_keys) l)
  | PyDict d =>
      let items := map (fun kv => (fst kv, as_json sort_keys (snd kv))) d in
      PyDict (if sort_keys then sort_items items else items)
  | _ => v
  end.

(** A finite float is denoted by a JSON number with a fraction or an
    exponent (what [repr] gives for every finite float). *)
Definition float_literal (lit : str) : bool :=
  match match_number lit with
  | Some (_, [], [], _) => false
  | Some (_, _, _, []) => true
  | _ => false
  end.

(** The invariants of Python values: the keys of a dict are distinct, a
    finite float has a literal. *)
Fixpoint well_formed (v : pyval) : bool :=
  match v with
  | PyFloat (FRepr lit) => float_literal lit
  | PyList l | PyTuple l => forallb well_formed l
  | PyDict d =>
      bool_decide (NoDup (dict_keys d)) && forallb (fun kv => well_formed (snd kv)) d
  | _ => true
  end.

(** Every string in [v], keys included, satisfies [P]. *)
Fixpoint all_strings (P : str → bool) (v : pyval) : bool :=
  match v with
  | PyStr s => P s
  | PyList l | PyTuple l => forallb (all_strings P) l
  | PyDict d => forallb (fun kv => P (fst kv) && all_strings P (snd kv)) d
  | _ => true
  end.

(** A Unicode scalar value: a code point that is not a surrogate. *)
Definition scalar_value (c : N) : bool :=
  (c <? 1114112)%N && negb ((55296 <=? c)%N && (c <=? 57343)%N).



(** The number of values and container items in [v]: the fuel that reading
    its document takes. *)
Fixpoint json_size (v : pyval) : nat :=
  match v with
  | PyList l | PyTuple l => S (list_sum (map (fun x => S (json_size x)) l))
  | PyDict d => S (list_sum (map (fun kv => S (json_size (snd kv))) d))
  | _ => 1
  end.

(** *** Notions used in the properties of the encoder and the decoder *)

(** The numbers [i], [i+1], ... *)
Fixpoint upto (fuel : nat) (i : N) : list N :=
  match fuel with O => [] | S f => i :: upto f (N.succ i) end.

(** Four hexadecimal digits written for [n] are read back as [n]. *)
Definition hex4_ok (n : N) : bool :=
  match hex4 n with
  | [a; b; c; d] => bool_decide (decode_uXXXX a b c d = Some n)
  | _ => false
  end.

(** The characters an encoder with [ensure_ascii] can write so that they
    are read back: the Unicode scalar values.  Without [ensure_ascii]
    every character is. *)
Definition char_ok (ensure_ascii : bool) (c : N) : Prop :=
  ensure_ascii = true → scalar_value c = true.

(** What follows a value in a document: nothing, a comma or a line break. *)
Definition delimited (rest : str) : Prop :=
  match rest with
  | [] => True
  | c :: _ => c = 44%N ∨ c = 10%N
  end.

(** The shape of a fraction: empty, or a dot and digits. *)
Definition frac_shape (f : str) : Prop :=
  f = [] ∨ ∃ d ds, f = 46%N :: d :: ds ∧ Forall (λ c, is_digit c = true) (d :: ds).

(** The shape of an exponent: empty, or e/E, an optional sign and digits. *)
Definition exp_shape (e : str) : Prop :=
  e = [] ∨ ∃ ch sign d ds,
    e = ch :: sign ++ d :: ds ∧ ((ch =? 101) || (ch =? 69))%N = true ∧
    (sign = [] ∨ ∃ c, sign = [c] ∧ ((c =? 43) || (c =? 45))%N = true) ∧
    Forall (λ c, is_digit c = true) (d :: ds).


(** The first character of a value: a quote, an opening bracket, a minus
    sign, a digit, or the first letter of null, true, false, NaN or
    Infinity. *)
Definition value_start (c : N) : bool :=
  ((c =? 34) || (c =? 123) || (c =? 91) || (c =? 110) || (c =? 116) ||
   (c =? 102) || (c =? 45) || is_digit c || (c =? 78) || (c =? 73))%N.

(** The strings of [v] can be written so that they are read back. *)
Definition writable (ensure_ascii : bool) (v : pyval) : Prop :=
  ensure_ascii = true → all_strings (forallb scalar_value) v = true.

(** The property proved of every value: its text, followed by a delimiter,
    is read back as the value that [as_json] gives. *)
Definition reads_back (ensure_ascii : bool) (indent : nat) (sort_keys : bool)
    (v : pyval) : Prop :=
  ∀ level rest fuel,
    well_formed v = true → writable ensure_ascii v →
    complete ensure_ascii indent sort_keys level v = true →
    delimited rest → (json_size v ≤ fuel)%nat →
    scan_once fuel (text_of ensure_ascii indent sort_keys level v ++ rest)
      = Some (as_json sort_keys v, rest).

(** A value without tuples, as a JSON document gives it back. *)
Definition decoded (v : pyval) : Prop :=
  well_formed v = true ∧ as_json false v = v.

End Json.

(** ** BertConfig (bert_base/__init__.py, lines 19-86)

    An instance is its [__dict__]: the attributes in the order in which
    they were first assigned. *)

Module BertConfig.
Import Py.

Definition config := dict.

(** [__init__] (lines 47-57).  The annotations are not enforced: any value
    may be passed. *)
Definition init (vocab_size hidden_size num_hidden_layers num_attention_heads
    intermediate_size hidden_act hidden_dropout_prob attention_prob_dropout_prob
    max_position_embeddings type_vocab_size initializer_range : pyval) : config :=
  [ (txt "vocab_size", vocab_size);
    (txt "hidden_size", hidden_size);
    (txt "num_hidden_layers", num_hidden_layers);
    (txt "num_attention_heads", num_attention_heads);
    (txt "hidden_act", hidden_act);
    (txt "intermediate_size", intermediate_size);
    (txt "hidden_dropout_prob", hidden_dropout_prob);
    (txt "attention_prob_dropout_prob", attention_prob_dropout_prob);
    (txt "max_position_embeddings", max_position_embeddings);
    (txt "type_vocab_size", type_vocab_size);
    (txt "initializer_range", initializer_range) ].

(** [BertConfig(vocab_size=v)]: the other arguments at their defaults. *)
Definition with_defaults (vocab_size : pyval) : config :=
  init vocab_size (PyInt 768) (PyInt 12) (PyInt 12) (PyInt 3072)
       (PyStr (txt "gelu")) (PyFloat (FRepr (txt "0.1")))
       (PyFloat (FRepr (txt "0.1"))) (PyInt 512) (PyInt 2)
       (PyFloat (FRepr (txt "0.02"))).

(** [from_dict] (lines 65-69); [None]: [json_obj] has no [items()]. *)
Definition from_dict (json_obj : pyval) : option config :=
  match json_obj with
  | PyDict d => Some (dict_update (with_defaults (PyInt 0)) d)
  | _ => None
  end.

(** [to_dict] (line 82): a deep copy of the attributes. *)
Definition to_dict (self : config) : pyval := PyDict self.

(** [to_json_string] (line 86); [None]: a value is not JSON serialisable. *)
Definition to_json_string (self : config) : option str :=
  Json.dumps true 2 true (to_dict self).


End BertConfig.

(** ** tools.py: get_logger, save_model_config, get_model_config *)

Module Tools.
Import Py.

(** *** Exceptions and results *)

Inductive exn :=
| ValueError
| TypeError
| AttributeError
| FileNotFoundError
| FileExistsError
| IsADirectoryError
| NotADirectoryError
| PermissionError
| JSONDecodeError
| UnicodeEncodeError.

Inductive result (A : Type) :=
| Ok (a : A)
| Raise (e : exn).
Arguments Ok {A} a.
Arguments Raise {A} e.

(** *** The file system

    Paths are compared as written.  A file holds text (every file here is
    opened with encoding utf-8); [readable] is false for a file that
    cannot be read (no permission, or bytes that are not UTF-8). *)

Inductive node :=
| Dir
| File (readable writable : bool) (content : str).

Abbreviation filesystem := (gmap str node).

(** [os.path.exists]; the empty path names nothing. *)
Definition path_exists (fs : filesystem) (p : str) : bool :=
  match p with
  | [] => false
  | _ => bool_decide (is_Some (fs !! p))
  end.

(** [os.path.getsize(p) != 0], for an existing path. *)
Definition nonempty (fs : filesystem) (p : str) : bool :=
  match fs !! p with
  | Some (File _ _ []) => false
  | _ => true
  end.

Fixpoint rstrip_slash_rev (r : str) : str :=
  match r with
  | c :: r' => if (c =? 47)%N then rstrip_slash_rev r' else r
  | [] => []
  end.

Fixpoint drop_to_slash_rev (r : str) : str :=
  match r with
  | c :: r' => if (c =? 47)%N then r else drop_to_slash_rev r'
  | [] => []
  end.

(** [os.path.dirname] (posixpath): everything up to the last slash, without
    trailing slashes unless it consists of slashes only. *)
Definition dirname (p : str) : str :=
  let head_rev := drop_to_slash_rev (reverse p) in
  match rstrip_slash_rev head_rev with
  | [] => reverse head_rev
  | stripped => reverse stripped
  end.

(** The directory a new entry [p] goes into exists: the working directory
    for a bare name, otherwise [dirname p]. *)
Definition parent_ok (fs : filesystem) (p : str) : result unit :=
  match dirname p with
  | [] => Ok ()
  | d => match fs !! d with
         | Some Dir => Ok ()
         | Some (File _ _ _) => Raise NotADirectoryError
         | None => Raise FileNotFoundError
         end
  end.

(** [os.mkdir] *)
Definition mkdir (fs : filesystem) (p : str) : result filesystem :=
  match p with
  | [] => Raise FileNotFoundError
  | _ =>
      match fs !! p with
      | Some _ => Raise FileExistsError
      | None =>
          match parent_ok fs p with
          | Ok _ => Ok (<[p := Dir]> fs)
          | Raise e => Raise e
          end
      end
  end.

(** [open(p, "r", encoding="utf-8")] followed by reading everything. *)
Definition read_text (fs : filesystem) (p : str) : result str :=
  match p with
  | [] => Raise FileNotFoundError
  | _ =>
      match fs !! p with
      | None => Raise FileNotFoundError
      | Some Dir => Raise IsADirectoryError
      | Some (File true _ content) => Ok content
      | Some (File false _ _) => Raise PermissionError
      end
  end.

(** [open(p, "w+")]: the file is created or emptied. *)
Definition open_truncate (fs : filesystem) (p : str) : result filesystem :=
  match p with
  | [] => Raise FileNotFoundError
  | _ =>
      match fs !! p with
      | Some Dir => Raise IsADirectoryError
      | Some (File r true _) => Ok (<[p := File r true []]> fs)
      | Some (File _ false _) => Raise PermissionError
      | None =>
          match parent_ok fs p with
          | Ok _ => Ok (<[p := File true true []]> fs)
          | Raise e => Raise e
          end
      end
  end.

(** [open(p, "a")] / [open(p, "a+")]: the file is created when missing. *)
Definition open_append (fs : filesystem) (p : str) : result filesystem :=
  match p with
  | [] => Raise FileNotFoundError
  | _ =>
      match fs !! p with
      | Some Dir => Raise IsADirectoryError
      | Some (File _ true _) => Ok fs
      | Some (File _ false _) => Raise PermissionError
      | None =>
          match parent_ok fs p with
          | Ok _ => Ok (<[p := File true true []]> fs)
          | Raise e => Raise e
          end
      end
  end.

(** [open(p, mode)] as [logging.FileHandler] calls it. *)
Definition open_mode (fs : filesystem) (p mode : str) : result filesystem :=
  if str_eqb mode (txt "a") || str_eqb mode (txt "a+") then open_append fs p
  else if str_eqb mode (txt "w") || str_eqb mode (txt "w+") then open_truncate fs p
  else if str_eqb mode (txt "r") || str_eqb mode (txt "r+") then
    match read_text fs p with Ok _ => Ok fs | Raise e => Raise e end
  else Raise ValueError.

(** Text that UTF-8 can encode: code points, none of them a surrogate. *)
Definition encodable (s : str) : bool := forallb Json.scalar_value s.

(** [fp.write(chunk)] for each chunk in turn: the text that reached the
    file, and whether every chunk did. *)
Fixpoint write_chunks (chunks : list str) : str * bool :=
  match chunks with
  | [] => ([], true)
  | c :: r =>
      if encodable c then
        let '(t, ok) := write_chunks r in (c ++ t, ok)
      else ([], false)
  end.

(** *** Logging *)

Inductive handler :=
| StreamHandler
| FileHandler (filename mode encoding : str) (level : Z) (formatter : str).

Record logger := {
  propagate : bool;
  level : Z;
  handlers : list handler
}.

(** The loggers of the process, by name; the root logger is the one named
    root. *)
Abbreviation registry := (gmap str logger).

Definition INFO : Z := 20.
Definition WARNING : Z := 30.
Definition NOTSET : Z := 0.

Definition LOGGING_FORMATTER : str :=
  txt "%(asctime)s %(module)s [line:%(lineno)d] %(levelname)s: %(message)s".

(** The root logger after [logging.basicConfig] (line 20) gave it a stream
    handler. *)
Definition root_logger : logger :=
  {| propagate := true; level := WARNING; handlers := [StreamHandler] |}.

(** [logging.getLogger(name)]: the logger of that name, made on first use.
    The empty name stands for the root logger. *)
Definition logger_key (name : str) : str :=
  match name with [] => txt "root" | _ => name end.

Definition getLogger (reg : registry) (name : str) : registry * logger :=
  let key := logger_key name in
  match reg !! key with
  | Some l => (reg, l)
  | None =>
      let l := if str_eqb key (txt "root") then root_logger
               else {| propagate := true; level := NOTSET; handlers := [] |} in
      (<[key := l]> reg, l)
  end.

(** The state [get_logger] works on. *)
Record log_state := {
  files : filesystem;
  loggers : registry
}.

(** [get_logger] (lines 136-153).  The result is the state the call leaves
    and either the name under which the returned logger is registered or
    the exception raised. *)
Definition get_logger (name file_path : str) (level : Z) (mode encoding formatter : str)
    (st : log_state) : log_state * result str :=
  if str_truthy file_path && negb (endswith file_path (txt ".log")) then
    (st, Raise ValueError)
  else
    let made :=
      if negb (path_exists (files st) (dirname file_path))
      then mkdir (files st) (dirname file_path)
      else Ok (files st) in
    match made with
    | Raise e => (st, Raise e)
    | Ok fs1 =>
        let '(reg1, lg) := getLogger (loggers st) name in
        let key := logger_key name in
        let lg := {| propagate := false; level := level; handlers := handlers lg |} in
        let reg2 := <[key := lg]> reg1 in
        match handlers lg with
        | [] =>
            match open_mode fs1 file_path mode with
            | Raise e => ({| files := fs1; loggers := reg2 |}, Raise e)
            | Ok fs2 =>
                let file_logger := FileHandler file_path mode encoding INFO formatter in
                let lg := {| propagate := false; level := level;
                             handlers := handlers lg ++ [file_logger] |} in
                ({| files := fs2; loggers := <[key := lg]> reg2 |}, Ok key)
            end
        | _ => ({| files := fs1; loggers := reg2 |}, Ok key)
        end
    end.

(** *** Model configurations *)

(** A [datetime]. *)
Record datetime := {
  year : Z; month : Z; day : Z;
  hour : Z; minute : Z; second : Z
}.

(** A decimal number padded with zeros to [width] digits. *)
Definition zero_pad (width : nat) (n : Z) : str :=
  let ds := Json.int_str n in
  replicate (width - length ds) 48%N ++ ds.

(** [zero_pad] gives [width] digits. *)
Definition padded (width : nat) (n : N) : bool :=
  let t := zero_pad width (Z.of_N n) in
  bool_decide (length t = width) && forallb Json.is_digit t.

(** [dt.strftime("%Y-%m-%d %H:%M:%S")].  The year is padded to four digits
    as the library documents it; the padding only shows before the year
    1000, where the C library of the platform decides about it. *)
Definition strftime (dt : datetime) : str :=
  zero_pad 4 (year dt) ++ [45%N] ++ zero_pad 2 (month dt) ++ [45%N] ++
  zero_pad 2 (day dt) ++ [32%N] ++ zero_pad 2 (hour dt) ++ [58%N] ++
  zero_pad 2 (minute dt) ++ [58%N] ++ zero_pad 2 (second dt).

(** The range of the fields of a [datetime] whose year has four digits. *)
Definition valid_datetime (dt : datetime) : Prop :=
  1000 ≤ year dt ≤ 9999 ∧ 1 ≤ month dt ≤ 12 ∧ 1 ≤ day dt ≤ 31 ∧
  0 ≤ hour dt ≤ 23 ∧ 0 ≤ minute dt ≤ 59 ∧ 0 ≤ second dt ≤ 59.

(** The format YYYY-MM-DD HH:MM:SS: digits, with two dashes, a space and
    two colons between them. *)
Definition timestamp_format (s : str) : bool :=
  match s with
  | [y1; y2; y3; y4; a; m1; m2; b; g1; g2; c; h1; h2; e; n1; n2; f; s1; s2] =>
      forallb Json.is_digit [y1; y2; y3; y4; m1; m2; g1; g2; h1; h2; n1; n2; s1; s2]
      && (a =? 45)%N && (b =? 45)%N && (c =? 32)%N && (e =? 58)%N && (f =? 58)%N
  | _ => false
  end.

(** The dict objects of the caller, by identity: [model_config] is passed
    by reference. *)
Abbreviation heap := (gmap nat dict).

Record config_state := {
  disk : filesystem;
  objects : heap
}.

(** Every dict on the heap is a dict: its keys are distinct (and its
    floats have literals). *)
Definition heap_ok (h : heap) : Prop :=
  ∀ l d, h !! l = Some d → Json.well_formed (PyDict d) = true.

(** [json.load(file)] *)
Definition load_json (fs : filesystem) (p : str) : result pyval :=
  match read_text fs p with
  | Raise e => Raise e
  | Ok text => match Json.loads text with
               | Some v => Ok v
               | None => Raise JSONDecodeError
               end
  end.

(** [json.dump(obj, file, ensure_ascii=False, indent=4)]: the text that
    reached the file and the exception that ended the call, if any. *)
Definition dump_json (obj : pyval) : str * result unit :=
  let '(chunks, complete) := Json.iterencode false 4 false 0 obj in
  let '(text, written) := write_chunks chunks in
  (text, if negb written then Raise UnicodeEncodeError
         else if negb complete then Raise TypeError
         else Ok ()).

(** A configuration with the two entries [save_model_config] adds. *)
Definition stamped (d : dict) (now : datetime) (model_desc : str) : dict :=
  dict_set (dict_set d (txt "execute_time") (PyStr (strftime now)))
           (txt "model_desc") (PyStr model_desc).

(** What [save_model_config] reads before it writes: the JSON document of
    a file that exists and is not empty, the empty dict otherwise. *)
Definition load_existing (fs : filesystem) (config_path : str) : result pyval :=
  if path_exists fs config_path && nonempty fs config_path
  then load_json fs config_path
  else Ok (PyDict []).

(** The body of the [try] of [save_model_config] (lines 165-176), at time
    [now]. *)
Definition save_model_config_try (key model_desc : str) (model_config : nat)
    (config_path : str) (now : datetime) (st : config_state)
    : config_state * result bool :=
  match load_existing (disk st) config_path with
  | Raise e => (st, Raise e)
  | Ok config_json =>
      match open_truncate (disk st) config_path with
      | Raise e => (st, Raise e)
      | Ok fs1 =>
          match objects st !! model_config with
          | None => ({| disk := fs1; objects := objects st |}, Raise TypeError)
          | Some d =>
              let d := dict_set d (txt "execute_time") (PyStr (strftime now)) in
              let d := dict_set d (txt "model_desc") (PyStr model_desc) in
              let st1 := {| disk := fs1; objects := <[model_config := d]> (objects st) |} in
              match config_json with
              | PyDict entries =>
                  let config_json := PyDict (dict_set entries key (PyDict d)) in
                  let '(text, r) := dump_json config_json in
                  let node := match fs1 !! config_path with
                              | Some (File rd wr _) => File rd wr text
                              | _ => File true true text
                              end in
                  let st2 := {| disk := <[config_path := node]> fs1;
                                objects := objects st1 |} in
                  match r with
                  | Ok _ => (st2, Ok true)
                  | Raise e => (st2, Raise e)
                  end
              | _ => (st1, Raise TypeError)
              end
          end
      end
  end.

(** [save_model_config] (lines 156-178): any exception becomes False. *)
Definition save_model_config (key model_desc : str) (model_config : nat)
    (config_path : str) (now : datetime) (st : config_state)
    : config_state * bool :=
  match save_model_config_try key model_desc model_config config_path now st with
  | (st', Ok b) => (st', b)
  | (st', Raise _) => (st', false)
  end.

(** [get_model_config] (lines 181-194). *)
Definition get_model_config (key config_path : str) (fs : filesystem)
    : result pyval :=
  if negb (path_exists fs config_path) then Raise FileNotFoundError
  else
    match load_json fs config_path with
    | Ok (PyDict d) =>
        match dict_get d key with
        | Some v => Ok v
        | None => Ok (PyDict [])
        end
    | Ok _ => Ok (PyDict [])      (* AttributeError: no [get] *)
    | Raise _ => Ok (PyDict [])
    end.

End Tools.

(** ** Values and texts of the json module, continued *)

Module JsonValues.
Import Py.

(** No foreign object in [v], at any depth of lists, tuples and dict
    values: the encoder has no text for such an object and raises
    TypeError when it comes to it.  The dicts of [pyval] have strings as
    keys; what the encoder asks of the keys of a Python dict (that they
    can be written, and sorted under [sort_keys]) is always met here and
    is no part of this. *)
Fixpoint serialisable (v : pyval) : bool :=
  match v with
  | PyObject _ => false
  | PyList l | PyTuple l => forallb serialisable l
  | PyDict d => forallb (fun kv => serialisable (snd kv)) d
  | _ => true
  end.

(** A printable ASCII character (space to tilde) or a line feed. *)
Definition printable_ascii (c : N) : bool :=
  ((c =? 10) || ((32 <=? c) && (c <=? 126)))%N.

(** Every character the encoder has yielded is one of these. *)
Definition ascii_out (o : Json.out) : Prop :=
  Forall (fun c => printable_ascii c = true) (concat (fst o)).

End JsonValues.

(** ** BertConfig.from_json_file (bert_base/__init__.py, lines 71-78) *)

Module BertConfigFile.
Import Py Tools.


End BertConfigFile.

(** ** Embedding.compute_mask (layers.py, lines 108-118) *)

Module Embedding.

(** The inputs: a tensor of rank 2 (a batch of sequences of token ids), or
    a tensor of another rank. *)
Inductive inputs (X : Type) :=
| Rank2 (ids : list (list Z))
| OtherRank (x : X).
Arguments Rank2 {X} ids.
Arguments OtherRank {X} x.

(** What [compute_mask] returns: None, the mask it was passed, or the mask
    it has computed. *)
Inductive mask_result (M : Type) :=
| NoMask
| Passed (mask : M)
| Computed (mask : list (list bool)).
Arguments NoMask {M}.
Arguments Passed {M} mask.
Arguments Computed {M} mask.

(** [keras.layers.Embedding.compute_mask]: the positions whose id is not
    0, when the layer was made with [mask_zero]. *)
Definition keras_compute_mask (mask_zero : bool) (ids : list (list Z))
    : option (list (list bool)) :=
  if mask_zero then Some (map (map (fun i => negb (i =? 0))) ids) else None.

(** Lines 111-118.  In the first branch nothing is returned when the mask
    is None. *)
Definition compute_mask {X M} (mask_zero : bool) (x : inputs X) (mask : option M)
    : mask_result M :=
  match x with
  | Rank2 ids =>
      match keras_compute_mask mask_zero ids with
      | Some mask =>
          let mask1 := map (fun row => map (fun _ => true) (take 1 row)) mask in
          let mask2 := map (drop 1) mask in
          Computed (zip_with app mask1 mask2)
      | None => NoMask
      end
  | OtherRank _ =>
      match mask with
      | Some m => Passed m
      | None => NoMask
      end
  end.

End Embedding.

(** ** get_config and the constructor (layers.py, lines 90-101 and 296-308) *)

Module LayerConfig.
Import Py Tools.

(** [from_config] calls the constructor with the entries of [config] as
    keyword arguments.  [bind] is the first step of such a call, before
    the body of the constructor runs: for a constructor with the named
    parameters [required] and [optional] and a catch-all [kwargs], a
    required parameter that [config] does not name is a TypeError; the
    entries that name a parameter are bound to it, the others go to
    [kwargs]. *)
Definition bind (required optional : list str) (config : dict)
    : result (dict * dict) :=
  if forallb (fun k => bool_decide (is_Some (dict_get config k))) required then
    Ok (filter (fun kv => fst kv ∈ required ++ optional) config,
        filter (fun kv => fst kv ∉ required ++ optional) config)
  else Raise TypeError.

(** The value a parameter has in the constructor: what was bound to it,
    or its default. *)
Definition parameter (bound : dict) (name : str) (default : pyval) : pyval :=
  match dict_get bound name with
  | Some v => v
  | None => default
  end.

(** [PositionEmbedding.get_config] (lines 90-101); [base_config] is what
    [keras.layers.Layer.get_config] returns, the other arguments are the
    attributes of the layer ([embeddings_initializer] after
    [keras.initializers.serialize]). *)
Definition PositionEmbedding_get_config
    (input_dim output_dim : Z) (merge_mode : str) (hierarchical : pyval)
    (embeddings_initializer : pyval) (custom_position_ids : bool)
    (base_config : dict) : dict :=
  let config :=
    [ (txt "input_dim", PyInt input_dim);
      (txt "output_dim", PyInt output_dim);
      (txt "merge_model", PyStr merge_mode);
      (txt "hierarchical", hierarchical);
      (txt "embeddings_initializer", embeddings_initializer);
      (txt "custom_position_ids", PyBool custom_position_ids) ] in
  dict_update base_config config.

(** The parameters of [PositionEmbedding.__init__] (lines 23-30). *)
Definition PositionEmbedding_required : list str :=
  [txt "input_dim"; txt "output_dim"].
Definition PositionEmbedding_optional : list str :=
  [txt "merge_mode"; txt "hierarchical"; txt "custom_position_ids";
   txt "embeddings_initializer"].

(** [BertSelfAttention.get_config] (lines 296-308). *)
Definition BertSelfAttention_get_config (self : BertSelfAttention.layer)
    (attention_dropout initializer : pyval) (base_config : dict) : dict :=
  let config :=
    [ (txt "num_heads", PyInt (BertSelfAttention.num_heads self));
      (txt "head_size", PyInt (BertSelfAttention.head_size self));
      (txt "attention_dropout", attention_dropout);
      (txt "use_bias", PyBool (BertSelfAttention.use_bias self));
      (txt "key_size", PyInt (BertSelfAttention.key_size self));
      (txt "hidden_size", PyInt (BertSelfAttention.hidden_size self));
      (txt "initializer", initializer) ] in
  dict_update base_config config.

(** The parameters of [BertSelfAttention.__init__] (lines 221-230). *)
Definition BertSelfAttention_required : list str :=
  [txt "num_heads"; txt "head_size"; txt "batch_size"; txt "attention_dropout"].
Definition BertSelfAttention_optional : list str :=
  [txt "use_bias"; txt "key_size"; txt "hidden_size"; txt "initializer"].

(** [keras.layers.Layer.__init__] (tf.keras 2.x): its parameters are
    [trainable], [name], [dtype] and [dynamic]; of other keyword arguments
    it lets a fixed few through, and any other is a TypeError (Keyword
    argument not understood). *)
Definition keras_layer_parameters : list str :=
  [txt "trainable"; txt "name"; txt "dtype"; txt "dynamic"].
Definition keras_layer_allowed : list str :=
  [txt "input_dim"; txt "input_shape"; txt "batch_input_shape"; txt "batch_size";
   txt "weights"; txt "activity_regularizer"; txt "autocast"; txt "implementation"].

Definition keras_layer_init (kwargs : dict) : result unit :=
  if forallb (fun kv => bool_decide (fst kv ∈ keras_layer_parameters ++ keras_layer_allowed))
             kwargs
  then Ok tt else Raise TypeError.

(** [PositionEmbedding.__init__] (lines 23-45) called with the entries of
    [config] as keyword arguments: the arguments are bound, the others go
    to the constructor of the base class (line 39), and then the six
    attributes are set (lines 40-45). *)
Definition PositionEmbedding_init (config : dict) : result dict :=
  match bind PositionEmbedding_required PositionEmbedding_optional config with
  | Raise e => Raise e
  | Ok (bound, kwargs) =>
      match keras_layer_init kwargs with
      | Raise e => Raise e
      | Ok _ =>
          Ok [ (txt "input_dim", parameter bound (txt "input_dim") PyNone);
               (txt "output_dim", parameter bound (txt "output_dim") PyNone);
               (txt "merge_mode", parameter bound (txt "merge_mode") (PyStr (txt "add")));
               (txt "hierarchical", parameter bound (txt "hierarchical") PyNone);
               (txt "custom_position_ids",
                parameter bound (txt "custom_position_ids") (PyBool false));
               (txt "embeddings_initializer",
                parameter bound (txt "embeddings_initializer") (PyStr (txt "zeros"))) ]
      end
  end.

End LayerConfig.

(** ** BertOutput.__init__: the keyword arguments it needs *)

Module BertOutputKeywords.
Import Py.

(** All five keyword arguments that lines 340-344 delete are there. *)
Definition all_present {V} (kwargs : gmap str V) : bool :=
  bool_decide (is_Some (kwargs !! txt "hidden_size"))
  && bool_decide (is_Some (kwargs !! txt "embedding_size"))
  && bool_decide (is_Some (kwargs !! txt "hidden_act"))
  && bool_decide (is_Some (kwargs !! txt "layer_norm_eps"))
  && bool_decide (is_Some (kwargs !! txt "token_embeddings")).

(** The keyword arguments without these five. *)
Definition without_five {V} (kwargs : gmap str V) : gmap str V :=
  delete (txt "token_embeddings") (delete (txt "layer_norm_eps")
    (delete (txt "hidden_act") (delete (txt "embedding_size")
      (delete (txt "hidden_size") kwargs)))).

End BertOutputKeywords.

(* ===================================================================== *)
(** * Part II: lemmas and theorems                                         *)
(* ===================================================================== *)

(** ** Strings and dicts *)

Section PyFacts.
Import Py.

Lemma str_eqb_eq (a b : str) : str_eqb a b = true ↔ a = b.
Proof. unfold str_eqb. apply bool_decide_eq_true. Qed.

Lemma str_eqb_refl (a : str) : str_eqb a a = true.
Proof. by apply str_eqb_eq. Qed.

Lemma str_eqb_ne (a b : str) : a ≠ b → str_eqb a b = false.
Proof. unfold str_eqb. apply bool_decide_eq_false_2. Qed.

(** [endswith] is the suffix relation. *)
Lemma endswith_spec (s suffix : str) :
  endswith s suffix = true ↔ ∃ p, s = p ++ suffix.
Proof.
  unfold endswith. rewrite andb_true_iff, !bool_decide_eq_true. split.
  - intros [Hd Hl]. exists (take (length s - length suffix) s).
    pose proof (take_drop (length s - length suffix) s) as E.
    rewrite Hd in E. done.
  - intros [p ->]. rewrite length_app. split; [|lia].
    replace (length p + length suffix - length suffix)%nat with (length p) by lia.
    by rewrite drop_app_length.
Qed.

Lemma dict_get_set_eq (d : dict) k v : dict_get (dict_set d k v) k = Some v.
Proof.
  induction d as [|[k' v'] d IH]; simpl.
  - by rewrite str_eqb_refl.
  - destruct (str_eqb k' k) eqn:E; simpl; rewrite E; [done|apply IH].
Qed.

Lemma dict_get_set_ne (d : dict) k k' v :
  k ≠ k' → dict_get (dict_set d k v) k' = dict_get d k'.
Proof.
  intros Hne. induction d as [|[k0 v0] d IH]; simpl.
  - by rewrite str_eqb_ne.
  - destruct (str_eqb k0 k) eqn:E; simpl.
    + apply str_eqb_eq in E as ->. by rewrite (str_eqb_ne k k').
    + destruct (str_eqb k0 k'); [done|apply IH].
Qed.

Lemma dict_get_Some_In (d : dict) k v :
  dict_get d k = Some v → In (k, v) d.
Proof.
  induction d as [|[k' v'] d IH]; simpl; [done|].
  destruct (str_eqb k' k) eqn:E.
  - apply str_eqb_eq in E as ->. intros [= ->]. by left.
  - intros. right. by apply IH.
Qed.

Lemma dict_get_None (d : dict) k :
  dict_get d k = None ↔ k ∉ dict_keys d.
Proof.
  unfold dict_keys. induction d as [|[k' v'] d IH]; simpl.
  - split; [intros _; apply not_elem_of_nil | done].
  - rewrite not_elem_of_cons. destruct (str_eqb k' k) eqn:E.
    + apply str_eqb_eq in E as ->. split; [done|]. by intros [? _].
    + rewrite IH. split; [|tauto]. intros ?. split; [|done].
      intros ->. by rewrite str_eqb_refl in E.
Qed.


Lemma dict_keys_set (d : dict) k v :
  dict_keys (dict_set d k v) =
    if bool_decide (k ∈ dict_keys d) then dict_keys d else dict_keys d ++ [k].
Proof.
  unfold dict_keys. induction d as [|[k' v'] d IH].
  - case_bool_decide as B; [by apply elem_of_nil in B|done].
  - cbn [dict_set]. destruct (str_eqb k' k) eqn:E; cbn [map fst].
    + apply str_eqb_eq in E as ->.
      by rewrite bool_decide_eq_true_2 by apply list_elem_of_here.
    + rewrite IH. assert (k' ≠ k) by (intros ->; by rewrite str_eqb_refl in E).
      repeat case_bool_decide; try done.
      * exfalso. set_solver.
      * exfalso. set_solver.
Qed.

Lemma dict_set_NoDup (d : dict) k v :
  NoDup (dict_keys d) → NoDup (dict_keys (dict_set d k v)).
Proof.
  intros Hd. rewrite dict_keys_set. case_bool_decide; [done|].
  apply NoDup_app. split; [done|]. split; [|apply NoDup_singleton].
  intros x Hx ->%list_elem_of_singleton. done.
Qed.

Lemma dict_update_NoDup (pairs : list (str * pyval)) (d : dict) :
  NoDup (dict_keys d) → NoDup (dict_keys (dict_update d pairs)).
Proof.
  unfold dict_update. revert d.
  induction pairs as [|[k v] pairs IH]; intros d Hd; simpl; [done|].
  apply IH. by apply dict_set_NoDup.
Qed.

Lemma key_count_NoDup (d : dict) k :
  NoDup (dict_keys d) → k ∈ dict_keys d → key_count d k = 1%nat.
Proof.
  unfold key_count. generalize (dict_keys d) as l. clear d.
  induction l as [|x l IH]; intros Hnd Hin.
  - by apply elem_of_nil in Hin.
  - apply NoDup_cons in Hnd as [Hx Hl].
    rewrite filter_cons. case_decide as E.
    + subst x. simpl. f_equal.
      clear IH Hin. induction l as [|y l IH]; [done|].
      apply not_elem_of_cons in Hx as [? ?]. apply NoDup_cons in Hl as [? ?].
      rewrite filter_cons. rewrite decide_False by done. by apply IH.
    + apply elem_of_cons in Hin as [->|Hin]; [done|]. by apply IH.
Qed.
End PyFacts.

(** ** PositionEmbedding *)

Section PositionEmbeddingFacts.
Import Py Tensor PositionEmbedding.
Context {T : Type} `{Scalar T}.

(** *** Broadcasting on tensors of the same shape *)

Lemma mapM_total {A B} (f : A → option B) (g : A → B) (l : list A) :
  Forall (λ x, f x = Some (g x)) l → mapM f l = Some (map g l).
Proof.
  induction 1 as [|x l Hx _ IH]; [done|].
  cbn. rewrite Hx. cbn. fold (mapM f l). rewrite IH. done.
Qed.

Lemma zip_map_same {A B C} (g : A → B) (h : A → C) (l : list A) :
  zip (map g l) (map h l) = map (λ x, (g x, h x)) l.
Proof. induction l as [|x l IH]; [done|]. cbn. by rewrite IH. Qed.

Lemma mapM_map {A B C} (f : B → option C) (g : A → B) (l : list A) :
  mapM f (map g l) = mapM (λ x, f (g x)) l.
Proof.
  induction l as [|x l IH]; [done|].
  cbn. fold (mapM f (map g l)). fold (mapM (λ x, f (g x)) l). by rewrite IH.
Qed.

(** Two tensors built over the same index list are combined item by
    item. *)
Lemma bcast_same {A B C D} (f : B → C → option D) (g : A → B) (h : A → C)
    (r : A → D) (l : list A) :
  Forall (λ x, f (g x) (h x) = Some (r x)) l →
  bcast f (map g l) (map h l) = Some (map r l).
Proof.
  intros Hl. unfold bcast.
  rewrite bool_decide_eq_true_2 by (by rewrite !length_map).
  rewrite zip_map_same, mapM_map. cbn [fst snd]. by apply mapM_total.
Qed.

Lemma bop1_same (op : T → T → T) (x y : list T) :
  length x = length y → bop1 op x y = Some (zip_with op x y).
Proof.
  intros Hl. unfold bop1, bcast. rewrite bool_decide_eq_true_2 by done.
  clear Hl. revert y. induction x as [|a x IH]; intros [|b y]; try done.
  cbn. fold (mapM (λ p : T * T, Some (op p.1 p.2)) (zip x y)).
  by rewrite IH.
Qed.

(** One row against every row of a table: the first axis of the row is
    stretched. *)
Lemma bcast_row {A B C} (f : A → B → option C) (g : A → C) (xs : list A) (y : B) :
  xs ≠ [] →
  Forall (λ x, f x y = Some (g x)) xs →
  bcast f xs [y] = Some (map g xs).
Proof.
  intros Hne Hf. unfold bcast. case_bool_decide as Hl.
  - destruct xs as [|x [|x' xs]]; try done.
    apply List.Forall_inv in Hf. cbn. by rewrite Hf.
  - destruct xs as [|x [|x' xs]]; try done.
    by apply mapM_total.
Qed.

(** *** The hierarchical decomposition *)

Lemma index_Some {A} (l : list (list A)) (i : Z) :
  0 ≤ i < Z.of_nat (length l) → index l i = Some (row_at l i).
Proof.
  intros Hi. unfold row_at, index. rewrite bool_decide_eq_true_2 by lia.
  destruct (lookup_lt_is_Some_2 l (Z.to_nat i)) as [x Hx]; [lia|].
  by rewrite Hx.
Qed.

Lemma row_at_elem {A} (l : list (list A)) (i : Z) :
  0 ≤ i < Z.of_nat (length l) → row_at l i ∈ l.
Proof.
  intros Hi. pose proof (index_Some l i Hi) as E.
  unfold index in E. rewrite bool_decide_eq_true_2 in E by lia.
  by eapply list_elem_of_lookup_2.
Qed.

(** Both indices of a position below the square of the table size are
    rows of the table. *)
Lemma hierarchical_indices (d p : Z) :
  0 < d → 0 ≤ p ≤ d ^ 2 - 1 → 0 ≤ p / d < d ∧ 0 ≤ p mod d < d.
Proof.
  intros Hd Hp. split.
  - split; [apply Z.div_pos; lia|].
    apply Z.div_lt_upper_bound; [done|]. nia.
  - by apply Z.mod_pos_bound.
Qed.

(** The table of lines 68-69, row by row. *)
Lemma rescaled_rows (alpha : T) (E : list (list T)) (n : nat) :
  E ≠ [] →
  Forall (λ row, length row = n) E →
  rescaled alpha E = Some (map (rescaled_row alpha (hd [] E)) E).
Proof.
  intros Hne Hrows. unfold rescaled, bop2.
  destruct E as [|row0 E0] eqn:HE; [done|]. rewrite <- HE in *.
  assert (take 1 E = [row0]) as -> by (by rewrite HE).
  assert (hd [] E = row0) as -> by (by rewrite HE).
  cbn [smap2 map].
  rewrite (bcast_row _ (λ row, zip_with s_sub row (map (s_mul alpha) row0))).
  - cbn [mbind option_bind]. unfold smap2, rescaled_row. by rewrite map_map.
  - by rewrite HE.
  - eapply Forall_impl; [exact Hrows|]. intros row Hrow. cbn beta.
    apply bop1_same. rewrite length_map, Hrow.
    rewrite HE in Hrows. by apply List.Forall_inv in Hrows.
Qed.

Lemma rescaled_row_length (alpha : T) (row0 row : list T) (n : nat) :
  length row0 = n → length row = n → length (rescaled_row alpha row0 row) = n.
Proof.
  intros H0 H1. unfold rescaled_row.
  rewrite length_map, length_zip_with, length_map. lia.
Qed.

Lemma gather_rows (E : list (list T)) (f : Z → Z) (ids : list (list Z)) :
  Forall (Forall (λ p, 0 ≤ f p < Z.of_nat (length E))) ids →
  gather E (map (map f) ids) = Some (map (map (λ p, row_at E (f p))) ids).
Proof.
  intros Hids. unfold gather. rewrite mapM_map. apply mapM_total.
  eapply Forall_impl; [exact Hids|]. intros row Hrow. cbn beta.
  rewrite mapM_map. apply mapM_total.
  eapply Forall_impl; [exact Hrow|]. intros p Hp. cbn beta.
  by apply index_Some.
Qed.

(** C3.  With the hierarchical decomposition enabled, [alpha] is 0.4 when
    [hierarchical] is True and the number passed otherwise.  For a table
    [E] of [input_dim] rows and position ids from 0 to [input_dim^2 - 1],
    the floor quotient and the remainder of every id by [input_dim] lie in
    [0, input_dim), both lookups succeed, and the embedding computed for
    the position [p] is [alpha * E'[p // input_dim] + (1 - alpha) *
    E'[p mod input_dim]], where every row of [E'] is the row of [E] minus
    [alpha] times the first row, divided by [1 - alpha]. *)
Theorem hierarchical_position_embeddings
    (self : layer T) (position_ids : list (list Z)) :
  hierarchical_enabled (hierarchical self) = true →
  0 < input_dim self →
  length (embeddings self) = Z.to_nat (input_dim self) →
  Forall (λ row, length row = Z.to_nat (output_dim self)) (embeddings self) →
  Forall (Forall (λ p, 0 ≤ p ≤ input_dim self ^ 2 - 1)) position_ids →
  let alpha := alpha_of (hierarchical self) in
  let d := input_dim self in
  (hierarchical self = HBool true → alpha = s_lit_0_4) ∧
  (∀ a, hierarchical self = HNum a → alpha = a) ∧
  ∃ E',
    rescaled alpha (embeddings self) = Some E' ∧
    E' = map (rescaled_row alpha (hd [] (embeddings self))) (embeddings self) ∧
    position_embeddings self position_ids
      = Some (map (map (λ p, hierarchical_row alpha (row_at E' (p / d))
                                                    (row_at E' (p mod d))))
                  position_ids) ∧
    Forall (Forall (λ p,
      (0 ≤ p / d < d ∧ 0 ≤ p mod d < d) ∧
      index E' (p / d) = Some (row_at E' (p / d)) ∧
      index E' (p mod d) = Some (row_at E' (p mod d)) ∧
      length (hierarchical_row alpha (row_at E' (p / d)) (row_at E' (p mod d)))
        = Z.to_nat (output_dim self))) position_ids.
Proof.
  intros Hen Hd Hlen Hrows Hids alpha d.
  split; [intros E0; unfold alpha; by rewrite E0|].
  split; [intros a E0; unfold alpha; by rewrite E0|].
  set (E := embeddings self) in *.
  set (n := Z.to_nat (output_dim self)) in *.
  set (E' := map (rescaled_row alpha (hd [] E)) E).
  assert (E ≠ []) as Hne by (intros HE; rewrite HE in Hlen; cbn in Hlen; lia).
  assert (length E' = Z.to_nat d) as Hlen' by (unfold E'; by rewrite length_map).
  assert (Forall (λ row, length row = n) E') as Hrows'.
  { unfold E'. apply Forall_map. eapply Forall_impl; [exact Hrows|].
    intros row Hrow. cbn beta. apply rescaled_row_length; [|done].
    destruct E as [|row0 E0]; [done|]. by apply List.Forall_inv in Hrows. }
  assert (Forall (Forall (λ p, 0 ≤ p / d < Z.of_nat (length E'))) position_ids) as Hx.
  { eapply Forall_impl; [exact Hids|]. intros row Hrow. cbn beta.
    eapply Forall_impl; [exact Hrow|]. intros p Hp. cbn beta.
    destruct (hierarchical_indices d p Hd Hp). lia. }
  assert (Forall (Forall (λ p, 0 ≤ p mod d < Z.of_nat (length E'))) position_ids) as Hy.
  { eapply Forall_impl; [exact Hids|]. intros row Hrow. cbn beta.
    eapply Forall_impl; [exact Hrow|]. intros p Hp. cbn beta.
    destruct (hierarchical_indices d p Hd Hp). lia. }
  assert (∀ i, 0 ≤ i < d → length (row_at E' i) = n) as Hrow_len.
  { intros i Hi. rewrite Forall_forall in Hrows'. apply Hrows'.
    apply row_at_elem. lia. }
  exists E'. split; [by apply (rescaled_rows alpha E n)|]. split; [done|]. split.
  - unfold position_embeddings. rewrite Hen. fold alpha E d.
    rewrite (rescaled_rows alpha E n) by done. fold E'.
    cbn [mbind option_bind]. unfold floordiv, floormod.
    rewrite bool_decide_eq_false_2 by lia. cbn [mbind option_bind].
    rewrite (gather_rows E' (λ p, p / d)) by done. cbn [mbind option_bind].
    rewrite (gather_rows E' (λ p, p mod d)) by done. cbn [mbind option_bind].
    unfold smap3, bop3. rewrite !map_map.
    apply bcast_same.
    eapply Forall_impl; [exact Hids|]. intros row Hrow. cbn beta.
    unfold bop2. rewrite !map_map. apply bcast_same.
    eapply Forall_impl; [exact Hrow|]. intros p Hp. cbn beta.
    destruct (hierarchical_indices d p Hd Hp).
    apply bop1_same. rewrite !length_map. by rewrite !Hrow_len.
  - eapply Forall_impl; [exact Hids|]. intros row Hrow. cbn beta.
    eapply Forall_impl; [exact Hrow|]. intros p Hp. cbn beta.
    destruct (hierarchical_indices d p Hd Hp) as [Hq Hr].
    split; [done|].
    split; [apply index_Some; lia|]. split; [apply index_Some; lia|].
    unfold hierarchical_row. rewrite length_zip_with, !length_map.
    rewrite !Hrow_len by done. lia.
Qed.

(** *** The merge modes *)

(** C6, as amended.  [call] returns, for the inputs and the position
    embedding it has computed: with merge mode add their elementwise sum,
    with mul the inputs times the embedding plus one, with zero the
    embedding alone, and with any other mode their concatenation along the
    last axis; the embedding is tiled over the batch first only when no
    custom position ids are passed. *)
Theorem PositionEmbedding_call_merges
    (self : layer T) (arg : call_input T)
    (inputs emb : list (list (list T))) (position_ids : list (list Z)) (batch_size : nat) :
  unpack self arg = Some (inputs, position_ids, batch_size) →
  position_embeddings self position_ids = Some emb →
  (merge_mode self = txt "add" → call self arg = bop3 s_add inputs emb) ∧
  (merge_mode self = txt "mul" →
   call self arg = bop3 s_mul inputs (smap3 (λ e, s_add e s_one) emb)) ∧
  (merge_mode self = txt "zero" → call self arg = Some emb) ∧
  (merge_mode self ≠ txt "add" → merge_mode self ≠ txt "mul" →
   merge_mode self ≠ txt "zero" →
   (custom_position_ids self = false →
    call self arg = concat_last inputs (tile0 (length inputs) emb)) ∧
   (custom_position_ids self = true →
    call self arg = concat_last inputs emb)).
Proof.
  intros Hu He. unfold call. rewrite Hu. cbn. rewrite He. cbn.
  unfold merge. repeat split.
  - intros ->. by rewrite str_eqb_refl.
  - intros ->. done.
  - intros ->. done.
  - intros Hc. rewrite !str_eqb_ne by done. rewrite Hc. cbn.
    unfold unpack in Hu. rewrite Hc in Hu. destruct arg; [|done].
    by injection Hu as <- _ <-.
  - intros Hc. rewrite !str_eqb_ne by done. by rewrite Hc.
Qed.
End PositionEmbeddingFacts.

Section PositionEmbeddingWitnesses.
Import Py Tensor PositionEmbedding PositionEmbeddingExamples.

Lemma hierarchical_position_embeddings_witness :
  let self := {| input_dim := 4; output_dim := 1; merge_mode := txt "zero";
                 hierarchical := HBool true; custom_position_ids := true;
                 embeddings := table_4x1 |} in
  let position_ids := [[0; 5; 15]; [3; 4; 12]] in
  let alpha := alpha_of (hierarchical self) in
  let d := input_dim self in
  (hierarchical self = HBool true → alpha = s_lit_0_4) ∧
  (∀ a, hierarchical self = HNum a → alpha = a) ∧
  ∃ E',
    rescaled alpha (embeddings self) = Some E' ∧
    E' = map (rescaled_row alpha (hd [] (embeddings self))) (embeddings self) ∧
    position_embeddings self position_ids
      = Some (map (map (λ p, hierarchical_row alpha (row_at E' (p / d))
                                                    (row_at E' (p mod d))))
                  position_ids) ∧
    Forall (Forall (λ p,
      (0 ≤ p / d < d ∧ 0 ≤ p mod d < d) ∧
      index E' (p / d) = Some (row_at E' (p / d)) ∧
      index E' (p mod d) = Some (row_at E' (p mod d)) ∧
      length (hierarchical_row alpha (row_at E' (p / d)) (row_at E' (p mod d)))
        = Z.to_nat (output_dim self))) position_ids.
Proof.
  intros self position_ids.
  apply (hierarchical_position_embeddings self position_ids).
  - reflexivity.
  - reflexivity.
  - reflexivity.
  - repeat constructor.
  - repeat constructor; cbn; lia.
Defined.

Lemma PositionEmbedding_call_merges_witness :
  let self := concat_layer false in
  let arg := Inputs batch_2x2x1 in
  let emb := [[[1]; [2]]]%float in
  (merge_mode self = txt "add" → call self arg = bop3 s_add batch_2x2x1 emb) ∧
  (merge_mode self = txt "mul" →
   call self arg = bop3 s_mul batch_2x2x1 (smap3 (λ e, s_add e s_one) emb)) ∧
  (merge_mode self = txt "zero" → call self arg = Some emb) ∧
  (merge_mode self ≠ txt "add" → merge_mode self ≠ txt "mul" →
   merge_mode self ≠ txt "zero" →
   (custom_position_ids self = false →
    call self arg = concat_last batch_2x2x1 (tile0 (length batch_2x2x1) emb)) ∧
   (custom_position_ids self = true →
    call self arg = concat_last batch_2x2x1 emb)).
Proof.
  intros self arg emb.
  apply (PositionEmbedding_call_merges self arg batch_2x2x1 emb [[0; 1]] 2);
    reflexivity.
Defined.

(** C6 fails with custom position ids: the embedding is not tiled.  With
    position ids for one sequence and a batch of two, the concatenation
    is an error, where tiling the embedding over the batch would have
    given a result; with position ids for both sequences the result is
    the concatenation with the embedding as it is, and tiling would have
    been the error. *)
Lemma PositionEmbedding_concat_not_tiled :
  let self := concat_layer true in
  (position_embeddings self [[0; 1]] = Some [[[1]; [2]]]%float ∧
   call self (InputsWithIds batch_2x2x1 [[0; 1]]) = None ∧
   concat_last batch_2x2x1 (tile0 2 [[[1]; [2]]]%float)
     = Some [[[10; 1]; [20; 2]]; [[30; 1]; [40; 2]]]%float) ∧
  (position_embeddings self [[0; 1]; [2; 3]] = Some [[[1]; [2]]; [[3]; [4]]]%float ∧
   call self (InputsWithIds batch_2x2x1 [[0; 1]; [2; 3]])
     = Some [[[10; 1]; [20; 2]]; [[30; 3]; [40; 4]]]%float ∧
   concat_last batch_2x2x1 (tile0 2 [[[1]; [2]]; [[3]; [4]]]%float) = None).
Proof. vm_compute. repeat split. Qed.
End PositionEmbeddingWitnesses.

(** ** Tensors with their elements *)

Section BufferFacts.
Import Shape Buffer.
Context {T : Type}.

Lemma numel_pos (s : shape) : Forall (λ d, 0 < d) s → 0 < numel s.
Proof.
  induction 1 as [|d r Hd _ IH]; [done|].
  change (0 < d * numel r). nia.
Qed.

Lemma offset_cons (i n : Z) (index steps : list Z) :
  offset (i :: index) (n :: steps) = i * n + offset index steps.
Proof. reflexivity. Qed.

(** Indices within the shape give a place within the elements. *)
Lemma offset_bound (index : list Z) (s : shape) :
  Forall2 (λ i d, 0 ≤ i < d) index s →
  0 ≤ offset index (strides s) < numel s.
Proof.
  induction 1 as [|i d index s Hi _ IH]; [by cbn|].
  cbn [strides]. rewrite offset_cons. change (numel (d :: s)) with (d * numel s).
  nia.
Qed.

(** [unravel] gives back the indices of a place. *)
Lemma unravel_offset (index : list Z) (s : shape) :
  Forall2 (λ i d, 0 ≤ i < d) index s →
  unravel s (offset index (strides s)) = index.
Proof.
  induction 1 as [|i d index s Hi Hrest IH]; [done|].
  cbn [strides unravel]. rewrite offset_cons.
  pose proof (offset_bound _ _ Hrest) as Hb.
  set (x := offset index (strides s)) in *. f_equal.
  - symmetry. apply (Z.div_unique_pos _ _ _ x); lia.
  - rewrite <- IH. f_equal. symmetry. apply (Z.mod_unique_pos _ _ i); lia.
Qed.

Lemma unravel_bound (s : shape) (i : Z) :
  Forall (λ d, 0 < d) s → 0 ≤ i < numel s →
  Forall2 (λ j d, 0 ≤ j < d) (unravel s i) s.
Proof.
  intros Hs. revert i. induction Hs as [|d r Hd Hr IH]; intros i Hi; [constructor|].
  cbn [unravel]. pose proof (numel_pos r Hr) as Hn.
  change (numel (d :: r)) with (d * numel r) in Hi.
  constructor.
  - split; [apply Z.div_pos; lia|]. apply Z.div_lt_upper_bound; [done|]. nia.
  - apply IH. by apply Z.mod_pos_bound.
Qed.

Lemma concat_map_seq_length (f : nat → list T) (u a n : nat) :
  (∀ i, (a ≤ i < a + n)%nat → length (f i) = u) →
  length (concat (map f (seq a n))) = (n * u)%nat.
Proof.
  revert a. induction n as [|n IH]; intros a Hf; [done|].
  cbn [seq map concat]. rewrite length_app, IH, Hf; [lia|lia|].
  intros i Hi. apply Hf. lia.
Qed.

(** The [r]-th block of a concatenation of blocks of one length. *)
Lemma concat_map_seq_block (f : nat → list T) (u a n r : nat) :
  (∀ i, (a ≤ i < a + n)%nat → length (f i) = u) → (r < n)%nat →
  take u (drop (r * u) (concat (map f (seq a n)))) = f (a + r)%nat.
Proof.
  revert a r. induction n as [|n IH]; intros a r Hf Hr; [lia|].
  cbn [seq map concat]. destruct r as [|r].
  - cbn [Nat.mul drop]. rewrite Nat.add_0_r.
    apply take_app_length'. symmetry. apply Hf. lia.
  - change (S r * u)%nat with (u + r * u)%nat.
    rewrite drop_app_add' by (symmetry; apply Hf; lia).
    rewrite IH; [f_equal; lia| |lia]. intros i Hi. apply Hf. lia.
Qed.

Lemma row_length (t : tensor T) (r n : nat) :
  length (elems t) = (n * last_dim t)%nat → (r < n)%nat →
  length (row t r) = last_dim t.
Proof.
  intros Hl Hr. unfold row. rewrite length_take, length_drop, Hl. nia.
Qed.

Lemma row_lookup (t : tensor T) (r c : nat) :
  (c < last_dim t)%nat → row t r !! c = elems t !! (r * last_dim t + c)%nat.
Proof.
  intros Hc. unfold row. by rewrite lookup_take_lt, lookup_drop.
Qed.

(** A Dense layer on a tensor of rank 3: the shape, and every vector. *)
Lemma dense_rows (units : Z) (affine : list T → list T) (t : tensor T) (b s d : Z) :
  0 < b → 0 < s → 0 ≤ d → 0 ≤ units →
  dims t = [b; s; d] →
  length (elems t) = Z.to_nat (b * s * d) →
  (∀ x, length x = Z.to_nat d → length (affine x) = Z.to_nat units) →
  ∃ p, dense units affine t = Some p ∧
       dims p = [b; s; units] ∧
       length (elems p) = Z.to_nat (b * s * units) ∧
       ∀ r, (r < Z.to_nat (b * s))%nat → row p r = affine (row t r).
Proof.
  intros Hb Hs Hd Hu Hdims Hlen Haff. unfold dense. rewrite Hdims.
  cbn [Shape.dense length Nat.sub take app mbind option_bind numel fold_right].
  eexists. split; [reflexivity|]. cbn [dims elems].
  assert (last_dim t = Z.to_nat d) as Hld by (unfold last_dim; by rewrite Hdims).
  assert (Z.to_nat (b * (s * 1)) = Z.to_nat (b * s)) as -> by (f_equal; lia).
  assert (length (elems t) = (Z.to_nat (b * s) * last_dim t)%nat) as Hlen'.
  { rewrite Hlen, Hld, <- Z2Nat.inj_mul by lia. done. }
  assert (∀ i, (0 ≤ i < 0 + Z.to_nat (b * s))%nat →
               length (affine (row t i)) = Z.to_nat units) as Hrows.
  { intros i Hi. apply Haff. rewrite <- Hld. apply (row_length t i _ Hlen'). lia. }
  split; [done|]. split.
  - rewrite (concat_map_seq_length _ (Z.to_nat units)) by done.
    rewrite <- Z2Nat.inj_mul by lia. done.
  - intros r Hr. unfold row at 1, last_dim at 1 2. cbn [dims elems last default].
    by rewrite (concat_map_seq_block _ (Z.to_nat units) 0 _ r).
Qed.

(** [tf.transpose] with [perm = [0, 2, 1, 3]] swaps the two middle
    indices. *)
Lemma transpose_0213_elems (t : tensor T) (a b c d : Z) :
  0 < a → 0 < b → 0 < c → 0 < d →
  dims t = [a; b; c; d] →
  length (elems t) = Z.to_nat (a * b * c * d) →
  ∃ r, transpose t [0; 2; 1; 3]%nat = Some r ∧
       dims r = [a; c; b; d] ∧
       length (elems r) = Z.to_nat (a * b * c * d) ∧
       ∀ i h j k, 0 ≤ i < a → 0 ≤ h < c → 0 ≤ j < b → 0 ≤ k < d →
         get r [i; h; j; k] = get t [i; j; h; k].
Proof.
  intros Ha Hb Hc Hd Hdims Hlen. unfold transpose. rewrite Hdims.
  assert (Shape.transpose [a; b; c; d] [0; 2; 1; 3]%nat = Some [a; c; b; d]) as ->.
  { unfold Shape.transpose. rewrite bool_decide_eq_true_2; [done|].
    cbn. constructor. apply perm_swap. }
  cbn [mbind option_bind mapM strides lookup list_lookup mret option_ret].
  set (steps := [numel [b; c; d]; numel [d]; numel [c; d]; numel []]).
  set (places := map Z.of_nat (seq 0 (Z.to_nat (numel [a; c; b; d])))).
  set (f := λ i, elems t !! Z.to_nat (offset (unravel [a; c; b; d] i) steps)).
  assert (∀ i h j k, 0 ≤ i < a → 0 ≤ h < c → 0 ≤ j < b → 0 ≤ k < d →
            offset [i; h; j; k] steps = offset [i; j; h; k] (strides [a; b; c; d]) ∧
            0 ≤ offset [i; j; h; k] (strides [a; b; c; d]) < a * b * c * d) as Hsrc.
  { intros i h j k Hi Hh Hj Hk. split.
    - unfold steps, offset. cbn. lia.
    - assert (a * b * c * d = numel [a; b; c; d]) as -> by (cbn; lia).
      apply offset_bound. repeat constructor; lia. }
  assert (numel [a; c; b; d] = a * b * c * d) as Hn by (cbn; lia).
  destruct (mapM f places) as [moved|] eqn:Hm.
  - cbn [mbind option_bind]. eexists. split; [reflexivity|]. cbn [dims elems].
    apply mapM_Some_1 in Hm.
    split; [done|]. split.
    { rewrite <- (Forall2_length _ _ _ Hm). unfold places.
      by rewrite length_map, length_seq, Hn. }
    intros i h j k Hi Hh Hj Hk. unfold get at 1. cbn [dims elems].
    assert (Forall2 (λ x y, 0 ≤ x < y) [i; h; j; k] [a; c; b; d]) as Hin
      by (repeat constructor; lia).
    pose proof (offset_bound _ _ Hin) as Ho.
    set (o := offset [i; h; j; k] (strides [a; c; b; d])) in *.
    assert (places !! Z.to_nat o = Some o) as Hp.
    { unfold places. apply list_lookup_fmap_Some. exists (Z.to_nat o).
      split; [lia|]. apply lookup_seq. lia. }
    destruct (Forall2_lookup_l _ _ _ _ _ Hm Hp) as (y & Hy & Hf).
    rewrite Hy, <- Hf. unfold f, o. rewrite (unravel_offset _ _ Hin).
    destruct (Hsrc i h j k Hi Hh Hj Hk) as [-> _]. unfold get. by rewrite Hdims.
  - exfalso. apply mapM_None_1, Exists_exists in Hm as (x & Hx & Hnone).
    unfold places in Hx. apply list_elem_of_fmap in Hx as (n & -> & Hn').
    apply elem_of_seq in Hn'. unfold f in Hnone.
    assert (Forall2 (λ x y, 0 ≤ x < y) (unravel [a; c; b; d] (Z.of_nat n)) [a; c; b; d])
      as Hin.
    { apply unravel_bound; [repeat constructor; lia|lia]. }
    cbn [unravel] in Hin, Hnone.
    apply Forall2_cons_1 in Hin as [Hi Hin]. apply Forall2_cons_1 in Hin as [Hh Hin].
    apply Forall2_cons_1 in Hin as [Hj Hin]. apply Forall2_cons_1 in Hin as [Hk _].
    destruct (Hsrc _ _ _ _ Hi Hh Hj Hk) as [E Hlt]. rewrite E in Hnone.
    apply lookup_ge_None_1 in Hnone. lia.
Qed.
End BufferFacts.

(** ** BertSelfAttention *)

Section BertSelfAttentionFacts.
Import Shape Buffer BertSelfAttention.
Context {T : Type}.

(** Splitting an axis of [heads * size] features into heads, as shapes. *)
Lemma reshape_heads (bs nh size b s : Z) :
  0 < bs → 0 < nh → 0 < size →
  (b * s) mod bs = 0 →
  Shape.reshape [b; s; size * nh] [bs; -1; nh; size] = Some [bs; b * s / bs; nh; size].
Proof.
  intros Hbs Hnh Hsize Hmod. unfold Shape.reshape.
  rewrite bool_decide_eq_false_2.
  2:{ rewrite !Exists_cons, Exists_nil. lia. }
  assert (filter (λ d, d ≠ -1) [bs; -1; nh; size] = [bs; nh; size]) as ->.
  { rewrite !filter_cons, filter_nil. repeat case_decide; (lia || done). }
  cbn [length Nat.sub numel fold_right].
  assert (bs * (nh * (size * 1)) = bs * (size * nh)) as -> by lia.
  assert (b * (s * (size * nh * 1)) = b * s * (size * nh)) as -> by lia.
  rewrite bool_decide_eq_false_2 by nia.
  rewrite Z.mul_mod_distr_r by nia. rewrite Hmod.
  rewrite bool_decide_eq_true_2 by lia.
  rewrite Z.div_mul_cancel_r by nia.
  cbn [map]. rewrite (bool_decide_eq_true_2 (-1 = -1)) by done.
  rewrite !bool_decide_eq_false_2 by lia. done.
Qed.

(** [transpose_for_scores] on a tensor of [b] sequences of [s] vectors of
    [size * heads] features: the element [i, h, j, c] of the result is
    feature [h * size + c] of the vector [i * s' + j], where [s'] is
    [b * s / batch_size]. *)
Lemma transpose_for_scores_elems (self : layer) (t : tensor T) (size b s : Z) :
  0 < batch_size self → 0 < num_heads self → 0 < size → 0 < b → 0 < s →
  (b * s) mod batch_size self = 0 →
  dims t = [b; s; size * num_heads self] →
  length (elems t) = Z.to_nat (b * s * (size * num_heads self)) →
  ∃ r, transpose_for_scores self t size = Some r ∧
       dims r = [batch_size self; num_heads self; b * s / batch_size self; size] ∧
       ∀ i h j c,
         0 ≤ i < batch_size self → 0 ≤ h < num_heads self →
         0 ≤ j < b * s / batch_size self → 0 ≤ c < size →
         get r [i; h; j; c]
         = row t (Z.to_nat (i * (b * s / batch_size self) + j)) !! Z.to_nat (h * size + c).
Proof.
  intros Hbs Hnh Hsize Hb Hs Hmod Hdims Hlen.
  set (bs := batch_size self) in *. set (nh := num_heads self) in *.
  set (s' := b * s / bs).
  assert (b * s = bs * s') as Hdiv by (by apply Z_div_exact_full_2; [lia|]).
  assert (0 < s') as Hs' by nia.
  unfold transpose_for_scores, reshape. rewrite Hdims.
  fold bs nh. rewrite reshape_heads by done. fold s'. cbn [mbind option_bind].
  set (t' := {| dims := [bs; s'; nh; size]; elems := elems t |}).
  destruct (transpose_0213_elems t' bs s' nh size) as (r & Hr & Hrd & _ & Hget);
    [done..| |].
  { cbn [elems t']. rewrite Hlen. f_equal. rewrite Hdiv. lia. }
  exists r. split; [done|]. split; [done|].
  intros i h j c Hi Hh Hj Hc. rewrite Hget by done.
  assert (last_dim t = Z.to_nat (size * nh)) as Hld by (unfold last_dim; by rewrite Hdims).
  rewrite row_lookup by (rewrite Hld; nia). rewrite Hld.
  unfold get. cbn [dims elems t']. f_equal.
  unfold offset. cbn [strides numel fold_right zip_with].
  rewrite <- Z2Nat.inj_mul, <- Z2Nat.inj_add by nia. f_equal. lia.
Qed.

(** One projection and its heads. *)
Lemma project_and_split (self : layer) (affine : list T → list T) (t : tensor T)
    (size b s d : Z) :
  0 < batch_size self → 0 < num_heads self → 0 < size → 0 < b → 0 < s → 0 ≤ d →
  (b * s) mod batch_size self = 0 →
  dims t = [b; s; d] →
  length (elems t) = Z.to_nat (b * s * d) →
  (∀ x, length x = Z.to_nat d → length (affine x) = Z.to_nat (size * num_heads self)) →
  ∃ p r, dense (size * num_heads self) affine t = Some p ∧
         dims p = [b; s; size * num_heads self] ∧
         (∀ n, (n < Z.to_nat (b * s))%nat → row p n = affine (row t n)) ∧
         transpose_for_scores self p size = Some r ∧
         dims r = [batch_size self; num_heads self; b * s / batch_size self; size] ∧
         ∀ i h j c,
           0 ≤ i < batch_size self → 0 ≤ h < num_heads self →
           0 ≤ j < b * s / batch_size self → 0 ≤ c < size →
           get r [i; h; j; c]
           = affine (row t (Z.to_nat (i * (b * s / batch_size self) + j)))
               !! Z.to_nat (h * size + c).
Proof.
  intros Hbs Hnh Hsize Hb Hs Hd Hmod Hdims Hlen Haff.
  destruct (dense_rows (size * num_heads self) affine t b s d)
    as (p & Hp & Hpd & Hpl & Hrow); [done|done|done|nia|done..|].
  destruct (transpose_for_scores_elems self p size b s)
    as (r & Hr & Hrd & Hget); [done..|].
  exists p, r. do 5 (split; [done|]).
  intros i h j c Hi Hh Hj Hc. rewrite Hget by done. rewrite Hrow; [done|].
  assert (b * s = batch_size self * (b * s / batch_size self)) as Hdiv
    by (by apply Z_div_exact_full_2; [lia|]).
  nia.
Qed.

(** C4.  [key_size] is [head_size] and [hidden_size] is [num_heads *
    head_size] unless the argument is given.  On a call with tensors of
    shape (b, seq, features) for which the configured [batch_size] divides
    [b * seq], query and key are projected to [key_size * num_heads]
    features and value to [head_size * num_heads]: every vector along the
    last axis is replaced by what the Dense layer makes of it.  Each
    projection is then reshaped and transposed to (batch_size, num_heads,
    seq', size), with size [key_size] for query and key and [head_size]
    for value and with [seq' = b * seq / batch_size]: the element [i, h,
    j, c] of the result is feature [h * size + c] of the projection of
    the vector [i * seq' + j] of the input.  When [b] is the configured
    [batch_size], [seq'] is [seq], and that vector is position [j] of
    sequence [i]. *)
Theorem BertSelfAttention_heads_split
    (self : layer) (w : weights T) (query key value : tensor T)
    (b seq_q seq_k seq_v dim_q dim_k dim_v : Z) :
  0 < batch_size self → 0 < num_heads self →
  0 < head_size self → 0 < key_size self →
  0 < b → 0 < seq_q → 0 < seq_k → 0 < seq_v →
  0 ≤ dim_q → 0 ≤ dim_k → 0 ≤ dim_v →
  dims query = [b; seq_q; dim_q] → length (elems query) = Z.to_nat (b * seq_q * dim_q) →
  dims key = [b; seq_k; dim_k] → length (elems key) = Z.to_nat (b * seq_k * dim_k) →
  dims value = [b; seq_v; dim_v] → length (elems value) = Z.to_nat (b * seq_v * dim_v) →
  (∀ x, length x = Z.to_nat dim_q →
        length (query_map w x) = Z.to_nat (key_size self * num_heads self)) →
  (∀ x, length x = Z.to_nat dim_k →
        length (key_map w x) = Z.to_nat (key_size self * num_heads self)) →
  (∀ x, length x = Z.to_nat dim_v →
        length (value_map w x) = Z.to_nat (head_size self * num_heads self)) →
  (b * seq_q) mod batch_size self = 0 →
  (b * seq_k) mod batch_size self = 0 →
  (b * seq_v) mod batch_size self = 0 →
  (∀ nh hs bs dropout bias h, key_size (init nh hs bs dropout bias None h) = hs) ∧
  (∀ nh hs bs dropout bias k h, key_size (init nh hs bs dropout bias (Some k) h) = k) ∧
  (∀ nh hs bs dropout bias k, hidden_size (init nh hs bs dropout bias k None) = nh * hs) ∧
  (∀ nh hs bs dropout bias k h, hidden_size (init nh hs bs dropout bias k (Some h)) = h) ∧
  ∃ q k v Q K V,
    query_dense self w query = Some q ∧
    dims q = [b; seq_q; key_size self * num_heads self] ∧
    (∀ n, (n < Z.to_nat (b * seq_q))%nat → row q n = query_map w (row query n)) ∧
    key_dense self w key = Some k ∧
    dims k = [b; seq_k; key_size self * num_heads self] ∧
    (∀ n, (n < Z.to_nat (b * seq_k))%nat → row k n = key_map w (row key n)) ∧
    value_dense self w value = Some v ∧
    dims v = [b; seq_v; head_size self * num_heads self] ∧
    (∀ n, (n < Z.to_nat (b * seq_v))%nat → row v n = value_map w (row value n)) ∧
    heads self w query key value = Some (Q, K, V) ∧
    dims Q = [batch_size self; num_heads self; b * seq_q / batch_size self; key_size self] ∧
    dims K = [batch_size self; num_heads self; b * seq_k / batch_size self; key_size self] ∧
    dims V = [batch_size self; num_heads self; b * seq_v / batch_size self; head_size self] ∧
    (∀ i h j c,
       0 ≤ i < batch_size self → 0 ≤ h < num_heads self →
       0 ≤ j < b * seq_q / batch_size self → 0 ≤ c < key_size self →
       get Q [i; h; j; c]
       = query_map w (row query (Z.to_nat (i * (b * seq_q / batch_size self) + j)))
           !! Z.to_nat (h * key_size self + c)) ∧
    (∀ i h j c,
       0 ≤ i < batch_size self → 0 ≤ h < num_heads self →
       0 ≤ j < b * seq_k / batch_size self → 0 ≤ c < key_size self →
       get K [i; h; j; c]
       = key_map w (row key (Z.to_nat (i * (b * seq_k / batch_size self) + j)))
           !! Z.to_nat (h * key_size self + c)) ∧
    (∀ i h j c,
       0 ≤ i < batch_size self → 0 ≤ h < num_heads self →
       0 ≤ j < b * seq_v / batch_size self → 0 ≤ c < head_size self →
       get V [i; h; j; c]
       = value_map w (row value (Z.to_nat (i * (b * seq_v / batch_size self) + j)))
           !! Z.to_nat (h * head_size self + c)) ∧
    (b = batch_size self →
     b * seq_q / batch_size self = seq_q ∧
     b * seq_k / batch_size self = seq_k ∧
     b * seq_v / batch_size self = seq_v).
Proof.
  intros Hbs Hnh Hhs Hks Hb Hsq Hsk Hsv Hdq Hdk Hdv
         Hqd Hql Hkd Hkl Hvd Hvl Hwq Hwk Hwv Hq Hk Hv.
  do 4 (split; [done|]).
  destruct (project_and_split self (query_map w) query (key_size self) b seq_q dim_q)
    as (q & Q & Eq & Eqd & Eqr & EQ & EQd & EQg); [done..|].
  destruct (project_and_split self (key_map w) key (key_size self) b seq_k dim_k)
    as (k & K & Ek & Ekd & Ekr & EK & EKd & EKg); [done..|].
  destruct (project_and_split self (value_map w) value (head_size self) b seq_v dim_v)
    as (v & V & Ev & Evd & Evr & EV & EVd & EVg); [done..|].
  exists q, k, v, Q, K, V.
  assert (heads self w query key value = Some (Q, K, V)) as Hheads.
  { unfold heads, query_dense, key_dense, value_dense.
    rewrite Eq, Ek, Ev. cbn [mbind option_bind]. rewrite EQ, EK, EV. done. }
  do 16 (split; [done|]).
  intros ->. rewrite !(Z.mul_comm (batch_size self)).
  by rewrite !Z.div_mul by lia.
Qed.
End BertSelfAttentionFacts.

Section BertSelfAttentionWitnesses.
Import Shape Buffer BertSelfAttention BertSelfAttentionExamples.

Lemma tenfold_length (x : list Z) : length (tenfold x) = (4 * length x)%nat.
Proof. unfold tenfold. rewrite !length_app, !length_map. lia. Qed.

Lemma BertSelfAttention_heads_split_witness :
  ∃ Q K V,
    heads two_heads tenfold_weights batch_2x2 batch_2x2 batch_2x2 = Some (Q, K, V) ∧
    dims Q = [2; 2; 2; 2] ∧
    elems Q = [1; 10; 2; 20; 100; 1000; 200; 2000;
               3; 30; 4; 40; 300; 3000; 400; 4000] ∧
    get Q [1; 0; 1; 1] = tenfold (row batch_2x2 3) !! 1%nat ∧
    get Q [1; 0; 1; 1] = Some 40.
Proof.
  destruct (BertSelfAttention_heads_split two_heads tenfold_weights
              batch_2x2 batch_2x2 batch_2x2 2 2 2 2 1 1 1)
    as (_ & _ & _ & _ & q & k & v & Q & K & V & _ & _ & _ & _ & _ & _ & _ & _ & _ &
        Hheads & HQ & _ & _ & Hget & _);
    try (vm_compute; (reflexivity || discriminate));
    try (intros y Hy; cbn [query_map key_map value_map tenfold_weights];
         rewrite tenfold_length, Hy; reflexivity).
  exists Q, K, V. split; [done|]. split; [exact HQ|].
  assert (elems Q = [1; 10; 2; 20; 100; 1000; 200; 2000;
                     3; 30; 4; 40; 300; 3000; 400; 4000]) as HE.
  { vm_compute in Hheads. by injection Hheads as <- _ _. }
  split; [done|]. split; [apply (Hget 1 0 1 1); (split; [by vm_compute|reflexivity])|].
  unfold get. rewrite HE, HQ. reflexivity.
Defined.

(** With another batch than the configured one the call fails, or the batch
    is folded into the sequence axis. *)
Lemma BertSelfAttention_other_batch :
  heads two_heads tenfold_weights (batch_of 3) (batch_of 3) (batch_of 3) = None ∧
  (λ '(Q, _, _), dims Q)
    <$> heads two_heads tenfold_weights (batch_of 4) (batch_of 4) (batch_of 4)
  = Some [2; 2; 2; 2].
Proof. vm_compute. split; reflexivity. Qed.
End BertSelfAttentionWitnesses.

(** ** BertOutput.call *)

Section BertOutputFacts.
Import Py BertOutput.
Context {tensor V : Type}.
Variables pooler pooler_dense nsp_prob : tensor → tensor.
Variables mlm_dense mlm_norm token_embeddings_dense mlm_bias mlm_act : tensor → tensor.

Abbreviation outputs_of :=
  (call_outputs (V := V) pooler pooler_dense nsp_prob
     mlm_dense mlm_norm token_embeddings_dense mlm_bias mlm_act).
Abbreviation call_of :=
  (call (V := V) pooler pooler_dense nsp_prob
     mlm_dense mlm_norm token_embeddings_dense mlm_bias mlm_act).

(** The list the body builds holds the pooled (and, with [with_nsp],
    classified) output when [with_pool] is set, followed by the MLM
    output when [with_mlm] is set. *)
Lemma call_outputs_spec (self : layer V) (inputs : tensor) :
  outputs_of self inputs =
    (if truthy (with_pool self)
     then [if truthy (with_nsp self)
           then nsp_prob (pooler_dense (pooler inputs))
           else pooler_dense (pooler inputs)]
     else []) ++
    (if truthy (with_mlm self)
     then [mlm_act (mlm_bias (token_embeddings_dense (mlm_norm (mlm_dense inputs))))]
     else []).
Proof.
  unfold call_outputs.
  destruct (truthy (with_pool self)), (truthy (with_mlm self)); reflexivity.
Qed.

(** C1 (as the code behaves): whatever the flags, [call] hands back None
    and not the list of task outputs it has built, although that list is
    not empty as soon as one of [with_pool] / [with_mlm] is set. *)
Theorem BertOutput_call_returns_None (self : layer V) (inputs : tensor) :
  call_of self inputs = ReturnNone ∧
  (truthy (with_pool self) || truthy (with_mlm self) = true →
   outputs_of self inputs ≠ [] ∧
   call_of self inputs ≠ Return (outputs_of self inputs)).
Proof.
  split; [reflexivity|].
  intros Hflag. split; [|discriminate].
  rewrite call_outputs_spec.
  destruct (truthy (with_pool self)), (truthy (with_mlm self));
    simpl in *; congruence.
Qed.
End BertOutputFacts.

(** ** The json module: reading back what was written *)

Section JsonStrings.
Import Py Json.

Lemma upto_In fuel : ∀ i x, (i ≤ x < i + N.of_nat fuel)%N → In x (upto fuel i).
Proof.
  induction fuel as [|f IH]; intros i x Hx; [lia|].
  simpl. destruct (decide (x = i)) as [->|]; [by left|].
  right. apply IH. lia.
Qed.

Lemma hex4_check : forallb hex4_ok (upto (N.to_nat 65536) 0) = true.
Proof. vm_compute. reflexivity. Qed.

(** Four hexadecimal digits are read back as the number they were written
    for. *)
Lemma decode_hex4 (n : N) :
  (n < 65536)%N →
  decode_uXXXX (hex_digit (n / 4096 mod 16)) (hex_digit (n / 256 mod 16))
               (hex_digit (n / 16 mod 16)) (hex_digit (n mod 16)) = Some n.
Proof.
  intros Hn. pose proof hex4_check as H.
  rewrite forallb_forall in H. specialize (H n).
  unfold hex4_ok, hex4 in H. eapply bool_decide_eq_true_1, H.
  apply upto_In. rewrite N2Nat.id. lia.
Qed.

Lemma land_shiftl_low (a x k : N) : (x < 2 ^ k)%N → N.land (N.shiftl a k) x = 0%N.
Proof.
  intros Hx. apply N.bits_inj. intros i. rewrite N.land_spec, N.bits_0.
  destruct (decide (i < k)%N) as [Hi|Hi].
  - by rewrite N.shiftl_spec_low.
  - assert (N.testbit x i = false) as ->; [|apply andb_false_r].
    apply N.testbit_false. rewrite N.div_small; [done|].
    eapply N.lt_le_trans; [exact Hx|]. apply N.pow_le_mono_r; lia.
Qed.

Lemma lor_shiftl_low (a x k : N) :
  (x < 2 ^ k)%N → N.lor (N.shiftl a k) x = (a * 2 ^ k + x)%N.
Proof.
  intros Hx.
  rewrite <- N.lxor_lor, <- N.add_nocarry_lxor, N.shiftl_mul_pow2;
    auto using land_shiftl_low.
Qed.

(** A code point beyond the basic plane is written as a high and a low
    surrogate, which are joined back into it. *)
Lemma surrogate_pair (c : N) :
  (65536 ≤ c < 1114112)%N →
  let n := (c - 65536)%N in
  let s1 := N.lor 55296 (N.land (N.shiftr n 10) 1023) in
  let s2 := N.lor 56320 (N.land n 1023) in
  (s1 < 65536 ∧ s2 < 65536)%N ∧
  is_high_surrogate s1 = true ∧ is_low_surrogate s2 = true ∧
  join_surrogates s1 s2 = c.
Proof.
  intros Hc n s1 s2.
  assert (n < 1048576)%N as Hn by (subst n; lia).
  assert (s1 = 55296 + n / 1024)%N as E1.
  { subst s1. change 1023%N with (N.ones 10).
    rewrite N.land_ones, N.shiftr_div_pow2.
    change 55296%N with (N.shiftl 54 10).
    rewrite lor_shiftl_low by (apply N.mod_lt; done).
    change (54 * 2 ^ 10)%N with 55296%N. change (2 ^ 10)%N with 1024%N.
    rewrite N.mod_small; [done|]. apply N.Div0.div_lt_upper_bound. lia. }
  assert (s2 = 56320 + n mod 1024)%N as E2.
  { subst s2. change 1023%N with (N.ones 10). rewrite N.land_ones.
    change 56320%N with (N.shiftl 55 10).
    rewrite lor_shiftl_low by (apply N.mod_lt; done). done. }
  assert (n / 1024 < 1024)%N as Hq by (apply N.Div0.div_lt_upper_bound; lia).
  assert (n mod 1024 < 1024)%N as Hr by (apply N.mod_lt; done).
  unfold is_high_surrogate, is_low_surrogate, join_surrogates.
  rewrite E1, E2.
  rewrite (N.add_comm 55296), (N.add_comm 56320), !N.add_sub.
  rewrite lor_shiftl_low by done. change (2 ^ 10)%N with 1024%N.
  pose proof (N.div_mod n 1024) as Hdm.
  revert Hq Hr Hdm. generalize (n / 1024)%N (n mod 1024)%N. intros q r Hq Hr Hdm.
  repeat split; try lia.
  - apply andb_true_intro; split; apply N.leb_le; lia.
  - apply andb_true_intro; split; apply N.leb_le; lia.
Qed.

Lemma scanstring_u (h1 h2 h3 h4 : N) (r2 : str) uni :
  decode_uXXXX h1 h2 h3 h4 = Some uni →
  is_high_surrogate uni = false →
  scanstring (92%N :: 117%N :: h1 :: h2 :: h3 :: h4 :: r2)
    = '(t, r4) ← scanstring r2; Some (uni :: t, r4).
Proof. intros Hd Hh. cbn [scanstring N.eqb Pos.eqb]. by rewrite Hd, Hh. Qed.

Lemma scanstring_u_pair (h1 h2 h3 h4 l1 l2 l3 l4 : N) (r3 : str) hi lo :
  decode_uXXXX h1 h2 h3 h4 = Some hi →
  decode_uXXXX l1 l2 l3 l4 = Some lo →
  is_high_surrogate hi = true →
  is_low_surrogate lo = true →
  scanstring (92%N :: 117%N :: h1 :: h2 :: h3 :: h4 ::
              92%N :: 117%N :: l1 :: l2 :: l3 :: l4 :: r3)
    = '(t, r4) ← scanstring r3; Some (join_surrogates hi lo :: t, r4).
Proof.
  intros Hd1 Hd2 Hh Hl. cbn [scanstring N.eqb Pos.eqb andb].
  by rewrite Hd1, Hh, Hd2, Hl.
Qed.

Lemma scanstring_escape_char (ea : bool) (c : N) (tail : str) :
  char_ok ea c →
  scanstring (escape_char ea c ++ tail)
    = '(t, r) ← scanstring tail; Some (c :: t, r).
Proof.
  intros Hok. unfold escape_char.
  destruct (N.eqb_spec c 34) as [->|H34]; [reflexivity|].
  destruct (N.eqb_spec c 92) as [->|H92]; [reflexivity|].
  destruct (N.eqb_spec c 10) as [->|H10]; [reflexivity|].
  destruct (N.eqb_spec c 13) as [->|H13]; [reflexivity|].
  destruct (N.eqb_spec c 9) as [->|H9]; [reflexivity|].
  destruct (N.eqb_spec c 8) as [->|H8]; [reflexivity|].
  destruct (N.eqb_spec c 12) as [->|H12]; [reflexivity|].
  assert (∀ n, (n < 65536)%N → is_high_surrogate n = false →
               scanstring (u_escape n ++ tail)
               = '(t, r) ← scanstring tail; Some (n :: t, r)) as Hu.
  { intros n Hn Hh. unfold u_escape, hex4. cbn [app].
    apply scanstring_u; [by apply decode_hex4|done]. }
  destruct (N.ltb_spec c 32) as [H32|H32].
  { apply Hu; [lia|]. unfold is_high_surrogate.
    apply andb_false_intro1, N.leb_gt. lia. }
  destruct (ea && (126 <? c)%N) eqn:Hea.
  - apply andb_true_iff in Hea as [-> _].
    specialize (Hok eq_refl). unfold scalar_value in Hok.
    apply andb_true_iff in Hok as [Hlt Hns]. apply N.ltb_lt in Hlt.
    apply negb_true_iff in Hns.
    destruct (N.ltb_spec c 65536) as [Hb|Hb].
    + apply Hu; [done|]. unfold is_high_surrogate.
      apply andb_false_iff in Hns as [Hns|Hns]; [by rewrite Hns|].
      apply andb_false_intro2. apply N.leb_gt in Hns. apply N.leb_gt. lia.
    + destruct (surrogate_pair c) as ((Hs1 & Hs2) & Hhi & Hlo & Hj); [lia|].
      cbv zeta in *.
      unfold u_escape, hex4. cbn [app].
      erewrite scanstring_u_pair;
        [|by apply decode_hex4|by apply decode_hex4|done|done].
      by rewrite Hj.
  - cbn [app scanstring].
    destruct (N.eqb_spec c 34); [done|]. destruct (N.eqb_spec c 92); [done|].
    destruct (N.ltb_spec c 32); [lia|]. done.
Qed.

(** A string literal is read back as the string it was written for. *)
Lemma scanstring_encode (ea : bool) (s rest : str) :
  Forall (char_ok ea) s →
  scanstring (flat_map (escape_char ea) s ++ 34%N :: rest) = Some (s, rest).
Proof.
  induction 1 as [|c s Hc Hs IH]; [reflexivity|].
  cbn [flat_map]. rewrite <- app_assoc, scanstring_escape_char by done.
  by rewrite IH.
Qed.
End JsonStrings.

Section JsonNumbers.
Import Py Json.

Lemma span_digits_app (l rest : str) :
  delimited rest →
  span_digits (l ++ rest) = (fst (span_digits l), snd (span_digits l) ++ rest).
Proof.
  intros Hr. induction l as [|c l IH]; cbn [app span_digits].
  - destruct rest as [|c r]; [done|]. cbn [span_digits].
    by destruct Hr as [-> | ->].
  - destruct (is_digit c); [|done].
    rewrite IH. by destruct (span_digits l).
Qed.

Lemma match_frac_app (s rest : str) :
  delimited rest →
  match_frac (s ++ rest) = (fst (match_frac s), snd (match_frac s) ++ rest).
Proof.
  intros Hr. destruct s as [|c r]; cbn [app].
  - destruct rest as [|c r]; [done|]. by destruct Hr as [-> | ->].
  - unfold match_frac. destruct (c =? 46)%N; [|done].
    rewrite span_digits_app by done.
    by destruct (span_digits r) as [[|d ds] r'].
Qed.

Lemma match_exp_app (s rest : str) :
  delimited rest →
  match_exp (s ++ rest) = (fst (match_exp s), snd (match_exp s) ++ rest).
Proof.
  intros Hr. destruct s as [|e r]; cbn [app].
  - destruct rest as [|c r]; [done|]. by destruct Hr as [-> | ->].
  - unfold match_exp. destruct ((e =? 101) || (e =? 69))%N; [|done].
    destruct r as [|c t]; cbn [app].
    + destruct rest as [|c t]; [done|].
      assert (((c =? 43) || (c =? 45))%N = false) as ->
        by (by destruct Hr as [-> | ->]).
      assert (span_digits (c :: t) = ([], c :: t)) as ->
        by (cbn; by destruct Hr as [-> | ->]).
      done.
    + destruct ((c =? 43) || (c =? 45))%N.
      * rewrite span_digits_app by done.
        by destruct (span_digits t) as [[|d ds] r'].
      * change (c :: t ++ rest) with ((c :: t) ++ rest).
        rewrite span_digits_app by done.
        by destruct (span_digits (c :: t)) as [[|d ds] r'].
Qed.

(** A number is matched in the same way when a delimiter follows it. *)
Lemma match_number_app (s rest : str) :
  delimited rest →
  match_number (s ++ rest) =
    (λ '(i, f, e, r), (i, f, e, r ++ rest)) <$> match_number s.
Proof.
  intros Hr. unfold match_number.
  assert (∀ sign s1,
    match s1 ++ rest with
    | [] => None
    | c :: r =>
        if is_digit c
        then let '(ds, r1) := if (c =? 48)%N then ([], r) else span_digits r in
             let '(frac, r2) := match_frac r1 in
             let '(exp, r3) := match_exp r2 in
             Some (sign ++ c :: ds, frac, exp, r3)
        else None
    end =
    (λ '(i, f, e, r), (i, f, e, r ++ rest)) <$>
    match s1 with
    | [] => None
    | c :: r =>
        if is_digit c
        then let '(ds, r1) := if (c =? 48)%N then ([], r) else span_digits r in
             let '(frac, r2) := match_frac r1 in
             let '(exp, r3) := match_exp r2 in
             Some (sign ++ c :: ds, frac, exp, r3)
        else None
    end) as Hcore.
  { intros sign [|c r]; cbn [app].
    - destruct rest as [|c r]; [done|]. by destruct Hr as [-> | ->].
    - destruct (is_digit c); [|done].
      destruct (c =? 48)%N.
      + rewrite match_frac_app by done. destruct (match_frac r) as [frac r2].
        cbn [fst snd]. rewrite match_exp_app by done.
        by destruct (match_exp r2).
      + rewrite span_digits_app by done. destruct (span_digits r) as [ds r1].
        cbn [fst snd]. rewrite match_frac_app by done.
        destruct (match_frac r1) as [frac r2].
        cbn [fst snd]. rewrite match_exp_app by done.
        by destruct (match_exp r2). }
  destruct s as [|c r]; cbn [app].
  - destruct rest as [|c r]; [done|]. by destruct Hr as [-> | ->].
  - destruct (c =? 45)%N.
    + apply Hcore.
    + apply (Hcore [] (c :: r)).
Qed.

Lemma digits_uint_digits (u : Decimal.uint) : digits_uint (uint_digits u) = u.
Proof. induction u; cbn; by f_equal. Qed.

Lemma uint_digits_all (u : Decimal.uint) : Forall (λ c, is_digit c = true) (uint_digits u).
Proof. induction u; cbn [uint_digits]; constructor; done. Qed.

Lemma span_digits_all (l : str) :
  Forall (λ c, is_digit c = true) l → span_digits l = (l, []).
Proof.
  induction 1 as [|c l Hc _ IH]; [done|]. cbn. by rewrite Hc, IH.
Qed.

Lemma nzhead_not_D0 (u u' : Decimal.uint) : Decimal.nzhead u ≠ Decimal.D0 u'.
Proof. induction u; cbn; done. Qed.

(** The decimal digits of a positive number do not start with a zero. *)
Lemma to_uint_head (p : positive) (u' : Decimal.uint) :
  Pos.to_uint p ≠ Decimal.D0 u'.
Proof.
  intros E.
  pose proof (DecimalPos.Unsigned.to_of (Pos.to_uint p)) as Hn.
  rewrite DecimalPos.Unsigned.of_to in Hn. cbn [N.to_uint] in Hn.
  rewrite E in Hn. rewrite DecimalFacts.unorm_D0 in Hn.
  unfold Decimal.unorm in Hn.
  destruct (Decimal.nzhead u') eqn:Hz; try discriminate Hn.
  - injection Hn as Hn. subst u'. by apply (Unsigned.to_uint_nonzero p).
  - exact (nzhead_not_D0 _ _ Hz).
Qed.

Lemma match_number_digits (p : positive) (sign : str) :
  sign = [] ∨ sign = [45%N] →
  match_number (sign ++ uint_digits (Pos.to_uint p))
    = Some (sign ++ uint_digits (Pos.to_uint p), [], [], []).
Proof.
  intros Hs.
  pose proof (to_uint_head p) as Hh.
  pose proof (Unsigned.to_uint_nonnil p) as Hnn.
  pose proof (uint_digits_all (Pos.to_uint p)) as Hall.
  assert (∃ c ds, uint_digits (Pos.to_uint p) = c :: ds ∧ (c =? 48)%N = false ∧
                  (c =? 45)%N = false)
    as (c & ds & E & Hc & Hm).
  { destruct (Pos.to_uint p); try done; cbn; eauto. by destruct (Hh u). }
  rewrite E in *. apply Forall_cons in Hall as [Hd Hds].
  unfold match_number.
  destruct Hs as [-> | ->]; cbn [app]; rewrite ?Hm; cbn [N.eqb Pos.eqb];
    rewrite Hd, Hc, (span_digits_all ds) by done; reflexivity.
Qed.

Lemma parse_int_str (z : Z) : parse_int (int_str z) = z.
Proof.
  assert (∀ p, Z.of_uint (digits_uint (uint_digits (Pos.to_uint p))) = Z.pos p) as Hp.
  { intros p. rewrite digits_uint_digits. unfold Z.of_uint.
    by rewrite DecimalPos.Unsigned.of_to. }
  destruct z as [|p|p]; cbn [int_str]; [done| |].
  - unfold parse_int.
    pose proof (uint_digits_all (Pos.to_uint p)) as Hall.
    destruct (uint_digits (Pos.to_uint p)) as [|c ds] eqn:E.
    + pose proof (Hp p) as H. by rewrite E in H.
    + apply Forall_cons in Hall as [Hd _].
      assert ((c =? 45)%N = false) as ->.
      { destruct (N.eqb_spec c 45) as [->|]; done. }
      rewrite <- E. apply Hp.
  - unfold parse_int. cbn [N.eqb Pos.eqb]. by rewrite Hp.
Qed.

Lemma match_number_int_str (z : Z) :
  match_number (int_str z) = Some (int_str z, [], [], []).
Proof.
  destruct z as [|p|p]; cbn [int_str]; [done| |].
  - apply (match_number_digits p []). by left.
  - apply (match_number_digits p [45%N]). by right.
Qed.

(** An int is read back from its decimal digits. *)
Lemma scan_number_int (z : Z) (rest : str) :
  delimited rest →
  scan_number (int_str z ++ rest) = Some (PyInt z, rest).
Proof.
  intros Hr. unfold scan_number.
  rewrite match_number_app, match_number_int_str by done. cbn.
  by rewrite parse_int_str.
Qed.

Lemma span_digits_parts (s : str) :
  s = fst (span_digits s) ++ snd (span_digits s) ∧
  Forall (λ c, is_digit c = true) (fst (span_digits s)) ∧
  match snd (span_digits s) with [] => True | c :: _ => is_digit c = false end.
Proof.
  induction s as [|c s (IH1 & IH2 & IH3)]; cbn [span_digits]; [done|].
  destruct (is_digit c) eqn:Hc; [|done].
  destruct (span_digits s) as [d r]. cbn [fst snd] in *.
  split; [by rewrite IH1 at 1|]. split; [by constructor|done].
Qed.

Lemma match_frac_parts (s : str) :
  s = fst (match_frac s) ++ snd (match_frac s) ∧ frac_shape (fst (match_frac s)).
Proof.
  unfold match_frac, frac_shape. destruct s as [|c r]; [by split; [|left]|].
  destruct (N.eqb_spec c 46) as [->|]; [|by split; [|left]].
  destruct (span_digits_parts r) as (E & Hd & _).
  destruct (span_digits r) as [[|d ds] r']; cbn [fst snd] in *.
  - by split; [|left].
  - split; [by rewrite E at 1|]. right. eauto.
Qed.

Lemma match_exp_parts (s : str) :
  s = fst (match_exp s) ++ snd (match_exp s) ∧ exp_shape (fst (match_exp s)).
Proof.
  unfold match_exp, exp_shape. destruct s as [|e r]; [by split; [|left]|].
  destruct ((e =? 101) || (e =? 69))%N eqn:He; [|by split; [|left]].
  destruct r as [|c t].
  - cbn. by split; [|left].
  - destruct ((c =? 43) || (c =? 45))%N eqn:Hc.
    + destruct (span_digits_parts t) as (E & Hd & _).
      destruct (span_digits t) as [[|d ds] r']; cbn [fst snd] in *.
      * by split; [|left].
      * split; [cbn; by rewrite E at 1|]. right.
        exists e, [c], d, ds. repeat split; eauto.
    + destruct (span_digits_parts (c :: t)) as (E & Hd & _).
      destruct (span_digits (c :: t)) as [[|d ds] r']; cbn [fst snd] in *.
      * by split; [|left].
      * split; [cbn; by rewrite E at 1|]. right.
        exists e, [], d, ds. repeat split; eauto.
Qed.

(** What [match_number] returns are the consecutive parts of the text. *)
Lemma match_number_parts (s i f e r : str) :
  match_number s = Some (i, f, e, r) →
  s = i ++ f ++ e ++ r ∧ frac_shape f ∧ exp_shape e ∧
  ∃ sign c ds, i = sign ++ c :: ds ∧ (sign = [] ∨ sign = [45%N]) ∧
               is_digit c = true ∧ Forall (λ c, is_digit c = true) ds ∧
               ((c =? 48)%N = true → ds = []).
Proof.
  unfold match_number.
  assert (∀ sign s1,
    match s1 with
    | [] => None
    | c :: r =>
        if is_digit c
        then let '(ds, r1) := if (c =? 48)%N then ([], r) else span_digits r in
             let '(frac, r2) := match_frac r1 in
             let '(exp, r3) := match_exp r2 in
             Some (sign ++ c :: ds, frac, exp, r3)
        else None
    end = Some (i, f, e, r) →
    sign ++ s1 = i ++ f ++ e ++ r ∧ frac_shape f ∧ exp_shape e ∧
    ∃ c ds, i = sign ++ c :: ds ∧ is_digit c = true ∧
            Forall (λ c, is_digit c = true) ds ∧ ((c =? 48)%N = true → ds = []))
    as Hcore.
  { intros sign [|c r0]; [done|]. destruct (is_digit c) eqn:Hc; [|done].
    destruct (if (c =? 48)%N then _ else _) as [ds r1] eqn:Hds.
    destruct (match_frac_parts r1) as [Ef Hf].
    destruct (match_frac r1) as [frac r2]. cbn [fst snd] in *.
    destruct (match_exp_parts r2) as [Ee He].
    destruct (match_exp r2) as [exp r3]. cbn [fst snd] in *.
    intros [= <- <- <- <-]. split; [|split; [done|split; [done|]]].
    - rewrite <- !app_assoc. cbn [app]. do 2 f_equal.
      rewrite <- Ee, <- Ef.
      destruct (c =? 48)%N.
      + by injection Hds as <- <-.
      + destruct (span_digits_parts r0) as (E & _). rewrite Hds in E. done.
    - exists c, ds. split; [done|]. split; [done|].
      destruct (c =? 48)%N.
      + injection Hds as <- <-. by split.
      + destruct (span_digits_parts r0) as (_ & Hd & _). rewrite Hds in Hd.
        by split. }
  destruct s as [|c0 r0]; [done|].
  destruct (N.eqb_spec c0 45) as [->|].
  - intros H. destruct (Hcore [45%N] r0 H) as (E & Hf & He & c & ds & -> & ? & ? & ?).
    split; [done|]. split; [done|]. split; [done|].
    exists [45%N], c, ds. eauto 10.
  - intros H. destruct (Hcore [] (c0 :: r0) H) as (E & Hf & He & c & ds & -> & ? & ? & ?).
    split; [done|]. split; [done|]. split; [done|].
    exists [], c, ds. eauto 10.
Qed.

(** A float is read back from its literal. *)
Lemma scan_number_float (lit rest : str) :
  float_literal lit = true →
  delimited rest →
  scan_number (lit ++ rest) = Some (PyFloat (FRepr lit), rest).
Proof.
  unfold float_literal, scan_number. intros Hl Hr.
  rewrite match_number_app by done.
  destruct (match_number lit) as [[[[i f] e] r]|] eqn:Hm; [|done].
  destruct (match_number_parts _ _ _ _ _ Hm) as (E & _).
  cbn. destruct f as [|cf f], e as [|ce e], r as [|cr r]; try done;
    rewrite E; cbn; rewrite ?app_nil_r; done.
Qed.

Lemma float_literal_head (lit : str) :
  float_literal lit = true →
  ∃ c r, lit = c :: r ∧ (c = 45%N ∨ is_digit c = true).
Proof.
  unfold float_literal. intros Hl.
  destruct (match_number lit) as [[[[i f] e] r]|] eqn:Hm; [|done].
  destruct (match_number_parts _ _ _ _ _ Hm)
    as (E & _ & _ & sign & c & ds & -> & [-> | ->] & Hc & _).
  - rewrite E. cbn. eauto.
  - rewrite E. cbn. eauto.
Qed.

Lemma int_str_head (z : Z) :
  ∃ c r, int_str z = c :: r ∧ (c = 45%N ∨ is_digit c = true).
Proof.
  destruct z as [|p|p]; cbn [int_str]; eauto.
  pose proof (uint_digits_all (Pos.to_uint p)) as Hall.
  pose proof (Unsigned.to_uint_nonnil p).
  destruct (Pos.to_uint p); try done; cbn in *;
    apply Forall_cons in Hall as [? _]; eauto.
Qed.
End JsonNumbers.

Section JsonSort.
Import Py Json.

Lemma insert_item_perm {A} (kv : str * A) l : Permutation (insert_item kv l) (kv :: l).
Proof.
  induction l as [|kv' l IH]; cbn; [done|].
  destruct (str_leb (fst kv) (fst kv')); [done|].
  rewrite IH. apply Permutation_swap.
Qed.

(** Sorting rearranges the entries and nothing else. *)
Lemma sort_items_perm {A} (d : list (str * A)) : Permutation (sort_items d) d.
Proof.
  induction d as [|kv d IH]; cbn; [done|].
  rewrite insert_item_perm. by constructor.
Qed.

Lemma insert_item_map {A B} (f : A → B) (kv : str * A) l :
  insert_item (fst kv, f (snd kv)) (map (λ kv, (fst kv, f (snd kv))) l)
  = map (λ kv, (fst kv, f (snd kv))) (insert_item kv l).
Proof.
  induction l as [|kv' l IH]; cbn; [done|].
  destruct (str_leb (fst kv) (fst kv')); cbn; [done|]. by rewrite IH.
Qed.

(** Sorting looks at the keys only. *)
Lemma sort_items_map {A B} (f : A → B) (d : list (str * A)) :
  sort_items (map (λ kv, (fst kv, f (snd kv))) d)
  = map (λ kv, (fst kv, f (snd kv))) (sort_items d).
Proof.
  induction d as [|kv d IH]; cbn; [done|].
  unfold sort_items in IH. rewrite IH. apply insert_item_map.
Qed.


Lemma str_leb_trans (a b c : str) :
  str_leb a b = true → str_leb b c = true → str_leb a c = true.
Proof.
  revert b c. induction a as [|x a IH]; intros [|y b] [|z c]; cbn; try done.
  destruct (N.ltb_spec x y), (N.eqb_spec x y), (N.ltb_spec y z), (N.eqb_spec y z),
           (N.ltb_spec x z), (N.eqb_spec x z); cbn; try done; try lia.
  apply IH.
Qed.


End JsonSort.

Section JsonRoundTrip.
Import Py Json.
Variables (ea : bool) (ind : nat) (sk : bool).

Abbreviation enc := (iterencode ea ind sk).
Abbreviation nl := (newline_indent ind).
Abbreviation sep := (item_separator ind).
Abbreviation text_of := (Json.text_of ea ind sk).
Abbreviation complete := (Json.complete ea ind sk).
Abbreviation more_items := (Json.more_items ea ind sk).
Abbreviation more_entries := (Json.more_entries ea ind sk).
Abbreviation ordered := (Json.ordered sk).

Lemma andthen_snd (a b : out) : snd (andthen a b) = snd a && snd b.
Proof. unfold andthen. by destruct a as [ca []], b as [cb []]. Qed.

Lemma andthen_concat (a b : out) :
  snd a = true → concat (fst (andthen a b)) = concat (fst a) ++ concat (fst b).
Proof. unfold andthen. intros ->. cbn. apply concat_app. Qed.

Lemma andthen_nil_l (b : out) : andthen ([], true) b = b.
Proof. by destruct b. Qed.

Lemma scalar_text_enc lvl v t : scalar_text ea v = Some t → enc lvl v = yield t.
Proof. destruct v as [|[]| | | | | | |]; cbn; try done; by intros [= ->]. Qed.

Lemma list_items_spec (lvl : nat) (l : list pyval) : ∀ first,
  let o := list_items ind lvl first
             (map (λ x, (scalar_text ea x, enc lvl x)) l) in
  snd o = forallb (complete lvl) l ∧
  (forallb (complete lvl) l = true →
   concat (fst o) =
     match l with
     | [] => []
     | x :: r => (if first then 91%N :: nl lvl else sep lvl)
                 ++ text_of lvl x ++ more_items lvl r
     end).
Proof.
  induction l as [|x r IH]; intros first; [done|].
  cbn [map list_items forallb]. cbv zeta.
  set (buf := if first then _ else _).
  destruct (IH false) as [IHs IHc]. cbv zeta in IHs, IHc.
  assert (match r with
          | [] => []
          | x :: r => sep lvl ++ text_of lvl x ++ more_items lvl r
          end = more_items lvl r) as Hm.
  { destruct r; [done|]. unfold more_items. cbn. by rewrite <- app_assoc. }
  rewrite Hm in IHc. clear Hm.
  rewrite andthen_snd, IHs.
  destruct (scalar_text ea x) as [t|] eqn:E.
  - assert (complete lvl x = true ∧ text_of lvl x = t) as [-> ->].
    { unfold complete, text_of. rewrite (scalar_text_enc _ _ _ E). cbn.
      by rewrite app_nil_r. }
    cbn [yield fst snd andb]. split; [done|]. intros Hr.
    rewrite andthen_concat by done. rewrite IHc by done.
    cbn. by rewrite !app_nil_r, <- app_assoc.
  - rewrite andthen_snd. cbn [yield fst snd andb]. fold (complete lvl x).
    split; [done|]. intros [Hx Hr]%andb_true_iff.
    rewrite andthen_concat by (by rewrite andthen_snd).
    rewrite andthen_concat by done. rewrite IHc by done.
    fold (text_of lvl x). cbn. by rewrite !app_nil_r, <- app_assoc.
Qed.

(** The text of a non-empty list. *)
Lemma text_of_list lvl (x : pyval) (r : list pyval) :
  forallb (complete (S lvl)) (x :: r) = true →
  complete lvl (PyList (x :: r)) = true ∧
  text_of lvl (PyList (x :: r)) =
    91%N :: nl (S lvl) ++ text_of (S lvl) x ++ more_items (S lvl) r
    ++ nl lvl ++ [93%N].
Proof.
  intros Hok. unfold complete, text_of.
  change (enc lvl (PyList (x :: r))) with
    (encode_list ind lvl (map (λ x, (scalar_text ea x, enc (S lvl) x)) (x :: r))).
  destruct (list_items_spec (S lvl) (x :: r) true) as [Hs Hc].
  cbv zeta in Hs, Hc. cbn [map] in *. unfold encode_list.
  rewrite andthen_snd, Hs, Hok. split; [done|].
  rewrite andthen_concat by (by rewrite Hs, Hok). rewrite Hc by done.
  cbn. rewrite ?app_nil_r, <- ?app_assoc. done.
Qed.

Lemma text_of_tuple lvl (l : list pyval) :
  enc lvl (PyTuple l) = enc lvl (PyList l).
Proof. done. Qed.

Lemma dict_items_spec (lvl : nat) (l : list (str * pyval)) : ∀ first,
  let o := dict_items ea ind lvl first
             (map (λ kv, (fst kv, enc lvl (snd kv))) l) in
  snd o = forallb (λ kv, complete lvl (snd kv)) l ∧
  (forallb (λ kv, complete lvl (snd kv)) l = true →
   concat (fst o) =
     match l with
     | [] => []
     | kv :: r => (if first then [] else sep lvl)
                  ++ encode_str ea (fst kv) ++ key_separator
                  ++ text_of lvl (snd kv) ++ more_entries lvl r
     end).
Proof.
  induction l as [|[k x] r IH]; intros first; [done|].
  destruct (IH false) as [IHs IHc]. cbv zeta in IHs, IHc.
  assert (match r with
          | [] => []
          | kv :: r => sep lvl ++ encode_str ea (fst kv) ++ key_separator
                       ++ text_of lvl (snd kv) ++ more_entries lvl r
          end = more_entries lvl r) as Hm.
  { destruct r; [done|]. unfold more_entries. cbn [flat_map].
    by rewrite <- !app_assoc. }
  rewrite Hm in IHc. clear Hm.
  cbn [map dict_items forallb fst snd]. cbv zeta.
  set (rest := dict_items ea ind lvl false _) in *.
  destruct first.
  - rewrite andthen_nil_l.
    rewrite !andthen_snd. cbn [yield fst snd andb]. rewrite IHs.
    fold (complete lvl x). split; [done|]. intros [Hx Hr]%andb_true_iff.
    rewrite andthen_concat by done.
    rewrite andthen_concat by done.
    rewrite andthen_concat by done.
    rewrite IHc by done. fold (text_of lvl x).
    cbn. by rewrite !app_nil_r.
  - rewrite !andthen_snd. cbn [yield fst snd andb]. rewrite IHs.
    fold (complete lvl x). split; [done|]. intros [Hx Hr]%andb_true_iff.
    rewrite andthen_concat by done.
    rewrite andthen_concat by done.
    rewrite andthen_concat by done.
    rewrite andthen_concat by done.
    rewrite IHc by done. fold (text_of lvl x).
    cbn. by rewrite !app_nil_r.
Qed.

Lemma ordered_perm {A} (d : list (str * A)) : Permutation (ordered d) d.
Proof. unfold ordered. destruct sk; [apply sort_items_perm|done]. Qed.

Lemma ordered_map {A B} (f : A → B) (d : list (str * A)) :
  ordered (map (λ kv, (fst kv, f (snd kv))) d)
  = map (λ kv, (fst kv, f (snd kv))) (ordered d).
Proof. unfold ordered. destruct sk; [apply sort_items_map|done]. Qed.

(** The text of a non-empty dict. *)
Lemma text_of_dict lvl (d : list (str * pyval)) :
  d ≠ [] →
  forallb (λ kv, complete (S lvl) (snd kv)) (ordered d) = true →
  complete lvl (PyDict d) = true ∧
  ∃ kv r, ordered d = kv :: r ∧
  text_of lvl (PyDict d) =
    123%N :: nl (S lvl) ++ encode_str ea (fst kv) ++ key_separator
    ++ text_of (S lvl) (snd kv) ++ more_entries (S lvl) r ++ nl lvl ++ [125%N].
Proof.
  intros Hne Hok. unfold complete, text_of.
  change (enc lvl (PyDict d)) with
    (encode_dict ea ind lvl
       (if sk then sort_items (map (λ kv, (fst kv, enc (S lvl) (snd kv))) d)
        else map (λ kv, (fst kv, enc (S lvl) (snd kv))) d)).
  fold (ordered (map (λ kv, (fst kv, enc (S lvl) (snd kv))) d)).
  rewrite ordered_map.
  destruct (ordered d) as [|kv r] eqn:E.
  { exfalso. apply Hne. apply Permutation_nil. rewrite <- E.
    apply ordered_perm. }
  destruct (dict_items_spec (S lvl) (kv :: r) true) as [Hs Hc].
  cbv zeta in Hs, Hc. cbn [map] in *. unfold encode_dict.
  rewrite !andthen_snd, Hs, Hok. split; [done|].
  exists kv, r. split; [done|].
  rewrite andthen_concat by done.
  rewrite andthen_concat by done.
  rewrite andthen_concat by (by rewrite Hs, Hok). rewrite Hc by done.
  cbn. rewrite ?app_nil_r.
  repeat first [rewrite <- app_assoc | progress cbn [app]]. done.
Qed.

Lemma complete_list lvl (l : list pyval) :
  complete lvl (PyList l) = forallb (complete (S lvl)) l.
Proof.
  unfold complete at 1.
  change (enc lvl (PyList l)) with
    (encode_list ind lvl (map (λ x, (scalar_text ea x, enc (S lvl) x)) l)).
  destruct l as [|x r]; [done|].
  destruct (list_items_spec (S lvl) (x :: r) true) as [Hs _].
  cbv zeta in Hs. unfold encode_list. cbn [map] in *.
  rewrite !andthen_snd, Hs. cbn [yield snd]. by rewrite !andb_true_r.
Qed.

Lemma complete_dict lvl (d : list (str * pyval)) :
  complete lvl (PyDict d) = forallb (λ kv, complete (S lvl) (snd kv)) (ordered d).
Proof.
  unfold complete at 1.
  change (enc lvl (PyDict d)) with
    (encode_dict ea ind lvl
       (if sk then sort_items (map (λ kv, (fst kv, enc (S lvl) (snd kv))) d)
        else map (λ kv, (fst kv, enc (S lvl) (snd kv))) d)).
  fold (ordered (map (λ kv, (fst kv, enc (S lvl) (snd kv))) d)).
  rewrite ordered_map.
  destruct (ordered d) as [|kv r] eqn:E; [done|].
  destruct (dict_items_spec (S lvl) (kv :: r) true) as [Hs _].
  cbv zeta in Hs. unfold encode_dict. cbn [map] in *.
  rewrite !andthen_snd, Hs. cbn [yield snd]. by rewrite !andb_true_r.
Qed.
End JsonRoundTrip.

Section JsonReadBack.
Import Py Json.
Variables (ea : bool) (ind : nat) (sk : bool).

Abbreviation enc := (iterencode ea ind sk).
Abbreviation nl := (newline_indent ind).
Abbreviation sep := (item_separator ind).
Abbreviation text := (text_of ea ind sk).
Abbreviation done_ := (complete ea ind sk).
Abbreviation writable := (Json.writable ea).
Abbreviation reads_back := (Json.reads_back ea ind sk).

Lemma skip_ws_spaces (n : nat) (r : str) :
  skip_ws (replicate n 32%N ++ r) = skip_ws r.
Proof. induction n as [|n IH]; [done|]. apply IH. Qed.

Lemma skip_ws_nl (lvl : nat) (r : str) : skip_ws (nl lvl ++ r) = skip_ws r.
Proof. unfold newline_indent. cbn. apply skip_ws_spaces. Qed.

Lemma value_start_not_ws c : value_start c = true → is_ws c = false.
Proof.
  unfold value_start, is_ws, is_digit. intros H.
  repeat match goal with
  | |- context [(c =? ?k)%N] => destruct (N.eqb_spec c k); [subst; by vm_compute in H|]
  end. done.
Qed.

Lemma value_start_skip c r : value_start c = true → skip_ws (c :: r) = c :: r.
Proof. intros H. cbn. by rewrite (value_start_not_ws c H). Qed.

(** A value that is a number is read by [scan_number]. *)
Lemma scan_once_number fuel c r :
  c = 45%N ∨ is_digit c = true →
  scan_once (S fuel) (c :: r) = scan_number (c :: r).
Proof.
  intros Hc. cbn [scan_once].
  assert ((c =? 34)%N = false ∧ (c =? 123)%N = false ∧ (c =? 91)%N = false ∧
          (c =? 110)%N = false ∧ (c =? 116)%N = false ∧ (c =? 102)%N = false)
    as (-> & -> & -> & H1 & H2 & H3).
  { unfold is_digit in Hc. repeat split; apply N.eqb_neq; intros ->;
      by destruct Hc as [Hc|Hc]. }
  assert (∀ a p, (a =? c)%N = false → strip_prefix (a :: p) (c :: r) = None) as Hs
    by (by intros a p; cbn; intros ->).
  change (txt "null") with (110%N :: txt "ull").
  change (txt "true") with (116%N :: txt "rue").
  change (txt "false") with (102%N :: txt "alse").
  rewrite !Hs; [done|by rewrite N.eqb_sym..].
Qed.

Lemma text_head (v : pyval) lvl :
  well_formed v = true → done_ lvl v = true →
  ∃ c r, text lvl v = c :: r ∧ value_start c = true.
Proof.
  intros Hwf Hok.
  destruct v as [|[]|z|[|[]|lit]|s|l|l|d|id].
  - by exists 110%N, (txt "ull").
  - by exists 116%N, (txt "rue").
  - by exists 102%N, (txt "alse").
  - destruct (int_str_head z) as (c & r & E & Hc).
    exists c, r. unfold text_of.
    cbn [iterencode scalar_text yield fst concat]. rewrite app_nil_r, E.
    split; [done|].
    unfold value_start. destruct Hc as [-> | ->]; [reflexivity|]. by rewrite !orb_true_r.
  - by exists 78%N, (txt "aN").
  - by exists 45%N, (txt "Infinity").
  - by exists 73%N, (txt "nfinity").
  - destruct (float_literal_head lit Hwf) as (c & r & E & Hc).
    exists c, r. unfold text_of.
    cbn [iterencode scalar_text yield fst concat float_str]. rewrite app_nil_r, E.
    split; [done|].
    unfold value_start. destruct Hc as [-> | ->]; [reflexivity|]. by rewrite !orb_true_r.
  - by eexists 34%N, _.
  - destruct l as [|x r]; [by exists 91%N, [93%N]|].
    rewrite complete_list in Hok.
    destruct (text_of_list ea ind sk lvl x r Hok) as [_ ->]. by eexists _, _.
  - destruct l as [|x r]; [by exists 91%N, [93%N]|].
    change (text lvl (PyTuple (x :: r))) with (text lvl (PyList (x :: r))).
    change (done_ lvl (PyTuple (x :: r))) with (done_ lvl (PyList (x :: r))) in Hok.
    rewrite complete_list in Hok.
    destruct (text_of_list ea ind sk lvl x r Hok) as [_ ->]. by eexists _, _.
  - destruct d as [|kv r].
    { exists 123%N, [125%N]. unfold text_of. cbn. by destruct sk. }
    rewrite complete_dict in Hok.
    destruct (text_of_dict ea ind sk lvl (kv :: r)) as (_ & kv' & r' & _ & ->);
      [done|done|]. by eexists _, _.
  - done.
Qed.

Lemma skip_ws_text (v : pyval) lvl (r : str) :
  well_formed v = true → done_ lvl v = true →
  skip_ws (text lvl v ++ r) = text lvl v ++ r.
Proof.
  intros Hwf Hok. destruct (text_head v lvl Hwf Hok) as (c & t & -> & Hc).
  by apply value_start_skip.
Qed.

Lemma writable_chars (s : str) :
  (ea = true → forallb scalar_value s = true) → Forall (char_ok ea) s.
Proof.
  intros H. apply Forall_forall. intros c Hc Hea.
  specialize (H Hea). rewrite forallb_forall in H. apply H.
  by apply list_elem_of_In.
Qed.

Lemma delimited_item lvl (l : list pyval) (tail : str) :
  delimited (more_items ea ind sk lvl l ++ nl (pred lvl) ++ tail).
Proof. destruct l; cbn; auto. Qed.

Lemma array_items_reads (lvl : nat) (rest : str) (r : list pyval) :
  ∀ (x : pyval) (fuel : nat),
  Forall reads_back (x :: r) →
  Forall (λ v, well_formed v = true ∧ writable v ∧ done_ (S lvl) v = true) (x :: r) →
  (list_sum (map (λ v, S (json_size v)) (x :: r)) ≤ fuel)%nat →
  array_items fuel
    (text (S lvl) x ++ more_items ea ind sk (S lvl) r ++ nl lvl ++ 93%N :: rest)
  = Some (map (as_json sk) (x :: r), rest).
Proof.
  induction r as [|y r IH]; intros x fuel Hrb Hok Hfuel.
  - apply Forall_cons in Hrb as [Hx _]. apply Forall_cons in Hok as [(Hw & Hs & Hd) _].
    destruct fuel as [|fuel]; [cbn in Hfuel; lia|].
    cbn [array_items more_items flat_map app].
    rewrite Hx; [|done|done|done|by cbn; auto|cbn in Hfuel; lia].
    cbn [mbind option_bind]. rewrite skip_ws_nl. done.
  - apply Forall_cons in Hrb as [Hx Hrb]. apply Forall_cons in Hok as [(Hw & Hs & Hd) Hok].
    destruct fuel as [|fuel]; [cbn in Hfuel; lia|].
    cbn [array_items more_items flat_map].
    rewrite <- !app_assoc.
    rewrite Hx; [|done|done|done|by cbn; auto|cbn in Hfuel; lia].
    cbn [mbind option_bind item_separator app skip_ws is_ws N.eqb Pos.eqb orb].
    rewrite skip_ws_nl.
    pose proof Hok as Hy. apply Forall_cons in Hy as [(Hwy & Hsy & Hdy) _].
    rewrite skip_ws_text by done.
    fold (more_items ea ind sk (S lvl) r).
    rewrite IH; [done|done|done|]. cbn in Hfuel |- *. lia.
Qed.

Lemma skip_ws_encode_str (k t : str) :
  skip_ws (encode_str ea k ++ t) = encode_str ea k ++ t.
Proof. done. Qed.

(** Reading one entry of an object. *)
Lemma object_items_entry (fuel lvl : nat) (k : str) (x : pyval) (vx : pyval) (T : str) :
  Forall (char_ok ea) k →
  well_formed x = true → done_ lvl x = true →
  scan_once fuel (text lvl x ++ T) = Some (vx, T) →
  object_items (S fuel) (encode_str ea k ++ key_separator ++ text lvl x ++ T) =
    match skip_ws T with
    | c' :: r4 =>
        if (c' =? 125)%N then Some ([(k, vx)], r4)
        else if (c' =? 44)%N then
          '(pairs, r5) ← object_items fuel (skip_ws r4);
          Some ((k, vx) :: pairs, r5)
        else None
    | [] => None
    end.
Proof.
  intros Hk Hw Hd Hx. unfold encode_str, key_separator.
  cbn [object_items app N.eqb Pos.eqb].
  rewrite <- app_assoc. cbn [app].
  rewrite scanstring_encode by done.
  cbn [mbind option_bind skip_ws is_ws N.eqb Pos.eqb orb].
  rewrite skip_ws_text by done. rewrite Hx. done.
Qed.

Lemma object_items_reads (lvl : nat) (rest : str) (r : list (str * pyval)) :
  ∀ (kv : str * pyval) (fuel : nat),
  Forall (λ kv, reads_back (snd kv)) (kv :: r) →
  Forall (λ kv, Forall (char_ok ea) (fst kv) ∧ well_formed (snd kv) = true ∧
                writable (snd kv) ∧ done_ (S lvl) (snd kv) = true) (kv :: r) →
  (list_sum (map (λ kv, S (json_size (snd kv))) (kv :: r)) ≤ fuel)%nat →
  object_items fuel
    (encode_str ea (fst kv) ++ key_separator ++ text (S lvl) (snd kv)
     ++ more_entries ea ind sk (S lvl) r ++ nl lvl ++ 125%N :: rest)
  = Some (map (λ kv, (fst kv, as_json sk (snd kv))) (kv :: r), rest).
Proof.
  induction r as [|kv' r IH]; intros [k x] fuel Hrb Hok Hfuel; cbn [fst snd] in *.
  - apply Forall_cons in Hrb as [Hx _].
    apply Forall_cons in Hok as [(Hk & Hw & Hs & Hd) _]. cbn [fst snd] in *.
    destruct fuel as [|fuel]; [cbn in Hfuel; lia|].
    cbn [more_entries flat_map app].
    rewrite (object_items_entry _ _ _ _ (as_json sk x)); [|done|done|done|].
    + rewrite skip_ws_nl. done.
    + apply Hx; [done|done|done|by cbn; auto|cbn in Hfuel; lia].
  - apply Forall_cons in Hrb as [Hx Hrb].
    apply Forall_cons in Hok as [(Hk & Hw & Hs & Hd) Hok]. cbn [fst snd] in *.
    destruct fuel as [|fuel]; [cbn in Hfuel; lia|].
    cbn [more_entries flat_map]. rewrite <- !app_assoc.
    rewrite (object_items_entry _ _ _ _ (as_json sk x)); [|done|done|done|].
    + cbn [item_separator app skip_ws is_ws N.eqb Pos.eqb orb].
      rewrite skip_ws_nl, skip_ws_encode_str.
      fold (more_entries ea ind sk (S lvl) r).
      rewrite IH; [done|done|done|]. cbn in Hfuel |- *. lia.
    + apply Hx; [done|done|done|by cbn; auto|cbn in Hfuel; lia].
Qed.

Lemma dict_update_fresh (pairs : list (str * pyval)) : ∀ d : dict,
  NoDup (dict_keys d ++ dict_keys pairs) → dict_update d pairs = d ++ pairs.
Proof.
  unfold dict_update, dict_keys.
  induction pairs as [|[k v] pairs IH]; intros d Hnd; cbn.
  - by rewrite app_nil_r.
  - assert (dict_set d k v = d ++ [(k, v)]) as ->.
    { apply NoDup_app in Hnd as (_ & Hdis & _).
      assert (k ∉ map fst d) as Hk by (intros Hin; eapply Hdis; [done|left]).
      clear -Hk. induction d as [|[k' v'] d IHd]; [done|]. cbn.
      apply not_elem_of_cons in Hk as [? ?].
      rewrite str_eqb_ne by done. by rewrite IHd. }
    rewrite IH; [by rewrite <- app_assoc|].
    rewrite map_app, <- app_assoc. done.
Qed.

Lemma list_sum_perm (l l' : list nat) : Permutation l l' → list_sum l = list_sum l'.
Proof. unfold list_sum. induction 1; cbn in *; lia. Qed.

(** Every value is read back from the text written for it. *)
Lemma reads_back_all (v : pyval) : reads_back v.
Proof.
  induction v as [|b|z|f|s|l IH|l IH|d IH|id] using pyval_nested_ind;
    intros lvl rest fuel Hwf Hstr Hok Hrest Hfuel;
    (destruct fuel as [|fuel]; [cbn in Hfuel; lia|]).
  - reflexivity.
  - by destruct b.
  - unfold text_of. cbn [iterencode scalar_text yield fst concat].
    rewrite app_nil_r.
    destruct (int_str_head z) as (c & r & E & Hc).
    rewrite E. cbn [app]. rewrite scan_once_number by done.
    change (c :: r ++ rest) with ((c :: r) ++ rest). rewrite <- E.
    by apply scan_number_int.
  - destruct f as [|[]|lit]; [reflexivity..|].
    unfold text_of. cbn [iterencode scalar_text yield fst concat float_str].
    rewrite app_nil_r.
    destruct (float_literal_head lit Hwf) as (c & r & E & Hc).
    rewrite E. cbn [app]. rewrite scan_once_number by done.
    change (c :: r ++ rest) with ((c :: r) ++ rest). rewrite <- E.
    by apply scan_number_float.
  - unfold text_of. cbn [iterencode scalar_text yield fst concat].
    rewrite app_nil_r. unfold encode_str.
    cbn [app scan_once N.eqb Pos.eqb]. rewrite <- app_assoc. cbn [app].
    rewrite scanstring_encode; [done|]. by apply writable_chars.
  - destruct l as [|x r]; [reflexivity|].
    rewrite complete_list in Hok.
    destruct (text_of_list ea ind sk lvl x r Hok) as [_ ->].
    cbn [app scan_once N.eqb Pos.eqb]. rewrite <- !app_assoc.
    rewrite skip_ws_nl.
    assert (Forall (λ v, well_formed v = true ∧ writable v ∧
                         done_ (S lvl) v = true) (x :: r)) as Hall.
    { apply Forall_forall. intros y Hy. apply list_elem_of_In in Hy.
      cbn [well_formed] in Hwf. rewrite forallb_forall in Hwf, Hok.
      split; [by apply Hwf|]. split; [|by apply Hok].
      intros Hea. specialize (Hstr Hea). cbn [all_strings] in Hstr.
      rewrite forallb_forall in Hstr. by apply Hstr. }
    pose proof Hall as Hx. apply Forall_cons in Hx as [(Hwx & _ & Hdx) _].
    rewrite skip_ws_text by done.
    destruct (text_head x (S lvl) Hwx Hdx) as (c & t & Et & Hc).
    rewrite Et. cbn [app].
    assert ((c =? 93)%N = false) as ->.
    { apply N.eqb_neq. intros ->. done. }
    change (c :: t ++ ?u) with ((c :: t) ++ u). rewrite <- Et.
    cbn [app]. rewrite array_items_reads; [done|done|done|].
    cbn in Hfuel |- *. lia.
  - destruct l as [|x r]; [reflexivity|].
    change (text lvl (PyTuple (x :: r))) with (text lvl (PyList (x :: r))).
    change (done_ lvl (PyTuple (x :: r))) with (done_ lvl (PyList (x :: r))) in Hok.
    rewrite complete_list in Hok.
    destruct (text_of_list ea ind sk lvl x r Hok) as [_ ->].
    cbn [app scan_once N.eqb Pos.eqb]. rewrite <- !app_assoc.
    rewrite skip_ws_nl.
    assert (Forall (λ v, well_formed v = true ∧ writable v ∧
                         done_ (S lvl) v = true) (x :: r)) as Hall.
    { apply Forall_forall. intros y Hy. apply list_elem_of_In in Hy.
      cbn [well_formed] in Hwf. rewrite forallb_forall in Hwf, Hok.
      split; [by apply Hwf|]. split; [|by apply Hok].
      intros Hea. specialize (Hstr Hea). cbn [all_strings] in Hstr.
      rewrite forallb_forall in Hstr. by apply Hstr. }
    pose proof Hall as Hx. apply Forall_cons in Hx as [(Hwx & _ & Hdx) _].
    rewrite skip_ws_text by done.
    destruct (text_head x (S lvl) Hwx Hdx) as (c & t & Et & Hc).
    rewrite Et. cbn [app].
    assert ((c =? 93)%N = false) as ->.
    { apply N.eqb_neq. intros ->. done. }
    change (c :: t ++ ?u) with ((c :: t) ++ u). rewrite <- Et.
    cbn [app]. rewrite array_items_reads; [done|done|done|].
    cbn in Hfuel |- *. lia.
  - destruct d as [|kv0 r0].
    { unfold text_of. cbn. by destruct sk. }
    set (d := kv0 :: r0) in *.
    rewrite complete_dict in Hok.
    destruct (text_of_dict ea ind sk lvl d) as (_ & kv & r & Eo & ->); [done|done|].
    pose proof (ordered_perm sk d) as Hperm.
    cbn [well_formed] in Hwf. apply andb_true_iff in Hwf as [Hnd Hwf].
    apply bool_decide_eq_true in Hnd.
    assert (Forall (λ kv, Forall (char_ok ea) (fst kv) ∧ well_formed (snd kv) = true ∧
                          writable (snd kv) ∧ done_ (S lvl) (snd kv) = true)
                   (kv :: r)) as Hall.
    { rewrite <- Eo. apply Forall_forall. intros y Hy.
      rewrite forallb_forall in Hwf, Hok.
      assert (In y d) as Hyd.
      { apply list_elem_of_In. rewrite <- Hperm. done. }
      assert (ea = true → forallb scalar_value (fst y) = true ∧
                          all_strings (forallb scalar_value) (snd y) = true) as Hy2.
      { intros Hea. specialize (Hstr Hea). cbn [all_strings] in Hstr.
        rewrite forallb_forall in Hstr. apply andb_true_iff. by apply Hstr. }
      split; [apply writable_chars; intros Hea; by apply Hy2|].
      split; [by apply Hwf|]. split; [intros Hea; by apply Hy2|].
      apply Hok. by apply list_elem_of_In. }
    assert (Forall (λ kv, reads_back (snd kv)) (kv :: r)) as Hrb.
    { rewrite <- Eo, Hperm. done. }
    cbn [app scan_once N.eqb Pos.eqb]. rewrite <- !app_assoc.
    rewrite skip_ws_nl, skip_ws_encode_str.
    assert (∀ t, encode_str ea (fst kv) ++ t
                 = 34%N :: (flat_map (escape_char ea) (fst kv) ++ 34%N :: t)) as Ehead.
    { intros t. unfold encode_str. cbn [app]. by rewrite <- app_assoc. }
    rewrite Ehead. cbn [N.eqb Pos.eqb]. rewrite <- Ehead. cbn [app].
    rewrite object_items_reads; [|done|done|].
    + cbn [mbind option_bind]. rewrite <- Eo.
      rewrite dict_update_fresh.
      * cbn [app as_json]. do 3 f_equal. fold (ordered sk (map (λ kv, (fst kv, as_json sk (snd kv))) d)).
        by rewrite ordered_map.
      * cbn [dict_keys map app]. unfold dict_keys. rewrite map_map. cbn [fst].
        rewrite Hperm. done.
    + rewrite <- Eo.
      change (json_size (PyDict d))
        with (S (list_sum (map (λ kv, S (json_size (snd kv))) d))) in Hfuel.
      rewrite (list_sum_perm _ (map (λ kv, S (json_size (snd kv))) d)).
      * lia.
      * by apply Permutation_map.
  - done.
Qed.
End JsonReadBack.

(** ** What the decoder returns *)

Section JsonDecoded.
Import Py Json.

Lemma span_digits_stop (ds X : str) :
  Forall (λ c, is_digit c = true) ds →
  match X with [] => True | c :: _ => is_digit c = false end →
  span_digits (ds ++ X) = (ds, X).
Proof.
  intros Hd HX. induction Hd as [|c ds Hc _ IH]; cbn [app span_digits].
  - destruct X as [|c r]; [done|]. cbn. by rewrite HX.
  - by rewrite Hc, IH.
Qed.

(** The text that [match_number] matched is matched again, in the same
    parts and to its end. *)
Lemma match_number_again (s i f e r : str) :
  match_number s = Some (i, f, e, r) →
  match_number (i ++ f ++ e) = Some (i, f, e, []).
Proof.
  intros Hm.
  destruct (match_number_parts _ _ _ _ _ Hm)
    as (_ & Hf & He & sign & c & ds & -> & Hsign & Hc & Hds & H0).
  assert (match e with [] => True | c :: _ => is_digit c = false end) as Hehead.
  { destruct He as [->|(ch & sg & d & ds' & -> & Hch & _)]; [done|].
    unfold is_digit.
    apply orb_true_iff in Hch as [->%N.eqb_eq | ->%N.eqb_eq]; done. }
  assert (match f ++ e with [] => True | c :: _ => is_digit c = false end) as Hfhead.
  { destruct Hf as [->|(d & ds' & -> & _)]; [done|done]. }
  assert (match_exp e = (e, [])) as Hexp.
  { destruct He as [->|(ch & sg & d & ds' & -> & Hch & Hsg & Hdd)]; [done|].
    unfold match_exp. rewrite Hch.
    destruct Hsg as [->|(c' & -> & Hc')]; cbn [app].
    - pose proof Hdd as Hd. apply Forall_cons in Hd as [Hd _].
      assert (((d =? 43) || (d =? 45))%N = false) as ->.
      { unfold is_digit in Hd.
        destruct (N.eqb_spec d 43) as [->|]; [done|].
        destruct (N.eqb_spec d 45) as [->|]; done. }
      rewrite (span_digits_all (d :: ds')) by done. done.
    - rewrite Hc'. rewrite (span_digits_all (d :: ds')) by done. done. }
  assert (match_frac (f ++ e) = (f, e)) as Hfrac.
  { destruct Hf as [->|(d & ds' & -> & Hdd)].
    - cbn [app]. unfold match_frac. destruct e as [|ch e']; [done|].
      destruct He as [?|(ch' & sg & d & ds' & [= -> ?] & Hch & _)]; [done|].
      apply orb_true_iff in Hch as [->%N.eqb_eq | ->%N.eqb_eq]; done.
    - cbn [app]. unfold match_frac. cbn [N.eqb Pos.eqb].
      change (d :: ds' ++ e) with ((d :: ds') ++ e).
      rewrite span_digits_stop by done. done. }
  assert (match_number_core :
    (let '(ds0, r1) := if (c =? 48)%N then ([], ds ++ f ++ e)
                       else span_digits (ds ++ f ++ e) in
     let '(frac, r2) := match_frac r1 in
     let '(exp, r3) := match_exp r2 in
     Some (sign ++ c :: ds0, frac, exp, r3)) = Some (sign ++ c :: ds, f, e, [])).
  { destruct (c =? 48)%N eqn:E0.
    - rewrite (H0 eq_refl). cbn [app]. by rewrite Hfrac, Hexp.
    - rewrite span_digits_stop by done. by rewrite Hfrac, Hexp. }
  unfold match_number.
  destruct Hsign as [-> | ->]; cbn [app N.eqb Pos.eqb].
  - assert ((c =? 45)%N = false) as ->.
    { unfold is_digit in Hc. destruct (N.eqb_spec c 45) as [->|]; done. }
    rewrite <- ?app_assoc. cbn [app]. rewrite Hc. exact match_number_core.
  - rewrite <- ?app_assoc. cbn [app]. rewrite Hc. exact match_number_core.
Qed.

Lemma scan_number_decoded (s r : str) (v : pyval) :
  scan_number s = Some (v, r) → decoded v.
Proof.
  unfold scan_number.
  destruct (match_number s) as [[[[i f] e] r']|] eqn:Hm.
  - pose proof (match_number_again _ _ _ _ _ Hm) as Ha.
    destruct f as [|cf f], e as [|ce e]; intros [= <- <-]; split; try done;
      cbn [well_formed]; unfold float_literal; cbn [app] in Ha |- *;
      by rewrite Ha.
  - unfold scan_constant.
    repeat (destruct (strip_prefix _ s); [by intros [= <- <-]|]). done.
Qed.

Lemma decoded_list (l : list pyval) : Forall decoded l → decoded (PyList l).
Proof.
  intros H. split; cbn [well_formed as_json].
  - apply forallb_forall. intros x Hx.
    rewrite Forall_forall in H. apply H. by apply list_elem_of_In.
  - f_equal. induction H as [|x l [_ Hx] _ IH]; cbn; [done|]. by rewrite Hx, IH.
Qed.

Lemma decoded_dict (d : list (str * pyval)) :
  NoDup (dict_keys d) → Forall (λ kv, decoded (snd kv)) d → decoded (PyDict d).
Proof.
  intros Hnd H. split; cbn [well_formed as_json].
  - apply andb_true_iff. split; [by apply bool_decide_eq_true|].
    apply forallb_forall. intros x Hx.
    rewrite Forall_forall in H. apply H. by apply list_elem_of_In.
  - f_equal. induction H as [|[k x] l [_ Hx] _ IH]; cbn; [done|].
    cbn in Hx. rewrite Hx. f_equal. apply IH.
    unfold dict_keys in *. cbn in Hnd. by apply NoDup_cons in Hnd as [_ ?].
Qed.

Lemma dict_set_Forall (P : str * pyval → Prop) (d : dict) k v :
  Forall P d → (∀ k', P (k', v)) → Forall P (dict_set d k v).
Proof.
  intros Hd Hv. induction Hd as [|[k' v'] d Hx Hd IH]; cbn.
  - by constructor.
  - destruct (str_eqb k' k); by constructor.
Qed.

Lemma dict_update_Forall (P : str * pyval → Prop) (pairs : list (str * pyval)) :
  ∀ d : dict,
  (∀ k k' v, P (k, v) → P (k', v)) →
  Forall P d → Forall P pairs → Forall P (dict_update d pairs).
Proof.
  unfold dict_update. induction pairs as [|[k v] pairs IH]; intros d Hk Hd Hp; [done|].
  apply Forall_cons in Hp as [Hkv Hp]. cbn. apply IH; [done| |done].
  apply dict_set_Forall; [done|]. intros k'. by eapply Hk.
Qed.

(** Every value the decoder returns is well formed and free of tuples. *)
Lemma scan_once_decoded (fuel : nat) :
  (∀ s v r, scan_once fuel s = Some (v, r) → decoded v) ∧
  (∀ s l r, array_items fuel s = Some (l, r) → Forall decoded l) ∧
  (∀ s l r, object_items fuel s = Some (l, r) → Forall (λ kv, decoded (snd kv)) l).
Proof.
  induction fuel as [|fuel (IHv & IHa & IHo)]; [by split; [|split]|].
  split; [|split].
  - intros s v r. cbn [scan_once]. destruct s as [|c s]; [done|].
    destruct (c =? 34)%N.
    { destruct (scanstring s) as [[t r']|]; [|done]. by intros [= <- <-]. }
    destruct (c =? 123)%N.
    { destruct (skip_ws s) as [|c1 r1]; [done|].
      destruct (c1 =? 125)%N; [by intros [= <- <-]|].
      destruct (object_items fuel (c1 :: r1)) as [[pairs r2]|] eqn:Ho; [|done].
      intros [= <- <-]. apply decoded_dict.
      - by apply dict_update_NoDup, NoDup_nil.
      - apply dict_update_Forall; [done|done|by eapply IHo]. }
    destruct (c =? 91)%N.
    { destruct (skip_ws s) as [|c1 r1]; [done|].
      destruct (c1 =? 93)%N; [by intros [= <- <-]|].
      destruct (array_items fuel (c1 :: r1)) as [[values r2]|] eqn:Ha; [|done].
      intros [= <- <-]. apply decoded_list. by eapply IHa. }
    destruct (strip_prefix (txt "null") (c :: s)); [by intros [= <- <-]|].
    destruct (strip_prefix (txt "true") (c :: s)); [by intros [= <- <-]|].
    destruct (strip_prefix (txt "false") (c :: s)); [by intros [= <- <-]|].
    apply scan_number_decoded.
  - intros s l r. cbn [array_items].
    destruct (scan_once fuel s) as [[value r1]|] eqn:Hv; [|done]. cbn.
    destruct (skip_ws r1) as [|c r2]; [done|].
    destruct (c =? 93)%N.
    { intros [= <- <-]. constructor; [by eapply IHv|done]. }
    destruct (c =? 44)%N; [|done].
    destruct (array_items fuel (skip_ws r2)) as [[values r3]|] eqn:Ha; [|done].
    intros [= <- <-]. constructor; [by eapply IHv|by eapply IHa].
  - intros s l r. cbn [object_items]. destruct s as [|q s]; [done|].
    destruct (q =? 34)%N; [|done].
    destruct (scanstring s) as [[key r1]|]; [|done]. cbn.
    destruct (skip_ws r1) as [|c r2]; [done|].
    destruct (c =? 58)%N; [|done].
    destruct (scan_once fuel (skip_ws r2)) as [[value r3]|] eqn:Hv; [|done]. cbn.
    destruct (skip_ws r3) as [|c' r4]; [done|].
    destruct (c' =? 125)%N.
    { intros [= <- <-]. constructor; [by eapply IHv|done]. }
    destruct (c' =? 44)%N; [|done].
    destruct (object_items fuel (skip_ws r4)) as [[pairs r5]|] eqn:Ho; [|done].
    intros [= <- <-]. constructor; [by eapply IHv|by eapply IHo].
Qed.

Lemma loads_decoded (s : str) (v : pyval) : loads s = Some v → decoded v.
Proof.
  unfold loads, decode.
  assert (∀ s', ('(obj, r) ← scan_once (S (length s)) s';
                 match skip_ws r with [] => Some obj | _ => None end) = Some v →
                decoded v) as H.
  { intros s'. destruct (scan_once _ s') as [[obj r]|] eqn:E; [|done]. cbn.
    destruct (skip_ws r); [|done]. intros [= <-].
    by eapply (scan_once_decoded (S (length s))). }
  destruct s as [|c s']; [apply H|].
  destruct (c =? 65279)%N; [done|apply H].
Qed.
End JsonDecoded.

Section JsonLoadsDumps.
Import Py Json.
Variables (ea : bool) (ind : nat) (sk : bool).

Abbreviation text := (text_of ea ind sk).
Abbreviation done_ := (complete ea ind sk).

(** The text of a value is at least as long as the fuel that reading it
    takes. *)
Lemma json_size_text (v : pyval) :
  ∀ lvl, well_formed v = true → done_ lvl v = true →
         (json_size v ≤ length (text lvl v))%nat.
Proof.
  induction v as [|b|z|f|s|l IH|l IH|d IH|id] using pyval_nested_ind;
    intros lvl Hwf Hok;
    try (destruct (text_head ea ind sk _ lvl Hwf Hok) as (c & r & -> & _);
         cbn; lia).
  - destruct l as [|x r]; [cbn; lia|].
    rewrite complete_list in Hok.
    destruct (text_of_list ea ind sk lvl x r Hok) as [_ ->].
    cbn [well_formed] in Hwf.
    assert (∀ l, Forall (λ v, ∀ lvl, well_formed v = true → done_ lvl v = true →
                              (json_size v ≤ length (text lvl v))%nat) l →
                 forallb well_formed l = true →
                 forallb (done_ (S lvl)) l = true →
                 (list_sum (map (λ x, S (json_size x)) l)
                  ≤ length (more_items ea ind sk (S lvl) l))%nat) as Hmore.
    { clear. induction 1 as [|y l Hy _ IHl]; [done|].
      cbn [forallb map more_items flat_map].
      intros [? ?]%andb_true_iff [? ?]%andb_true_iff.
      fold (more_items ea ind sk (S lvl) l).
      rewrite !length_app. unfold item_separator.
      cbn [list_sum fold_right length].
      specialize (Hy (S lvl) ltac:(done) ltac:(done)).
      specialize (IHl ltac:(done) ltac:(done)).
      unfold list_sum in IHl. lia. }
    apply Forall_cons in IH as [IHx IHr].
    cbn [forallb] in Hwf, Hok.
    apply andb_true_iff in Hwf as [? ?]. apply andb_true_iff in Hok as [? ?].
    specialize (IHx (S lvl) ltac:(done) ltac:(done)).
    specialize (Hmore r IHr ltac:(done) ltac:(done)).
    cbn [json_size map list_sum fold_right length].
    rewrite !length_app. cbn [length]. unfold list_sum in Hmore. lia.
  - destruct l as [|x r]; [cbn; lia|].
    change (text lvl (PyTuple (x :: r))) with (text lvl (PyList (x :: r))).
    change (done_ lvl (PyTuple (x :: r))) with (done_ lvl (PyList (x :: r))) in Hok.
    rewrite complete_list in Hok.
    destruct (text_of_list ea ind sk lvl x r Hok) as [_ ->].
    cbn [well_formed] in Hwf.
    assert (∀ l, Forall (λ v, ∀ lvl, well_formed v = true → done_ lvl v = true →
                              (json_size v ≤ length (text lvl v))%nat) l →
                 forallb well_formed l = true →
                 forallb (done_ (S lvl)) l = true →
                 (list_sum (map (λ x, S (json_size x)) l)
                  ≤ length (more_items ea ind sk (S lvl) l))%nat) as Hmore.
    { clear. induction 1 as [|y l Hy _ IHl]; [done|].
      cbn [forallb map more_items flat_map].
      intros [? ?]%andb_true_iff [? ?]%andb_true_iff.
      fold (more_items ea ind sk (S lvl) l).
      rewrite !length_app. unfold item_separator.
      cbn [list_sum fold_right length].
      specialize (Hy (S lvl) ltac:(done) ltac:(done)).
      specialize (IHl ltac:(done) ltac:(done)).
      unfold list_sum in IHl. lia. }
    apply Forall_cons in IH as [IHx IHr].
    cbn [forallb] in Hwf, Hok.
    apply andb_true_iff in Hwf as [? ?]. apply andb_true_iff in Hok as [? ?].
    specialize (IHx (S lvl) ltac:(done) ltac:(done)).
    specialize (Hmore r IHr ltac:(done) ltac:(done)).
    cbn [json_size map list_sum fold_right length].
    rewrite !length_app. cbn [length]. unfold list_sum in Hmore. lia.
  - destruct d as [|kv0 r0].
    { unfold text_of. cbn. destruct sk; cbn; lia. }
    set (d := kv0 :: r0) in *.
    rewrite complete_dict in Hok.
    destruct (text_of_dict ea ind sk lvl d) as (_ & kv & r & Eo & ->); [done|done|].
    pose proof (ordered_perm sk d) as Hperm.
    cbn [well_formed] in Hwf. apply andb_true_iff in Hwf as [_ Hwf].
    assert (∀ l, Forall (λ kv, ∀ lvl, well_formed (snd kv) = true →
                               done_ lvl (snd kv) = true →
                               (json_size (snd kv) ≤ length (text lvl (snd kv)))%nat) l →
                 forallb (λ kv, well_formed (snd kv)) l = true →
                 forallb (λ kv, done_ (S lvl) (snd kv)) l = true →
                 (list_sum (map (λ kv, S (json_size (snd kv))) l)
                  ≤ length (more_entries ea ind sk (S lvl) l))%nat) as Hmore.
    { clear. induction 1 as [|y l Hy _ IHl]; [done|].
      cbn [forallb map more_entries flat_map].
      intros [? ?]%andb_true_iff [? ?]%andb_true_iff.
      fold (more_entries ea ind sk (S lvl) l).
      rewrite !length_app. unfold item_separator.
      cbn [list_sum fold_right length].
      specialize (Hy (S lvl) ltac:(done) ltac:(done)).
      specialize (IHl ltac:(done) ltac:(done)).
      unfold list_sum in IHl. lia. }
    assert (forallb (λ kv, well_formed (snd kv)) (kv :: r) = true) as Hwf'.
    { rewrite <- Eo. apply forallb_forall. intros y Hy.
      rewrite forallb_forall in Hwf. apply Hwf.
      apply list_elem_of_In. rewrite <- Hperm. by apply list_elem_of_In. }
    assert (Forall (λ kv, ∀ lvl, well_formed (snd kv) = true →
                          done_ lvl (snd kv) = true →
                          (json_size (snd kv) ≤ length (text lvl (snd kv)))%nat)
                   (kv :: r)) as IH'.
    { rewrite <- Eo, Hperm. done. }
    rewrite Eo in Hok.
    apply Forall_cons in IH' as [IHx IHr].
    cbn [forallb] in Hwf', Hok.
    apply andb_true_iff in Hwf' as [? ?]. apply andb_true_iff in Hok as [? ?].
    specialize (IHx (S lvl) ltac:(done) ltac:(done)).
    specialize (Hmore r IHr ltac:(done) ltac:(done)).
    change (json_size (PyDict d))
      with (S (list_sum (map (λ kv, S (json_size (snd kv))) d))).
    rewrite (list_sum_perm _ (map (λ kv, S (json_size (snd kv))) (kv :: r))).
    2: { apply Permutation_map. by rewrite <- Eo, Hperm. }
    cbn [map list_sum fold_right length].
    rewrite !length_app. cbn [length]. unfold list_sum in Hmore. lia.
Qed.

(** What was written by [dumps] is read by [loads] as the value that
    [as_json] gives. *)
Lemma loads_text (v : pyval) :
  well_formed v = true → writable ea v → done_ 0 v = true →
  loads (text 0 v) = Some (as_json sk v).
Proof.
  intros Hwf Hstr Hok.
  pose proof (json_size_text v 0%nat Hwf Hok) as Hsize.
  pose proof (reads_back_all ea ind sk v 0%nat [] (S (length (text 0 v)))
                Hwf Hstr Hok I ltac:(lia)) as Hread.
  rewrite app_nil_r in Hread.
  destruct (text_head ea ind sk v 0%nat Hwf Hok) as (c & r & E & Hc).
  unfold loads, decode. rewrite E in *.
  assert ((c =? 65279)%N = false) as ->.
  { apply N.eqb_neq. intros ->. done. }
  rewrite value_start_skip by done. by rewrite Hread.
Qed.

End JsonLoadsDumps.

(** ** JSON-native values *)

Section JsonNative.
Import Py Json.




Lemma dict_get_map (h : pyval → pyval) (d : dict) (k : str) :
  dict_get (map (λ kv, (fst kv, h (snd kv))) d) k = h <$> dict_get d k.
Proof.
  induction d as [|[k' x] d IH]; [done|]. cbn.
  destruct (str_eqb k' k); [done|apply IH].
Qed.



(** Looking a key up after [update]: the pairs win over what was there. *)
Lemma dict_get_update (pairs : list (str * pyval)) : ∀ (d : dict) (k : str),
  NoDup (dict_keys pairs) →
  dict_get (dict_update d pairs) k =
    match dict_get pairs k with
    | Some v => Some v
    | None => dict_get d k
    end.
Proof.
  unfold dict_update, dict_keys.
  induction pairs as [|[k1 v1] pairs IH]; intros d k Hnd; [done|].
  cbn in Hnd. apply NoDup_cons in Hnd as [Hk1 Hnd].
  cbn [fold_left fst snd dict_get]. rewrite IH by done.
  destruct (str_eqb k1 k) eqn:E.
  - apply str_eqb_eq in E as ->.
    assert (dict_get pairs k = None) as -> by (by apply dict_get_None).
    apply dict_get_set_eq.
  - destruct (dict_get pairs k); [done|].
    apply dict_get_set_ne. intros ->. by rewrite str_eqb_refl in E.
Qed.

End JsonNative.

(** ** BertConfig *)

Section BertConfigFacts.
Import Py Json BertConfig.



End BertConfigFacts.

(** ** get_logger *)

Section LoggerFacts.
Import Py Tools.

(** C8, as amended.  For every non-empty [file_path] without the suffix
    [.log], [get_logger] raises ValueError and leaves the state as it was:
    no directory, logger or handler has been made. *)
Theorem get_logger_rejects_other_suffix
    (name file_path : str) (level : Z) (mode encoding formatter : str)
    (st : log_state) :
  file_path ≠ [] →
  (∀ p, file_path ≠ p ++ txt ".log") →
  get_logger name file_path level mode encoding formatter st
    = (st, Raise ValueError).
Proof.
  intros Hne Hsuf. unfold get_logger.
  assert (endswith file_path (txt ".log") = false) as ->.
  { apply not_true_is_false. intros [p ->]%endswith_spec. by eapply Hsuf. }
  destruct file_path; [done|reflexivity].
Qed.

Lemma get_logger_rejects_other_suffix_witness :
  get_logger (txt "train") (txt "logs/run.txt") INFO (txt "a+") (txt "utf-8")
             LOGGING_FORMATTER {| files := ∅; loggers := ∅ |}
    = ({| files := ∅; loggers := ∅ |}, Raise ValueError).
Proof.
  apply get_logger_rejects_other_suffix; [discriminate|].
  intros p Hp. apply (f_equal reverse) in Hp.
  rewrite reverse_app in Hp. vm_compute in Hp. discriminate Hp.
Defined.

(** C8 fails for the empty path: it does not end in [.log], yet no
    ValueError is raised; the call goes on to [os.mkdir] of the empty path
    and ends with the FileNotFoundError of that call. *)
Lemma get_logger_empty_path_not_ValueError :
  endswith [] (txt ".log") = false ∧
  snd (get_logger (txt "train") [] INFO (txt "a+") (txt "utf-8")
         LOGGING_FORMATTER {| files := ∅; loggers := ∅ |})
    = Raise FileNotFoundError ∧
  snd (get_logger (txt "train") [] INFO (txt "a+") (txt "utf-8")
         LOGGING_FORMATTER {| files := ∅; loggers := ∅ |})
    ≠ Raise ValueError.
Proof. split; [reflexivity|]. split; [reflexivity|discriminate]. Qed.

(** A call that returns leaves the logger registered under the returned
    name, with at least one handler. *)
Lemma get_logger_Ok name file_path level mode encoding formatter st st' k :
  get_logger name file_path level mode encoding formatter st = (st', Ok k) →
  k = logger_key name ∧
  ∃ l, loggers st' !! k = Some l ∧ handlers l ≠ [].
Proof.
  unfold get_logger.
  destruct (str_truthy file_path && negb (endswith file_path (txt ".log")));
    [done|].
  destruct (if negb _ then _ else _) as [fs1|e]; [|done].
  destruct (getLogger (loggers st) name) as [reg1 lg] eqn:Hg.
  cbn [handlers].
  destruct (handlers lg) as [|h hs] eqn:Hh.
  - destruct (open_mode fs1 file_path mode) as [fs2|e]; [|done].
    intros [= <- <-]. split; [done|]. eexists. cbn [loggers].
    rewrite lookup_insert_eq. split; [done|]. done.
  - intros [= <- <-]. split; [done|]. eexists. cbn [loggers].
    rewrite lookup_insert_eq. split; [done|]. done.
Qed.

(** A call on a state in which the logger of that name already has a
    handler leaves the handlers of that logger alone, whether it returns or
    raises. *)
Lemma get_logger_keeps_handlers name file_path level mode encoding formatter
    st st' r l :
  loggers st !! logger_key name = Some l →
  handlers l ≠ [] →
  get_logger name file_path level mode encoding formatter st = (st', r) →
  ∃ l', loggers st' !! logger_key name = Some l' ∧ handlers l' = handlers l.
Proof.
  intros Hl Hne. unfold get_logger.
  destruct (str_truthy file_path && negb (endswith file_path (txt ".log"))).
  { intros [= <- <-]. eauto. }
  destruct (if negb _ then _ else _) as [fs1|e].
  2: { intros [= <- <-]. eauto. }
  unfold getLogger. rewrite Hl. cbn [handlers].
  destruct (handlers l) as [|h hs] eqn:Hh; [done|].
  intros [= <- <-]. eexists. cbn [loggers].
  rewrite lookup_insert_eq. split; [done|]. done.
Qed.

(** C9.  After a call of [get_logger] that returned, a second call with the
    same name (whatever its other arguments, and whether it returns or
    raises) adds no handler: the logger has exactly the handlers it had
    after the first call, and a second call that returns hands back that
    same logger. *)
Theorem get_logger_twice_same_handlers
    (name : str)
    (path1 path2 : str) (level1 level2 : Z)
    (mode1 mode2 encoding1 encoding2 formatter1 formatter2 : str)
    (st st1 st2 : log_state) (k : str) (r : result str) :
  get_logger name path1 level1 mode1 encoding1 formatter1 st = (st1, Ok k) →
  get_logger name path2 level2 mode2 encoding2 formatter2 st1 = (st2, r) →
  ∃ l1 l2,
    loggers st1 !! k = Some l1 ∧
    loggers st2 !! k = Some l2 ∧
    handlers l2 = handlers l1 ∧
    handlers l1 ≠ [] ∧
    (∀ k', r = Ok k' → k' = k).
Proof.
  intros H1 H2.
  destruct (get_logger_Ok _ _ _ _ _ _ _ _ _ H1) as (-> & l1 & Hl1 & Hne).
  destruct (get_logger_keeps_handlers _ _ _ _ _ _ _ _ _ _ Hl1 Hne H2)
    as (l2 & Hl2 & Hh).
  exists l1, l2. repeat split; try done.
  intros k' ->. by destruct (get_logger_Ok _ _ _ _ _ _ _ _ _ H2) as [-> _].
Qed.

Lemma get_logger_twice_same_handlers_witness :
  let st0 := {| files := {[ txt "logs" := Dir ]}; loggers := ∅ |} in
  let run1 := get_logger (txt "train") (txt "logs/run.log") INFO (txt "a+")
                (txt "utf-8") LOGGING_FORMATTER st0 in
  let run2 := get_logger (txt "train") (txt "logs/other.log") 10 (txt "w")
                (txt "utf-8") LOGGING_FORMATTER (fst run1) in
  ∃ l1 l2,
    loggers (fst run1) !! txt "train" = Some l1 ∧
    loggers (fst run2) !! txt "train" = Some l2 ∧
    handlers l2 = handlers l1 ∧
    handlers l1 ≠ [] ∧
    (∀ k', snd run2 = Ok k' → k' = txt "train").
Proof.
  intros st0 run1 run2.
  apply (get_logger_twice_same_handlers (txt "train")
           (txt "logs/run.log") (txt "logs/other.log") INFO 10
           (txt "a+") (txt "w") (txt "utf-8") (txt "utf-8")
           LOGGING_FORMATTER LOGGING_FORMATTER st0 (fst run1) (fst run2)
           (txt "train") (snd run2)).
  - vm_compute. reflexivity.
  - apply surjective_pairing.
Defined.
End LoggerFacts.

(** ** get_model_config and save_model_config *)

Section ConfigFacts.
Import Py Tools.

(** C2 fails for an absent file: the call raises FileNotFoundError and
    returns no mapping. *)
Lemma get_model_config_absent_raises :
  get_model_config (txt "bert") (txt "model.json") ∅ = Raise FileNotFoundError ∧
  get_model_config (txt "bert") (txt "model.json") ∅ ≠ Ok (PyDict []).
Proof. split; [reflexivity|discriminate]. Qed.

(** C2, as amended.  When no file is at [config_path] the call raises
    FileNotFoundError.  When a file is there, the call returns the empty
    mapping whenever the file cannot be read, does not hold a JSON
    document, or holds a document that has no entry for [key] (a document
    that is not an object has none). *)
Theorem get_model_config_missing
    (key config_path : str) (fs : filesystem) :
  (path_exists fs config_path = false →
   get_model_config key config_path fs = Raise FileNotFoundError) ∧
  (path_exists fs config_path = true →
   (∃ e, read_text fs config_path = Raise e) ∨
   (∃ text, read_text fs config_path = Ok text ∧ Json.loads text = None) ∨
   (∃ text v, read_text fs config_path = Ok text ∧ Json.loads text = Some v ∧
              ∀ d, v = PyDict d → dict_get d key = None) →
   get_model_config key config_path fs = Ok (PyDict [])).
Proof.
  unfold get_model_config, load_json. split.
  - by intros ->.
  - intros -> [[e He]|[(text & Ht & Hl)|(text & v & Ht & Hl & Hk)]]; cbn.
    + by rewrite He.
    + by rewrite Ht, Hl.
    + rewrite Ht, Hl. destruct v; try done.
      by rewrite (Hk _ eq_refl).
Qed.

(** An entry that is there is returned as it is. *)
Lemma get_model_config_found (key config_path : str) (fs : filesystem) text d v :
  path_exists fs config_path = true →
  read_text fs config_path = Ok text →
  Json.loads text = Some (PyDict d) →
  dict_get d key = Some v →
  get_model_config key config_path fs = Ok v.
Proof.
  intros He Ht Hl Hk. unfold get_model_config, load_json.
  rewrite He. cbn. by rewrite Ht, Hl, Hk.
Qed.

(** A key that is missing, a key that is there, a document that is not an
    object, a broken document, an unreadable file, a directory and an
    absent file, on concrete file systems. *)
Example get_model_config_cases :
  let doc := File true true (quoted "{ 'bert': {'lr': 0.1}, 'n': [1, 2] }") in
  get_model_config (txt "gpt") (txt "m.json") {[ txt "m.json" := doc ]} = Ok (PyDict []) ∧
  get_model_config (txt "bert") (txt "m.json") {[ txt "m.json" := doc ]}
    = Ok (PyDict [(txt "lr", PyFloat (FRepr (txt "0.1")))]) ∧
  get_model_config (txt "bert") (txt "m.json")
    {[ txt "m.json" := File true true (txt "[1, 2]") ]} = Ok (PyDict []) ∧
  get_model_config (txt "bert") (txt "m.json")
    {[ txt "m.json" := File true true (quoted "{ 'bert': ") ]} = Ok (PyDict []) ∧
  get_model_config (txt "bert") (txt "m.json")
    {[ txt "m.json" := File false true (txt "{}") ]} = Ok (PyDict []) ∧
  get_model_config (txt "bert") (txt "m.json") {[ txt "m.json" := Dir ]} = Ok (PyDict []) ∧
  get_model_config (txt "bert") (txt "m.json") {[ txt "other.json" := doc ]}
    = Raise FileNotFoundError.
Proof. vm_compute. repeat split. Qed.

(** What a call of [save_model_config] that returns True has done. *)
Lemma save_model_config_true_inv key model_desc model_config config_path now st st' :
  save_model_config key model_desc model_config config_path now st = (st', true) →
  ∃ entries fs1 d text rd wr,
    load_existing (disk st) config_path = Ok (PyDict entries) ∧
    open_truncate (disk st) config_path = Ok fs1 ∧
    objects st !! model_config = Some d ∧
    dump_json (PyDict (dict_set entries key (PyDict (stamped d now model_desc))))
      = (text, Ok ()) ∧
    st' = {| disk := <[config_path := File rd wr text]> fs1;
             objects := <[model_config := stamped d now model_desc]> (objects st) |}.
Proof.
  unfold save_model_config, save_model_config_try.
  destruct (load_existing (disk st) config_path) as [config_json|e]; [|done].
  destruct (open_truncate (disk st) config_path) as [fs1|e] eqn:Ho; [|done].
  destruct (objects st !! model_config) as [d|] eqn:Hd; [|done].
  destruct config_json as [| | | | | | |entries|]; try done.
  fold (stamped d now model_desc).
  destruct (dump_json _) as [text r] eqn:Hdump.
  destruct r as [[]|e]; [|done].
  intros [= <-].
  destruct (fs1 !! config_path) as [[|rd wr c]|] eqn:Hn.
  - exists entries, fs1, d, text, true, true. done.
  - exists entries, fs1, d, text, rd, wr. done.
  - exists entries, fs1, d, text, true, true. done.
Qed.


End ConfigFacts.

(** ** save_model_config: what two calls leave in the file *)

Section SaveTwice.
Import Py Json Tools.

Abbreviation doc := (text_of false 4 false 0).

Lemma write_chunks_all (chunks : list str) (t : str) :
  write_chunks chunks = (t, true) → t = concat chunks.
Proof.
  revert t. induction chunks as [|c r IH]; intros t; cbn.
  - by intros [= <-].
  - destruct (encodable c); [|done].
    destruct (write_chunks r) as [t' ok]. intros [= <- ->].
    by rewrite (IH t').
Qed.

(** A [json.dump] that raises nothing has written the whole document. *)
Lemma dump_json_Ok (obj : pyval) (text : str) :
  dump_json obj = (text, Ok ()) →
  text = doc obj ∧ complete false 4 false 0 obj = true.
Proof.
  unfold dump_json, text_of, complete.
  destruct (iterencode false 4 false 0 obj) as [chunks ok].
  destruct (write_chunks chunks) as [t w] eqn:Hw.
  destruct w; cbn; [|done]. destruct ok; cbn; [|done].
  intros [= <-]. split; [|done]. by apply write_chunks_all.
Qed.

Lemma load_existing_decoded (fs : filesystem) (p : str) (v : pyval) :
  load_existing fs p = Ok v → decoded v.
Proof.
  unfold load_existing, load_json.
  destruct (path_exists fs p && nonempty fs p).
  - destruct (read_text fs p) as [text|e]; [|done].
    destruct (loads text) as [v'|] eqn:E; [|done].
    intros [= <-]. by eapply loads_decoded.
  - by intros [= <-].
Qed.

Lemma well_formed_dict_set (d : dict) (k : str) (v : pyval) :
  well_formed (PyDict d) = true → well_formed v = true →
  well_formed (PyDict (dict_set d k v)) = true.
Proof.
  cbn [well_formed]. intros [Hnd Hd]%andb_true_iff Hv.
  apply bool_decide_eq_true in Hnd.
  apply andb_true_iff. split.
  - apply bool_decide_eq_true. by apply dict_set_NoDup.
  - apply forallb_forall. rewrite forallb_forall in Hd.
    intros x Hx%list_elem_of_In. revert x Hx. apply Forall_forall.
    apply (dict_set_Forall (λ kv, well_formed (snd kv) = true)); [|done].
    apply Forall_forall. intros x Hx. apply Hd. by apply list_elem_of_In.
Qed.

Lemma well_formed_stamped (d : dict) (now : datetime) (desc : str) :
  well_formed (PyDict d) = true → well_formed (PyDict (stamped d now desc)) = true.
Proof.
  intros H. unfold stamped. by repeat apply well_formed_dict_set.
Qed.

(** The entries of a document that was read are left as they are by
    writing and reading them again. *)
Lemma decoded_get (d : dict) (k : str) :
  decoded (PyDict d) → as_json false <$> dict_get d k = dict_get d k.
Proof.
  intros [_ H]. cbn [as_json] in H. injection H as H.
  rewrite <- (dict_get_map (as_json false)). by rewrite H.
Qed.

(** *** The timestamp *)

Lemma padded_2_check : forallb (padded 2) (upto (N.to_nat 100) 0) = true.
Proof. vm_compute. reflexivity. Qed.

Lemma padded_4_check : forallb (padded 4) (upto (N.to_nat 9000) 1000) = true.
Proof. vm_compute. reflexivity. Qed.

Lemma zero_pad_2 (n : Z) :
  0 ≤ n ≤ 99 →
  ∃ a b, zero_pad 2 n = [a; b] ∧ is_digit a = true ∧ is_digit b = true.
Proof.
  intros Hn. pose proof padded_2_check as H.
  rewrite forallb_forall in H. specialize (H (Z.to_N n)).
  unfold padded in H. rewrite Z2N.id in H by lia.
  apply andb_true_iff in H as [Hl Hd];
    [|apply upto_In; rewrite N2Nat.id; lia].
  apply bool_decide_eq_true in Hl.
  destruct (zero_pad 2 n) as [|a [|b [|c t]]]; try done.
  exists a, b. cbn in Hd.
  apply andb_true_iff in Hd as [? [? _]%andb_true_iff]. done.
Qed.

Lemma zero_pad_4 (n : Z) :
  1000 ≤ n ≤ 9999 →
  ∃ a b c d, zero_pad 4 n = [a; b; c; d] ∧
    is_digit a = true ∧ is_digit b = true ∧ is_digit c = true ∧ is_digit d = true.
Proof.
  intros Hn. pose proof padded_4_check as H.
  rewrite forallb_forall in H. specialize (H (Z.to_N n)).
  unfold padded in H. rewrite Z2N.id in H by lia.
  apply andb_true_iff in H as [Hl Hd];
    [|apply upto_In; rewrite N2Nat.id; lia].
  apply bool_decide_eq_true in Hl.
  destruct (zero_pad 4 n) as [|a [|b [|c [|d [|e t]]]]]; try done.
  exists a, b, c, d. cbn in Hd.
  apply andb_true_iff in Hd as [? [? [? [? _]%andb_true_iff]%andb_true_iff]%andb_true_iff].
  done.
Qed.

(** [strftime] writes YYYY-MM-DD HH:MM:SS. *)
Lemma strftime_format (now : datetime) :
  valid_datetime now → timestamp_format (strftime now) = true.
Proof.
  intros (Hy & Hm & Hd & Hh & Hn & Hs). unfold strftime.
  destruct (zero_pad_4 (year now)) as (y1 & y2 & y3 & y4 & -> & ? & ? & ? & ?); [done|].
  destruct (zero_pad_2 (month now)) as (m1 & m2 & -> & ? & ?); [lia|].
  destruct (zero_pad_2 (day now)) as (g1 & g2 & -> & ? & ?); [lia|].
  destruct (zero_pad_2 (hour now)) as (h1 & h2 & -> & ? & ?); [lia|].
  destruct (zero_pad_2 (minute now)) as (n1 & n2 & -> & ? & ?); [lia|].
  destruct (zero_pad_2 (second now)) as (s1 & s2 & -> & ? & ?); [lia|].
  cbn [app timestamp_format forallb].
  repeat match goal with E : is_digit _ = true |- _ => rewrite E; clear E end.
  reflexivity.
Qed.

(** *** One call *)

(** What a call that returns True leaves: the document of the entries the
    file had, with the entry for [key] set to the stamped configuration. *)
Lemma save_model_config_once key desc config path now st st' :
  heap_ok (objects st) →
  save_model_config key desc config path now st = (st', true) →
  ∃ before d rd wr,
    let written := dict_set before key (PyDict (stamped d now desc)) in
    load_existing (disk st) path = Ok (PyDict before) ∧
    objects st !! config = Some d ∧
    path ≠ [] ∧
    well_formed (PyDict written) = true ∧
    complete false 4 false 0 (PyDict written) = true ∧
    disk st' !! path = Some (File rd wr (doc (PyDict written))) ∧
    loads (doc (PyDict written)) = Some (as_json false (PyDict written)) ∧
    heap_ok (objects st').
Proof.
  intros Hheap H.
  destruct (save_model_config_true_inv _ _ _ _ _ _ _ H)
    as (before & fs1 & d & text & rd & wr & Hload & Hopen & Hd & Hdump & ->).
  apply dump_json_Ok in Hdump as [-> Hok].
  exists before, d, rd, wr. cbv zeta. cbn [disk objects].
  assert (well_formed (PyDict (dict_set before key (PyDict (stamped d now desc)))) = true)
    as Hwf.
  { apply well_formed_dict_set.
    - by apply (load_existing_decoded _ _ _ Hload).
    - apply well_formed_stamped. by eapply Hheap. }
  split; [done|]. split; [done|]. split.
  { intros ->. unfold open_truncate in Hopen. done. }
  split; [done|]. split; [done|]. split; [by rewrite lookup_insert_eq|]. split.
  - by apply loads_text.
  - intros l d'. destruct (decide (l = config)) as [->|Hne].
    + rewrite lookup_insert_eq. intros [= <-].
      apply well_formed_stamped. by eapply Hheap.
    + rewrite lookup_insert_ne by done. apply Hheap.
Qed.

(** What the next call finds in the file. *)
Lemma load_existing_written (fs : filesystem) (path : str) rd wr (v w : pyval) :
  path ≠ [] →
  well_formed v = true →
  complete false 4 false 0 v = true →
  fs !! path = Some (File rd wr (doc v)) →
  loads (doc v) = Some (as_json false v) →
  load_existing fs path = Ok w →
  w = as_json false v.
Proof.
  intros Hp Hwf Hok Hfs Hl.
  destruct (text_head false 4 false v 0%nat Hwf Hok) as (c & r & E & _).
  unfold load_existing, path_exists, nonempty, load_json, read_text.
  destruct path as [|p0 path']; [done|].
  rewrite Hfs. rewrite bool_decide_eq_true_2 by (by eexists).
  rewrite E. cbn [andb]. destruct rd; [|done].
  rewrite <- E, Hl. by intros [= <-].
Qed.

Lemma stamped_get (d : dict) (now : datetime) (desc : str) :
  dict_get (stamped d now desc) (txt "execute_time") = Some (PyStr (strftime now)) ∧
  dict_get (stamped d now desc) (txt "model_desc") = Some (PyStr desc).
Proof.
  unfold stamped. split.
  - by rewrite dict_get_set_ne, dict_get_set_eq.
  - by rewrite dict_get_set_eq.
Qed.

(** The only value the [try] block returns is True. *)
Lemma save_model_config_try_Ok key desc config path now st st' b :
  save_model_config_try key desc config path now st = (st', Ok b) → b = true.
Proof.
  unfold save_model_config_try.
  destruct (load_existing (disk st) path) as [config_json|e]; [|done].
  destruct (open_truncate (disk st) path) as [fs1|e]; [|done].
  destruct (objects st !! config) as [d|]; [|done].
  destruct config_json; try done.
  destruct (dump_json _) as [text [[]|e]]; [|done].
  by intros [= _ <-].
Qed.

(** C7.  Two calls of [save_model_config] with the same key and the same
    file, both returning True, leave in the file the JSON document of a
    dict that has exactly one entry for the key, and this entry is the
    configuration passed to the second call.  The entry of either call
    holds under [execute_time] the time of the call, written as
    YYYY-MM-DD HH:MM:SS, and under [model_desc] the description.  The
    entries that the file had under other keys before the first call are
    still there.  The function returns True when the body of its [try]
    raises nothing and False when it raises an exception. *)
Theorem save_model_config_twice_overwrites
    (key desc1 desc2 : str) (config1 config2 : nat) (config_path : str)
    (now1 now2 : datetime) (st st1 st2 : config_state) :
  heap_ok (objects st) →
  valid_datetime now1 → valid_datetime now2 →
  save_model_config key desc1 config1 config_path now1 st = (st1, true) →
  save_model_config key desc2 config2 config_path now2 st1 = (st2, true) →
  ∃ before d1 d2 first written rd1 wr1 rd wr,
    load_existing (disk st) config_path = Ok (PyDict before) ∧
    (* the first call *)
    objects st !! config1 = Some d1 ∧
    disk st1 !! config_path = Some (File rd1 wr1 (doc (PyDict first))) ∧
    dict_get first key = Some (PyDict (stamped d1 now1 desc1)) ∧
    dict_get (stamped d1 now1 desc1) (txt "execute_time") = Some (PyStr (strftime now1)) ∧
    dict_get (stamped d1 now1 desc1) (txt "model_desc") = Some (PyStr desc1) ∧
    timestamp_format (strftime now1) = true ∧
    (* the second call *)
    objects st1 !! config2 = Some d2 ∧
    disk st2 !! config_path = Some (File rd wr (doc (PyDict written))) ∧
    loads (doc (PyDict written)) = Some (as_json false (PyDict written)) ∧
    key_count written key = 1%nat ∧
    dict_get written key = Some (PyDict (stamped d2 now2 desc2)) ∧
    dict_get (stamped d2 now2 desc2) (txt "execute_time") = Some (PyStr (strftime now2)) ∧
    dict_get (stamped d2 now2 desc2) (txt "model_desc") = Some (PyStr desc2) ∧
    timestamp_format (strftime now2) = true ∧
    (∀ k, k ≠ key → dict_get written k = dict_get before k) ∧
    (* True and False *)
    (∀ k desc c p now s,
       save_model_config k desc c p now s =
         match save_model_config_try k desc c p now s with
         | (s', Ok _) => (s', true)
         | (s', Raise _) => (s', false)
         end).
Proof.
  intros Hheap Hnow1 Hnow2 H1 H2.
  destruct (save_model_config_once _ _ _ _ _ _ _ Hheap H1)
    as (before & d1 & rd1 & wr1 & Hload1 & Hd1 & Hp & Hwf1 & Hok1 & Hdisk1 & Hl1 & Hheap1).
  destruct (save_model_config_once _ _ _ _ _ _ _ Hheap1 H2)
    as (before2 & d2 & rd & wr & Hload2 & Hd2 & _ & Hwf2 & _ & Hdisk2 & Hl2 & _).
  pose proof (load_existing_written _ _ _ _ _ _ Hp Hwf1 Hok1 Hdisk1 Hl1 Hload2) as E.
  cbn [as_json] in E. injection E as ->.
  destruct (stamped_get d1 now1 desc1) as [? ?].
  destruct (stamped_get d2 now2 desc2) as [? ?].
  eexists before, d1, d2, _, _, rd1, wr1, rd, wr.
  split; [done|].
  split; [done|]. split; [exact Hdisk1|]. split; [apply dict_get_set_eq|].
  split; [done|]. split; [done|]. split; [by apply strftime_format|].
  split; [done|]. split; [exact Hdisk2|]. split; [exact Hl2|].
  split.
  { cbn [well_formed] in Hwf2. apply andb_true_iff in Hwf2 as [Hnd _].
    apply bool_decide_eq_true in Hnd. apply key_count_NoDup; [done|].
    destruct (decide (key ∈ dict_keys
      (dict_set (map (λ kv, (kv.1, as_json false kv.2))
                   (dict_set before key (PyDict (stamped d1 now1 desc1))))
                key (PyDict (stamped d2 now2 desc2))))) as [|Hn]; [done|].
    apply dict_get_None in Hn. by rewrite dict_get_set_eq in Hn. }
  split; [apply dict_get_set_eq|].
  split; [done|]. split; [done|]. split; [by apply strftime_format|].
  split.
  { intros k Hk. rewrite dict_get_set_ne by done.
    rewrite dict_get_map, dict_get_set_ne by done.
    apply decoded_get. by apply (load_existing_decoded _ _ _ Hload1). }
  intros k desc c p now s. unfold save_model_config.
  destruct (save_model_config_try k desc c p now s) as [s' [b|e]] eqn:Et; [|done].
  by rewrite (save_model_config_try_Ok _ _ _ _ _ _ _ _ Et).
Qed.

Lemma save_model_config_twice_overwrites_witness :
  let st := {| disk := {[ txt "m.json" := File true true (quoted "{'gpt': {'lr': 0.5}}") ]};
               objects := {[ 1%nat := [(txt "lr", PyFloat (FRepr (txt "0.1")))];
                             2%nat := [(txt "layers", PyTuple [PyInt 12; PyInt 6])] ]} |} in
  let now1 := {| year := 2021; month := 3; day := 9;
                 hour := 14; minute := 5; second := 0 |} in
  let now2 := {| year := 2021; month := 3; day := 10;
                 hour := 0; minute := 59; second := 7 |} in
  let st1 := fst (save_model_config (txt "bert") (txt "first run") 1 (txt "m.json") now1 st) in
  let st2 := fst (save_model_config (txt "bert") (txt "second run") 2 (txt "m.json") now2 st1) in
  ∃ written rd wr,
    disk st2 !! txt "m.json" = Some (File rd wr (doc (PyDict written))) ∧
    key_count written (txt "bert") = 1%nat ∧
    dict_get written (txt "bert")
      = Some (PyDict [(txt "layers", PyTuple [PyInt 12; PyInt 6]);
                      (txt "execute_time", PyStr (txt "2021-03-10 00:59:07"));
                      (txt "model_desc", PyStr (txt "second run"))]) ∧
    dict_get written (txt "gpt") = Some (PyDict [(txt "lr", PyFloat (FRepr (txt "0.5")))]).
Proof.
  intros st now1 now2 st1 st2.
  destruct (save_model_config_twice_overwrites
              (txt "bert") (txt "first run") (txt "second run") 1 2 (txt "m.json")
              now1 now2 st st1 st2)
    as (before & d1 & d2 & first & written & rd1 & wr1 & rd & wr
        & Hb & _ & _ & _ & _ & _ & _ & Hd2 & Hdisk & _ & Hcount & Hkey & _ & _ & _ & Hother & _).
  - intros l d Hl. cbn [st objects] in Hl.
    apply lookup_insert_Some in Hl as [[_ <-]|[_ Hl]]; [reflexivity|].
    apply lookup_singleton_Some in Hl as [_ <-]. reflexivity.
  - unfold valid_datetime; cbn; lia.
  - unfold valid_datetime; cbn; lia.
  - vm_compute. reflexivity.
  - vm_compute. reflexivity.
  - exists written, rd, wr. split; [exact Hdisk|]. split; [exact Hcount|].
    assert (d2 = [(txt "layers", PyTuple [PyInt 12; PyInt 6])]) as ->.
    { assert (objects st1 !! 2%nat = Some [(txt "layers", PyTuple [PyInt 12; PyInt 6])])
        as E by (vm_compute; reflexivity).
      pose proof (eq_trans (eq_sym Hd2) E) as E'. by injection E'. }
    assert (before = [(txt "gpt", PyDict [(txt "lr", PyFloat (FRepr (txt "0.5")))])]) as ->.
    { assert (load_existing (disk st) (txt "m.json")
              = Ok (PyDict [(txt "gpt", PyDict [(txt "lr", PyFloat (FRepr (txt "0.5")))])]))
        as E by (vm_compute; reflexivity).
      pose proof (eq_trans (eq_sym Hb) E) as E'. by injection E'. }
    split; [exact Hkey|]. rewrite Hother by discriminate. reflexivity.
Defined.
End SaveTwice.

(** ** BertConfig: from_dict, to_json_string, from_json_file *)

Section BertConfigMore.
Import Py Json JsonValues BertConfig BertConfigFile Tools.

(** X1.  [from_dict] on a dict: every entry of the dict becomes a field
    with that value, every field the dict does not name has the default of
    the constructor ([vocab_size] 0), the eleven fields of the constructor
    are all there, and no field occurs twice. *)
Theorem from_dict_fields (d : dict) :
  NoDup (dict_keys d) →
  ∃ rebuilt,
    from_dict (PyDict d) = Some rebuilt ∧
    NoDup (dict_keys rebuilt) ∧
    (∀ k v, dict_get d k = Some v → dict_get rebuilt k = Some v) ∧
    (∀ k, dict_get d k = None →
          dict_get rebuilt k = dict_get (with_defaults (PyInt 0)) k) ∧
    (dict_get d (txt "vocab_size") = None →
     dict_get rebuilt (txt "vocab_size") = Some (PyInt 0)) ∧
    (∀ k, k ∈ dict_keys (with_defaults (PyInt 0)) → is_Some (dict_get rebuilt k)).
Proof.
  intros Hnd. eexists. split; [reflexivity|].
  assert (∀ k, dict_get (dict_update (with_defaults (PyInt 0)) d) k =
               match dict_get d k with
               | Some v => Some v
               | None => dict_get (with_defaults (PyInt 0)) k
               end) as Hget.
  { intros k. by apply dict_get_update. }
  split; [|split; [|split; [|split]]].
  - apply dict_update_NoDup. unfold dict_keys. cbn.
    compute_done.
  - intros k v Hk. by rewrite Hget, Hk.
  - intros k Hk. by rewrite Hget, Hk.
  - intros Hk. by rewrite Hget, Hk.
  - intros k Hk. rewrite Hget. destruct (dict_get d k); [done|].
    destruct (dict_get (with_defaults (PyInt 0)) k) eqn:E; [done|].
    by apply dict_get_None in E.
Qed.

Lemma from_dict_fields_witness :
  ∃ rebuilt,
    from_dict (PyDict [(txt "hidden_size", PyInt 312); (txt "pooler", PyStr (txt "cls"))])
      = Some rebuilt ∧
    dict_get rebuilt (txt "hidden_size") = Some (PyInt 312) ∧
    dict_get rebuilt (txt "pooler") = Some (PyStr (txt "cls")) ∧
    dict_get rebuilt (txt "vocab_size") = Some (PyInt 0) ∧
    dict_get rebuilt (txt "num_hidden_layers") = Some (PyInt 12).
Proof.
  destruct (from_dict_fields
              [(txt "hidden_size", PyInt 312); (txt "pooler", PyStr (txt "cls"))])
    as (rebuilt & Hr & _ & Hin & Hout & Hv & _).
  - compute_done.
  - exists rebuilt. split; [exact Hr|].
    split; [by apply Hin|]. split; [by apply Hin|]. split; [by apply Hv|].
    rewrite Hout by reflexivity. reflexivity.
Defined.

(** *** What can be written *)

Lemma forallb_perm {A} (f : A → bool) (l l' : list A) :
  Permutation l l' → forallb f l = forallb f l'.
Proof.
  induction 1 as [|x l l' _ IH|x y l|l l' l'' _ IH1 _ IH2]; cbn.
  - done.
  - by rewrite IH.
  - by rewrite !andb_assoc, (andb_comm (f y)).
  - by rewrite IH1.
Qed.

Lemma forallb_ext_Forall {A} (f g : A → bool) (l : list A) :
  Forall (λ x, f x = g x) l → forallb f l = forallb g l.
Proof. induction 1 as [|x l Hx _ IH]; [done|]. cbn. by rewrite Hx, IH. Qed.

(** The encoder runs to its end on exactly the values without foreign
    objects. *)
Lemma complete_serialisable (ea : bool) (ind : nat) (sk : bool) (v : pyval) :
  ∀ lvl, complete ea ind sk lvl v = serialisable v.
Proof.
  induction v as [|b|z|f|s|l IH|l IH|d IH|id] using pyval_nested_ind; intros lvl.
  - done.
  - by destruct b.
  - done.
  - done.
  - done.
  - rewrite complete_list. cbn [serialisable]. apply forallb_ext_Forall.
    eapply Forall_impl; [exact IH|]. intros x Hx. apply Hx.
  - change (complete ea ind sk lvl (PyTuple l)) with (complete ea ind sk lvl (PyList l)).
    rewrite complete_list. cbn [serialisable]. apply forallb_ext_Forall.
    eapply Forall_impl; [exact IH|]. intros x Hx. apply Hx.
  - rewrite complete_dict. cbn [serialisable].
    rewrite (forallb_perm _ _ _ (ordered_perm sk d)).
    apply forallb_ext_Forall.
    eapply Forall_impl; [exact IH|]. intros x Hx. apply Hx.
  - done.
Qed.

(** X2.  [to_json_string] returns no text when some field holds, at any
    depth of lists, tuples and dict values, an object that is not None, a
    bool, a number, a string, a list, a tuple or a dict: the encoder
    raises TypeError when it comes to that object. *)
Theorem to_json_string_TypeError (self : config) (k : str) (v : pyval) :
  In (k, v) self →
  serialisable v = false →
  to_json_string self = None.
Proof.
  intros Hin Hv.
  pose proof (complete_serialisable true 2 true (PyDict self) 0%nat) as Hc.
  unfold complete in Hc. unfold to_json_string, to_dict, dumps.
  destruct (iterencode true 2 true 0 (PyDict self)) as [chunks ok].
  cbn [snd] in Hc. subst ok. cbn [serialisable].
  destruct (forallb _ self) eqn:E; [|done].
  rewrite forallb_forall in E. specialize (E (k, v) Hin). cbn in E. congruence.
Qed.

Lemma to_json_string_TypeError_witness :
  to_json_string (with_defaults (PyList [PyInt 1; PyTuple [PyObject 0%nat]])) = None.
Proof.
  apply (to_json_string_TypeError _ (txt "vocab_size")
           (PyList [PyInt 1; PyTuple [PyObject 0%nat]])).
  - vm_compute. tauto.
  - reflexivity.
Defined.

(** *** The characters that are written *)

Lemma ascii_andthen (a b : out) : ascii_out a → ascii_out b → ascii_out (andthen a b).
Proof.
  unfold ascii_out, andthen. intros Ha Hb. destruct (snd a); [|done].
  cbn [fst]. rewrite concat_app. by apply Forall_app.
Qed.

Lemma ascii_yield (t : str) :
  Forall (λ c, printable_ascii c = true) t → ascii_out (yield t).
Proof. unfold ascii_out, yield. cbn. by rewrite app_nil_r. Qed.

Lemma ascii_nil : ascii_out ([], true).
Proof. constructor. Qed.

Lemma ascii_newline_indent ind lvl :
  Forall (λ c, printable_ascii c = true) (newline_indent ind lvl).
Proof.
  unfold newline_indent. constructor; [done|].
  apply Forall_replicate. done.
Qed.

Lemma ascii_hex_digit (n : N) : (n < 16)%N → printable_ascii (hex_digit n) = true.
Proof.
  intros Hn. unfold hex_digit, printable_ascii.
  destruct (N.ltb_spec n 10); apply orb_true_iff; right;
    apply andb_true_iff; split; apply N.leb_le; lia.
Qed.

Lemma ascii_u_escape (n : N) : Forall (λ c, printable_ascii c = true) (u_escape n).
Proof.
  unfold u_escape, hex4. repeat constructor; try done;
    apply ascii_hex_digit; apply N.mod_lt; done.
Qed.

Lemma ascii_escape_char (c : N) :
  Forall (λ c, printable_ascii c = true) (escape_char true c).
Proof.
  unfold escape_char.
  repeat match goal with
  | |- context [(c =? ?k)%N] => destruct (N.eqb_spec c k); [by repeat constructor|]
  end.
  destruct (N.ltb_spec c 32); [apply ascii_u_escape|].
  cbn [andb]. destruct (N.ltb_spec 126 c).
  - destruct (c <? 65536)%N; [apply ascii_u_escape|].
    apply Forall_app. split; apply ascii_u_escape.
  - constructor; [|done]. unfold printable_ascii.
    apply orb_true_iff. right. apply andb_true_iff. split; apply N.leb_le; lia.
Qed.

Lemma ascii_encode_str (s : str) :
  Forall (λ c, printable_ascii c = true) (encode_str true s).
Proof.
  unfold encode_str. constructor; [done|]. apply Forall_app. split; [|by repeat constructor].
  induction s as [|c s IH]; [done|]. cbn [flat_map].
  apply Forall_app. split; [apply ascii_escape_char|done].
Qed.

Lemma ascii_digits (l : str) :
  Forall (λ c, is_digit c = true) l → Forall (λ c, printable_ascii c = true) l.
Proof.
  intros Hl. eapply Forall_impl; [exact Hl|].
  intros c Hc. unfold is_digit in Hc. unfold printable_ascii.
  apply andb_true_iff in Hc as [H1%N.leb_le H2%N.leb_le].
  apply orb_true_iff. right. apply andb_true_iff. split; apply N.leb_le; lia.
Qed.

Lemma ascii_int_str (z : Z) : Forall (λ c, printable_ascii c = true) (int_str z).
Proof.
  destruct z as [|p|p]; cbn [int_str].
  - by repeat constructor.
  - apply ascii_digits, uint_digits_all.
  - constructor; [done|]. apply ascii_digits, uint_digits_all.
Qed.

Lemma ascii_float_literal (lit : str) :
  float_literal lit = true → Forall (λ c, printable_ascii c = true) lit.
Proof.
  unfold float_literal. intros Hl.
  destruct (match_number lit) as [[[[i f] e] r]|] eqn:Hm; [|done].
  destruct (match_number_parts _ _ _ _ _ Hm)
    as (E & Hf & He & sign & c & ds & -> & Hs & Hc & Hds & _).
  assert (r = []) as ->.
  { destruct f, e, r; done. }
  rewrite E. rewrite app_nil_r.
  apply Forall_app. split; [|apply Forall_app; split].
  - apply Forall_app. split.
    + destruct Hs as [-> | ->]; by repeat constructor.
    + apply ascii_digits. by constructor.
  - destruct Hf as [->|(d & ds' & -> & Hd)]; [done|].
    constructor; [done|]. by apply ascii_digits.
  - destruct He as [->|(ch & sg & d & ds' & -> & Hch & Hsg & Hd)]; [done|].
    constructor.
    { apply orb_true_iff in Hch as [->%N.eqb_eq | ->%N.eqb_eq]; done. }
    apply Forall_app. split; [|by apply ascii_digits].
    destruct Hsg as [->|(c' & -> & Hc')]; [done|].
    constructor; [|done].
    apply orb_true_iff in Hc' as [->%N.eqb_eq | ->%N.eqb_eq]; done.
Qed.

Lemma ascii_scalar_text (v : pyval) (t : str) :
  well_formed v = true → scalar_text true v = Some t →
  Forall (λ c, printable_ascii c = true) t.
Proof.
  destruct v as [|[]|z|[|[]|lit]|s| | | |]; cbn; intros Hwf [= <-];
    try by repeat constructor.
  - apply ascii_int_str.
  - by apply ascii_float_literal.
  - apply ascii_encode_str.
Qed.

Lemma ascii_list_items ind lvl (l : list (option str * out)) : ∀ first,
  Forall (λ p, (∀ t, fst p = Some t → Forall (λ c, printable_ascii c = true) t)
               ∧ ascii_out (snd p)) l →
  ascii_out (list_items ind lvl first l).
Proof.
  induction l as [|[scalar chunks] l IH]; intros first Hl; [apply ascii_nil|].
  apply Forall_cons in Hl as [[Hs Hc] Hl]. cbn [fst snd] in *.
  cbn [list_items]. apply ascii_andthen; [|by apply IH].
  assert (Forall (λ c, printable_ascii c = true)
            (if first then 91%N :: newline_indent ind lvl else item_separator ind lvl))
    as Hbuf.
  { destruct first; constructor; try done; apply ascii_newline_indent. }
  destruct scalar as [t|].
  - apply ascii_yield. apply Forall_app. split; [done|by apply Hs].
  - apply ascii_andthen; [by apply ascii_yield|done].
Qed.

Lemma ascii_dict_items ind lvl (l : list (str * out)) : ∀ first,
  Forall (λ p, ascii_out (snd p)) l →
  ascii_out (dict_items true ind lvl first l).
Proof.
  induction l as [|[k chunks] l IH]; intros first Hl; [apply ascii_nil|].
  apply Forall_cons in Hl as [Hc Hl]. cbn [fst snd] in *.
  cbn [dict_items]. repeat apply ascii_andthen; try done.
  - destruct first; [apply ascii_nil|]. apply ascii_yield.
    constructor; [done|apply ascii_newline_indent].
  - apply ascii_yield, ascii_encode_str.
  - apply ascii_yield. by repeat constructor.
  - by apply IH.
Qed.

(** With [ensure_ascii] every chunk the encoder yields is printable ASCII
    apart from the line feeds of the indentation. *)
Lemma ascii_iterencode (ind : nat) (sk : bool) (v : pyval) :
  ∀ lvl, well_formed v = true → ascii_out (iterencode true ind sk lvl v).
Proof.
  assert (∀ l lvl,
    Forall (λ v, ∀ lvl, well_formed v = true → ascii_out (iterencode true ind sk lvl v)) l →
    forallb well_formed l = true →
    ascii_out (encode_list ind lvl
                 (map (λ x, (scalar_text true x, iterencode true ind sk (S lvl) x)) l)))
    as Hlist.
  { intros l lvl IH Hwf. unfold encode_list.
    destruct l as [|x r]; [by apply ascii_yield; repeat constructor|].
    set (items := map _ (x :: r)). change (match items with [] => _ | _ => ?b end) with b.
    apply ascii_andthen.
    - apply ascii_list_items. unfold items. apply Forall_map.
      rewrite forallb_forall in Hwf. apply Forall_forall. intros y Hy. cbn [fst snd].
      rewrite Forall_forall in IH. split.
      + intros t. apply ascii_scalar_text. apply Hwf. by apply list_elem_of_In.
      + apply IH; [done|]. apply Hwf. by apply list_elem_of_In.
    - apply ascii_andthen; apply ascii_yield; [apply ascii_newline_indent|by repeat constructor]. }
  assert (∀ x t lvl, well_formed x = true → scalar_text true x = Some t →
                     ascii_out (iterencode true ind sk lvl x)) as Hscalar.
  { intros x t lvl Hwf E. rewrite (scalar_text_enc true ind sk lvl x t E).
    apply ascii_yield. by eapply ascii_scalar_text. }
  induction v as [|b|z|f|s|l IH|l IH|d IH|id] using pyval_nested_ind; intros lvl Hwf.
  - by eapply Hscalar.
  - destruct b; by eapply Hscalar.
  - by eapply Hscalar.
  - by eapply Hscalar.
  - by eapply Hscalar.
  - by apply Hlist.
  - by apply Hlist.
  - cbn [iterencode]. cbn [well_formed] in Hwf.
    apply andb_true_iff in Hwf as [_ Hwf].
    set (items := map (λ kv, (fst kv, iterencode true ind sk (S lvl) (snd kv))) d).
    assert (Forall (λ p : str * out, ascii_out (snd p)) items) as Hitems.
    { unfold items. apply Forall_map. rewrite forallb_forall in Hwf.
      apply Forall_forall. intros y Hy. cbn [snd]. rewrite Forall_forall in IH.
      apply IH; [done|]. apply Hwf. by apply list_elem_of_In. }
    assert (Forall (λ p : str * out, ascii_out (snd p))
              (if sk then sort_items items else items)) as Hord.
    { destruct sk; [|done]. by rewrite sort_items_perm. }
    unfold encode_dict.
    destruct (if sk then sort_items items else items) as [|kv r] eqn:E;
      [by apply ascii_yield; repeat constructor|].
    apply ascii_andthen; [apply ascii_yield; by repeat constructor|].
    apply ascii_andthen; [apply ascii_yield, ascii_newline_indent|].
    apply ascii_andthen; [by apply ascii_dict_items|].
    apply ascii_andthen;
      [apply ascii_yield, ascii_newline_indent|apply ascii_yield; by repeat constructor].
  - apply ascii_nil.
Qed.

(** X3.  Whatever characters the fields hold, the text [to_json_string]
    returns consists of printable ASCII characters and line feeds: every
    other character is written as an escape. *)
Theorem to_json_string_ascii (self : config) (s : str) :
  well_formed (PyDict self) = true →
  to_json_string self = Some s →
  forallb printable_ascii s = true.
Proof.
  intros Hwf. unfold to_json_string, to_dict, dumps.
  pose proof (ascii_iterencode 2 true (PyDict self) 0%nat Hwf) as Ha.
  unfold ascii_out in Ha.
  destruct (iterencode true 2 true 0 (PyDict self)) as [chunks ok].
  destruct ok; [|done]. intros [= <-].
  apply forallb_forall. intros c Hc%list_elem_of_In.
  rewrite Forall_forall in Ha. by apply Ha.
Qed.

Lemma to_json_string_ascii_witness :
  ∃ s, to_json_string (with_defaults (PyStr [20013%N; 25991%N; 128512%N; 127%N])) = Some s ∧
       forallb printable_ascii s = true.
Proof.
  eexists. split; [vm_compute; reflexivity|].
  eapply (to_json_string_ascii
            (with_defaults (PyStr [20013%N; 25991%N; 128512%N; 127%N])));
    vm_compute; reflexivity.
Defined.

(** *** Through a file *)



End BertConfigMore.

(** ** get_logger: the directory, the file and the handler *)

Section LoggerMore.
Import Py Tools.

Lemma drop_to_slash_rev_bare (r : str) : 47%N ∉ r → drop_to_slash_rev r = [].
Proof.
  induction r as [|c r IH]; [done|]. intros Hr.
  apply not_elem_of_cons in Hr as [Hc Hr]. cbn.
  destruct (N.eqb_spec c 47); [done|]. by apply IH.
Qed.

(** A path without a slash has no directory part. *)
Lemma dirname_bare (p : str) : 47%N ∉ p → dirname p = [].
Proof.
  intros Hp. unfold dirname. rewrite drop_to_slash_rev_bare; [done|].
  by rewrite elem_of_reverse.
Qed.

Lemma drop_to_slash_rev_length (r : str) :
  (length (drop_to_slash_rev r) ≤ length r)%nat.
Proof.
  induction r as [|c r IH]; [done|]. cbn.
  destruct (c =? 47)%N; cbn; lia.
Qed.

Lemma rstrip_slash_rev_length (r : str) :
  (length (rstrip_slash_rev r) ≤ length r)%nat.
Proof.
  induction r as [|c r IH]; [done|]. cbn.
  destruct (c =? 47)%N; cbn; lia.
Qed.

(** The directory part of a path that ends in [.log] is shorter than the
    path. *)
Lemma dirname_log_shorter (p : str) :
  endswith p (txt ".log") = true → (length (dirname p) < length p)%nat.
Proof.
  intros [q ->]%endswith_spec.
  assert (∃ t, reverse (q ++ txt ".log") = 103%N :: t ∧ length t = (3 + length q)%nat)
    as (t & Et & Ht).
  { exists (txt "ol." ++ reverse q). split.
    - by rewrite reverse_app.
    - rewrite length_app, length_reverse. reflexivity. }
  unfold dirname. rewrite Et. cbn [drop_to_slash_rev].
  change (103 =? 47)%N with false. cbv iota.
  pose proof (drop_to_slash_rev_length t) as Hh.
  pose proof (rstrip_slash_rev_length (drop_to_slash_rev t)) as Hs.
  assert (length (q ++ txt ".log") = (4 + length q)%nat) as ->
    by (rewrite length_app; cbn; lia).
  destruct (rstrip_slash_rev (drop_to_slash_rev t)) eqn:E;
    rewrite length_reverse; cbn [length] in *; lia.
Qed.

(** X5.  For a file name without a directory part [get_logger] never
    returns a logger: when the name does not end in [.log] it raises
    ValueError, and when it does (or is empty) the missing directory part
    is looked up as the empty path, which does not exist, and [os.mkdir]
    of the empty path raises FileNotFoundError.  The state is left as it
    was. *)
Theorem get_logger_bare_file_name
    (name file_path : str) (level : Z) (mode encoding formatter : str)
    (st : log_state) :
  47%N ∉ file_path →
  get_logger name file_path level mode encoding formatter st =
    (st, Raise (if str_truthy file_path && negb (endswith file_path (txt ".log"))
                then ValueError else FileNotFoundError)).
Proof.
  intros Hp. unfold get_logger.
  destruct (str_truthy file_path && negb (endswith file_path (txt ".log"))); [done|].
  by rewrite (dirname_bare _ Hp).
Qed.

Lemma get_logger_bare_file_name_witness :
  get_logger (txt "train") (txt "train.log") INFO (txt "a+") (txt "utf-8")
             LOGGING_FORMATTER {| files := ∅; loggers := ∅ |}
    = ({| files := ∅; loggers := ∅ |}, Raise FileNotFoundError).
Proof.
  apply (get_logger_bare_file_name (txt "train") (txt "train.log")).
  compute_done.
Defined.


(** What the directory step of [get_logger] leaves. *)
Lemma made_directory (fs fs1 : filesystem) (d : str) :
  (if negb (path_exists fs d) then mkdir fs d else Ok fs) = Ok fs1 →
  d ≠ [] ∧ is_Some (fs1 !! d) ∧ ∀ q, q ≠ d → fs1 !! q = fs !! q.
Proof.
  unfold path_exists, mkdir.
  destruct (fs !! d) as [n|] eqn:E; destruct (parent_ok fs d);
    destruct d as [|d0 d']; try done.
  - rewrite bool_decide_eq_true_2 by done. cbn [negb]. intros [= <-]. by rewrite E.
  - rewrite bool_decide_eq_true_2 by done. cbn [negb]. intros [= <-]. by rewrite E.
  - rewrite bool_decide_eq_false_2 by (by intros [? ?]). cbn [negb]. intros [= <-].
    rewrite lookup_insert_eq. split; [done|]. split; [done|].
    intros q Hq. by rewrite lookup_insert_ne.
Qed.



(** X7.  A call for a name whose logger already has a handler sets the
    level of the logger to the new [level] and leaves its handlers as
    they are; [file_path] is checked for its suffix and its directory is
    made when missing, but the file itself is not opened: the entry at
    [file_path] is what it was, and [mode], [encoding] and [formatter] are
    ignored. *)
Theorem get_logger_existing_name
    (name file_path : str) (level : Z) (mode encoding formatter : str)
    (st st' : log_state) (k : str) (l : logger) :
  loggers st !! logger_key name = Some l →
  handlers l ≠ [] →
  get_logger name file_path level mode encoding formatter st = (st', Ok k) →
  k = logger_key name ∧
  loggers st' !! k =
    Some {| propagate := false; level := level; handlers := handlers l |} ∧
  files st' !! file_path = files st !! file_path ∧
  (∀ q, q ≠ dirname file_path → files st' !! q = files st !! q) ∧
  (∀ mode' encoding' formatter',
     get_logger name file_path level mode' encoding' formatter' st = (st', Ok k)).
Proof.
  intros Hl Hh. unfold get_logger.
  destruct (str_truthy file_path && negb (endswith file_path (txt ".log"))) eqn:Hsuf;
    [done|].
  destruct (if negb _ then _ else _) as [fs1|e] eqn:Hdir; [|done].
  apply made_directory in Hdir as (Hd & Hd1 & Hframe1).
  unfold getLogger. rewrite Hl. cbn [handlers].
  destruct (handlers l) as [|h hs] eqn:E; [done|].
  intros [= <- <-]. cbn [files loggers].
  assert (file_path ≠ dirname file_path) as Hne.
  { intros E'. destruct file_path as [|c p]; [by rewrite E' in Hd|].
    cbn [str_truthy andb] in Hsuf. apply negb_false_iff in Hsuf.
    pose proof (dirname_log_shorter _ Hsuf) as Hlt. rewrite <- E' in Hlt. lia. }
  split; [done|]. split; [by rewrite lookup_insert_eq|].
  split; [by apply Hframe1|]. split; [done|]. done.
Qed.

Lemma get_logger_existing_name_witness :
  let st0 := {| files := ∅; loggers := ∅ |} in
  let st1 := fst (get_logger (txt "train") (txt "logs/run.log") INFO (txt "a+")
                    (txt "utf-8") LOGGING_FORMATTER st0) in
  let run := get_logger (txt "train") (txt "other/debug.log") 10 (txt "w")
               (txt "utf-8") (txt "%(message)s") st1 in
  loggers (fst run) !! txt "train" =
    Some {| propagate := false; level := 10;
            handlers := [FileHandler (txt "logs/run.log") (txt "a+") (txt "utf-8")
                           INFO LOGGING_FORMATTER] |} ∧
  files (fst run) !! txt "other/debug.log" = None ∧
  files (fst run) !! txt "other" = Some Dir.
Proof.
  intros st0 st1 run.
  destruct (get_logger_existing_name (txt "train") (txt "other/debug.log") 10 (txt "w")
              (txt "utf-8") (txt "%(message)s") st1 (fst run) (txt "train")
              {| propagate := false; level := INFO;
                 handlers := [FileHandler (txt "logs/run.log") (txt "a+") (txt "utf-8")
                                INFO LOGGING_FORMATTER] |})
    as (_ & Hl & Hf & _).
  - vm_compute. reflexivity.
  - discriminate.
  - vm_compute. reflexivity.
  - split; [exact Hl|]. split; [rewrite Hf; vm_compute; reflexivity|].
    vm_compute. reflexivity.
Defined.
End LoggerMore.

(** ** save_model_config: failures, and reading back with get_model_config *)

Section ConfigMore.
Import Py Json JsonValues Tools.

Abbreviation doc := (text_of false 4 false 0).

(** X8.  When the file at [config_path] cannot be loaded (it is not
    readable, is a directory, or holds text that is not JSON),
    [save_model_config] returns False and changes nothing: the file keeps
    its content and the caller's dict gets no stamp, so the next call
    finds the same file and fails in the same way; [get_model_config]
    answers with the empty mapping all along. *)
Theorem save_model_config_unloadable
    (key model_desc : str) (model_config : nat) (config_path : str)
    (now : datetime) (st : config_state) (e : exn) :
  load_existing (disk st) config_path = Raise e →
  save_model_config key model_desc model_config config_path now st = (st, false) ∧
  get_model_config key config_path (disk st) = Ok (PyDict []).
Proof.
  intros Hl. split.
  - unfold save_model_config, save_model_config_try. by rewrite Hl.
  - unfold load_existing in Hl. unfold get_model_config.
    destruct (path_exists (disk st) config_path); [|done].
    cbn [negb]. destruct (nonempty (disk st) config_path); [|done].
    cbn [andb] in Hl. by rewrite Hl.
Qed.

Lemma save_model_config_unloadable_witness :
  let st := {| disk := {[ txt "m.json" := File true true (quoted "{'bert': ") ]};
               objects := {[ 1%nat := [(txt "lr", PyInt 3)] ]} |} in
  let now := {| year := 2021; month := 3; day := 9;
                hour := 14; minute := 5; second := 0 |} in
  save_model_config (txt "bert") (txt "run") 1 (txt "m.json") now st = (st, false) ∧
  get_model_config (txt "bert") (txt "m.json") (disk st) = Ok (PyDict []).
Proof.
  intros st now.
  apply (save_model_config_unloadable (txt "bert") (txt "run") 1 (txt "m.json") now st
           JSONDecodeError).
  vm_compute. reflexivity.
Defined.

(** X9.  When the file holds a JSON document that is not an object (a
    list, a number, a string, null), [save_model_config] returns False,
    but only after it has opened the file for writing and stamped the
    caller's dict: the file is left empty, its document is lost, and the
    dict has the two new entries. *)
Theorem save_model_config_not_an_object
    (key model_desc : str) (model_config : nat) (config_path : str)
    (now : datetime) (st : config_state)
    (r : bool) (c0 : N) (text : str) (v : pyval) (d : dict) :
  config_path ≠ [] →
  disk st !! config_path = Some (File r true (c0 :: text)) →
  load_existing (disk st) config_path = Ok v →
  (∀ entries, v ≠ PyDict entries) →
  objects st !! model_config = Some d →
  ∃ st',
    save_model_config key model_desc model_config config_path now st = (st', false) ∧
    disk st' !! config_path = Some (File r true []) ∧
    (∀ p, p ≠ config_path → disk st' !! p = disk st !! p) ∧
    objects st' !! model_config = Some (stamped d now model_desc) ∧
    load_existing (disk st') config_path = Ok (PyDict []).
Proof.
  intros Hp Hfile Hload Hv Hd.
  unfold save_model_config, save_model_config_try. rewrite Hload.
  unfold open_truncate. rewrite Hfile.
  destruct config_path as [|p0 p']; [done|]. rewrite Hd.
  fold (stamped d now model_desc).
  destruct v as [| | | | | | |entries|]; try (by destruct (Hv entries));
    (eexists; split; [reflexivity|]; cbn [disk objects];
     rewrite !lookup_insert_eq; split; [done|];
     split; [intros p Hne; by rewrite lookup_insert_ne|];
     split; [done|];
     unfold load_existing, path_exists, nonempty; rewrite lookup_insert_eq;
     by rewrite andb_false_r).
Qed.

Lemma save_model_config_not_an_object_witness :
  let st := {| disk := {[ txt "m.json" := File true true (txt "[1, 2]") ]};
               objects := {[ 1%nat := [(txt "lr", PyInt 3)] ]} |} in
  let now := {| year := 2021; month := 3; day := 9;
                hour := 14; minute := 5; second := 0 |} in
  ∃ st',
    save_model_config (txt "bert") (txt "run") 1 (txt "m.json") now st = (st', false) ∧
    disk st' !! txt "m.json" = Some (File true true []) ∧
    objects st' !! 1%nat = Some (stamped [(txt "lr", PyInt 3)] now (txt "run")).
Proof.
  intros st now.
  destruct (save_model_config_not_an_object (txt "bert") (txt "run") 1 (txt "m.json")
              now st true 91%N (txt "1, 2]") (PyList [PyInt 1; PyInt 2])
              [(txt "lr", PyInt 3)])
    as (st' & Hs & Hf & _ & Ho & _).
  - discriminate.
  - vm_compute. reflexivity.
  - vm_compute. reflexivity.
  - discriminate.
  - vm_compute. reflexivity.
  - exists st'. done.
Defined.

(** The document of a dict with an entry starts with an opening brace,
    however far the encoder gets. *)
Lemma iterencode_dict_head ea ind sk lvl (d : dict) :
  d ≠ [] →
  ∃ rest ok, iterencode ea ind sk lvl (PyDict d) = ([123%N] :: rest, ok).
Proof.
  intros Hne. cbn [iterencode].
  set (items := map _ d).
  assert ((if sk then sort_items items else items) ≠ []) as Hitems.
  { assert (items ≠ []) by (unfold items; by destruct d).
    destruct sk; [|done]. intros E.
    pose proof (sort_items_perm items) as Hp. rewrite E in Hp.
    by apply Permutation_nil_l in Hp. }
  unfold encode_dict. destruct (if sk then sort_items items else items); [done|].
  unfold andthen at 1. cbn [yield fst snd app]. eauto.
Qed.

Lemma dict_set_nonempty (d : dict) k v : dict_set d k v ≠ [].
Proof. destruct d as [|[k' v'] d]; cbn; [done|]. by destruct (str_eqb k' k). Qed.

Lemma serialisable_dict_set (d : dict) k v :
  serialisable v = false → serialisable (PyDict (dict_set d k v)) = false.
Proof.
  intros Hv. cbn [serialisable]. induction d as [|[k' v'] d IH]; cbn.
  - by rewrite Hv.
  - destruct (str_eqb k' k); cbn; [by rewrite Hv|].
    rewrite IH. apply andb_false_r.
Qed.

(** X10.  When the stamped configuration holds something the encoder
    cannot write (a set, a layer, any foreign object) and the file could
    be opened, [save_model_config] returns False after the damage is done:
    the caller's dict is stamped, and the file, emptied on opening, holds
    the beginning of a document (an opening brace and what was written
    before the encoder stopped) instead of what it had. *)
Theorem save_model_config_unserialisable
    (key model_desc : str) (model_config : nat) (config_path : str)
    (now : datetime) (st : config_state)
    (before d : dict) (fs1 : filesystem) :
  load_existing (disk st) config_path = Ok (PyDict before) →
  open_truncate (disk st) config_path = Ok fs1 →
  objects st !! model_config = Some d →
  serialisable (PyDict (stamped d now model_desc)) = false →
  ∃ st' r w partial,
    save_model_config key model_desc model_config config_path now st = (st', false) ∧
    objects st' !! model_config = Some (stamped d now model_desc) ∧
    disk st' !! config_path = Some (File r w (123%N :: partial)).
Proof.
  intros Hload Hopen Hd Hser.
  unfold save_model_config, save_model_config_try.
  rewrite Hload, Hopen, Hd. fold (stamped d now model_desc).
  set (written := dict_set before key (PyDict (stamped d now model_desc))).
  assert (serialisable (PyDict written) = false) as Hw
    by (by apply serialisable_dict_set).
  rewrite <- (complete_serialisable false 4 false _ 0%nat) in Hw.
  unfold complete in Hw. unfold dump_json.
  destruct (iterencode_dict_head false 4 false 0%nat written)
    as (rest & ok & E); [apply dict_set_nonempty|].
  rewrite E in Hw |- *. cbn [snd] in Hw. subst ok.
  cbn [write_chunks]. change (encodable [123%N]) with true. cbv iota.
  destruct (write_chunks rest) as [t written_all].
  assert (∀ x : result (), (if negb written_all then Raise UnicodeEncodeError
                            else if negb false then Raise TypeError else x)
                           = Raise (if written_all then TypeError else UnicodeEncodeError))
    as Hr by (intros x; by destruct written_all).
  rewrite Hr.
  destruct (fs1 !! config_path) as [[|rd wr c]|];
    eexists _, _, _, t; (split; [reflexivity|]); cbn [disk objects];
    by rewrite !lookup_insert_eq.
Qed.

Lemma save_model_config_unserialisable_witness :
  let st := {| disk := {[ txt "m.json" := File true true (quoted "{'gpt': {'lr': 0.5}}") ]};
               objects := {[ 1%nat := [(txt "lr", PyInt 3);
                                       (txt "layers", PyObject 0)] ]} |} in
  let now := {| year := 2021; month := 3; day := 9;
                hour := 14; minute := 5; second := 0 |} in
  ∃ st' r w partial,
    save_model_config (txt "bert") (txt "run") 1 (txt "m.json") now st = (st', false) ∧
    objects st' !! 1%nat
      = Some (stamped [(txt "lr", PyInt 3); (txt "layers", PyObject 0)] now (txt "run")) ∧
    disk st' !! txt "m.json" = Some (File r w (123%N :: partial)).
Proof.
  intros st now.
  eapply (save_model_config_unserialisable (txt "bert") (txt "run") 1 (txt "m.json")
            now st); vm_compute; reflexivity.
Defined.

(** *** Reading back what was saved *)

(** What a call that returns True leaves, with the flags of the file. *)
Lemma save_model_config_true_file key desc config path now st st' :
  save_model_config key desc config path now st = (st', true) →
  ∃ before d r,
    load_existing (disk st) path = Ok (PyDict before) ∧
    objects st !! config = Some d ∧
    path ≠ [] ∧
    complete false 4 false 0
      (PyDict (dict_set before key (PyDict (stamped d now desc)))) = true ∧
    disk st' !! path
      = Some (File r true (doc (PyDict (dict_set before key (PyDict (stamped d now desc)))))) ∧
    (r = false → ∃ c, disk st !! path = Some (File false true c)) ∧
    (∀ p, p ≠ path → disk st' !! p = disk st !! p).
Proof.
  unfold save_model_config, save_model_config_try.
  destruct (load_existing (disk st) path) as [config_json|e]; [|done].
  unfold open_truncate.
  destruct (disk st !! path) as [[|r [] c]|] eqn:Hfile;
    destruct (parent_ok (disk st) path); destruct path as [|p0 p'] eqn:Hp;
    try done;
    (destruct (objects st !! config) as [d|] eqn:Hd; [|done];
     destruct config_json as [| | | | | | |entries|]; try done;
     fold (stamped d now desc);
     destruct (dump_json _) as [text [[]|err]] eqn:Hdump; [|done];
     apply dump_json_Ok in Hdump as [-> Hok];
     rewrite lookup_insert_eq; intros [= <-]; cbn [disk objects];
     eexists entries, d, _;
     rewrite lookup_insert_eq;
     (split; [done|]); (split; [done|]); (split; [done|]); (split; [done|]);
     (split; [reflexivity|]);
     (split; [try done; intros ->; eauto|]);
     intros p Hne; by rewrite !lookup_insert_ne).
Qed.

(** X11.  After a call of [save_model_config] that returned True on a file
    that can be read, [get_model_config] with the same key returns the
    configuration just saved, as JSON gives it back (with its two stamps;
    tuples as lists), and with any other key what it would have returned
    from the file before the save: the entry that was there, or the empty
    mapping. *)
Theorem save_then_get_model_config
    (key model_desc : str) (model_config : nat) (config_path : str)
    (now : datetime) (st st' : config_state) :
  heap_ok (objects st) →
  (∀ w c, disk st !! config_path ≠ Some (File false w c)) →
  save_model_config key model_desc model_config config_path now st = (st', true) →
  ∃ d before,
    objects st !! model_config = Some d ∧
    load_existing (disk st) config_path = Ok (PyDict before) ∧
    get_model_config key config_path (disk st')
      = Ok (as_json false (PyDict (stamped d now model_desc))) ∧
    (∀ k, k ≠ key →
       get_model_config k config_path (disk st')
         = Ok (default (PyDict []) (dict_get before k))).
Proof.
  intros Hheap Hreadable Hsave.
  destruct (save_model_config_true_file _ _ _ _ _ _ _ Hsave)
    as (before & d & r & Hload & Hd & Hp & Hok & Hfile & Hr & _).
  assert (r = true) as ->.
  { destruct r; [done|]. destruct (Hr eq_refl) as [c Hc]. by destruct (Hreadable true c). }
  set (written := dict_set before key (PyDict (stamped d now model_desc))) in *.
  assert (well_formed (PyDict written) = true) as Hwf.
  { apply well_formed_dict_set.
    - by apply (load_existing_decoded _ _ _ Hload).
    - apply well_formed_stamped. by eapply Hheap. }
  assert (loads (doc (PyDict written)) = Some (as_json false (PyDict written))) as Hl
    by (by apply loads_text).
  assert (∀ k, get_model_config k config_path (disk st')
               = Ok (default (PyDict []) (as_json false <$> dict_get written k))) as Hget.
  { intros k. unfold get_model_config, path_exists, load_json, read_text.
    rewrite Hfile. destruct config_path as [|p0 p']; [done|].
    rewrite bool_decide_eq_true_2 by done. cbn [negb]. rewrite Hl.
    cbn [as_json]. rewrite dict_get_map. by destruct (dict_get written k). }
  exists d, before. split; [done|]. split; [done|]. split.
  - rewrite Hget. unfold written. by rewrite dict_get_set_eq.
  - intros k Hk. rewrite Hget. unfold written. rewrite dict_get_set_ne by done.
    by rewrite (decoded_get before k (load_existing_decoded _ _ _ Hload)).
Qed.

Lemma save_then_get_model_config_witness :
  let st := {| disk := {[ txt "m.json" := File true true (quoted "{'gpt': {'lr': 0.5}}") ]};
               objects := {[ 2%nat := [(txt "layers", PyTuple [PyInt 12; PyInt 6])] ]} |} in
  let now := {| year := 2021; month := 3; day := 10;
                hour := 0; minute := 59; second := 7 |} in
  let st' := fst (save_model_config (txt "bert") (txt "second run") 2 (txt "m.json") now st) in
  get_model_config (txt "bert") (txt "m.json") (disk st')
    = Ok (PyDict [(txt "layers", PyList [PyInt 12; PyInt 6]);
                  (txt "execute_time", PyStr (txt "2021-03-10 00:59:07"));
                  (txt "model_desc", PyStr (txt "second run"))]) ∧
  get_model_config (txt "gpt") (txt "m.json") (disk st')
    = Ok (PyDict [(txt "lr", PyFloat (FRepr (txt "0.5")))]) ∧
  get_model_config (txt "t5") (txt "m.json") (disk st') = Ok (PyDict []).
Proof.
  intros st now st'.
  destruct (save_then_get_model_config (txt "bert") (txt "second run") 2 (txt "m.json")
              now st st')
    as (d & before & Hd & Hb & Hkey & Hother).
  - intros l d Hl. cbn [st objects] in Hl.
    apply lookup_singleton_Some in Hl as [_ <-]. reflexivity.
  - intros w c Hc. vm_compute in Hc. discriminate Hc.
  - vm_compute. reflexivity.
  - assert (d = [(txt "layers", PyTuple [PyInt 12; PyInt 6])]) as ->.
    { assert (objects st !! 2%nat = Some [(txt "layers", PyTuple [PyInt 12; PyInt 6])])
        as E by (vm_compute; reflexivity).
      pose proof (eq_trans (eq_sym Hd) E) as E'. by injection E'. }
    assert (before = [(txt "gpt", PyDict [(txt "lr", PyFloat (FRepr (txt "0.5")))])]) as ->.
    { assert (load_existing (disk st) (txt "m.json")
              = Ok (PyDict [(txt "gpt", PyDict [(txt "lr", PyFloat (FRepr (txt "0.5")))])]))
        as E by (vm_compute; reflexivity).
      pose proof (eq_trans (eq_sym Hb) E) as E'. by injection E'. }
    split; [rewrite Hkey; reflexivity|].
    split; rewrite Hother by discriminate; reflexivity.
Defined.
End ConfigMore.

(** ** PositionEmbedding: the default positions, and the bounds *)

Section PositionEmbeddingMore.
Import Py Tensor PositionEmbedding.
Context {T : Type} `{Scalar T}.

(** A tensor with one item along the first axis is combined with every
    item of the other. *)
Lemma bcast_single {A B C} (f : A → B → option C) (xs : list A) (y : B) :
  bcast f xs [y] = mapM (λ x, f x y) xs.
Proof.
  unfold bcast. case_bool_decide as Hl.
  - by destruct xs as [|x [|x' xs]].
  - by destruct xs as [|x [|x' xs]].
Qed.

Lemma bcast_zip {A B C} (f : A → B → option C) (g : A → B → C)
    (xs : list A) (ys : list B) :
  Forall2 (λ a b, f a b = Some (g a b)) xs ys →
  bcast f xs ys = Some (zip_with g xs ys).
Proof.
  intros Hf. unfold bcast.
  rewrite bool_decide_eq_true_2 by (by eapply Forall2_length).
  induction Hf as [|a b xs ys Hab _ IH]; [done|].
  cbn. rewrite Hab. cbn.
  fold (mapM (λ p : A * B, f p.1 p.2) (zip xs ys)). by rewrite IH.
Qed.

Lemma zip_exact_zip {A B C} (g : A → B → C) (f : A → B → option C)
    (xs : list A) (ys : list B) :
  Forall2 (λ a b, f a b = Some (g a b)) xs ys →
  zip_exact f xs ys = Some (zip_with g xs ys).
Proof.
  intros Hf. unfold zip_exact.
  rewrite bool_decide_eq_true_2 by (by eapply Forall2_length).
  induction Hf as [|a b xs ys Hab _ IH]; [done|].
  cbn. rewrite Hab. cbn.
  fold (mapM (λ p : A * B, f p.1 p.2) (zip xs ys)). by rewrite IH.
Qed.

Lemma Forall2_same_length {A B} (P : A → Prop) (Q : B → Prop) (xs : list A) (ys : list B) :
  length xs = length ys → Forall P xs → Forall Q ys →
  Forall2 (λ a b, P a ∧ Q b) xs ys.
Proof.
  intros Hl Hx. revert ys Hl.
  induction Hx as [|x xs Hx _ IH]; intros [|y ys] Hl Hy; try done.
  apply Forall_cons in Hy as [Hy Hys]. constructor; [done|].
  apply IH; [by injection Hl|done].
Qed.

(** Two matrices of the same shape are combined entry by entry. *)
Lemma bop2_same (op : T → T → T) (x y : list (list T)) (n : nat) :
  length x = length y →
  Forall (λ row, length row = n) x → Forall (λ row, length row = n) y →
  bop2 op x y = Some (zip_with (zip_with op) x y).
Proof.
  intros Hl Hx Hy. unfold bop2. apply bcast_zip.
  eapply Forall2_impl; [by apply Forall2_same_length|].
  intros a b [Ha Hb]. cbn beta in *. apply bop1_same. congruence.
Qed.

Lemma mapM_fails {A B} (f : A → option B) (l : list A) (x : A) :
  x ∈ l → f x = None → mapM f l = None.
Proof.
  intros Hx Hf. apply mapM_None_2. apply Exists_exists. eauto.
Qed.

(** X12.  Without custom position ids and without the hierarchical
    decomposition, for a batch of sequences of one length [seq_len] that
    the table covers and vectors as long as the rows of the table, [call]
    merges position [s] of every sequence with row [s] of the table: with
    add it returns [x + E[s]], with mul [x * (E[s] + 1)], and with any
    mode other than add, mul and zero the vector [x] followed by
    [E[s]].  With zero it returns the rows [E[:seq_len]] once, as a batch
    of one, whatever the size of the batch. *)
Theorem call_default_positions
    (self : layer T) (inputs : list (list (list T))) (seq_len dim : nat) :
  custom_position_ids self = false →
  hierarchical_enabled (hierarchical self) = false →
  Forall (λ x, length x = seq_len ∧ Forall (λ row, length row = dim) x) inputs →
  (seq_len ≤ length (embeddings self))%nat →
  Forall (λ row, length row = dim) (embeddings self) →
  let rows := take seq_len (embeddings self) in
  (merge_mode self = txt "add" →
   call self (Inputs inputs)
     = Some (map (λ x, zip_with (zip_with s_add) x rows) inputs)) ∧
  (merge_mode self = txt "mul" →
   call self (Inputs inputs)
     = Some (map (λ x, zip_with (zip_with s_mul) x
                         (map (map (λ e, s_add e s_one)) rows)) inputs)) ∧
  (merge_mode self ≠ txt "add" → merge_mode self ≠ txt "mul" →
   merge_mode self ≠ txt "zero" →
   call self (Inputs inputs)
     = Some (map (λ x, zip_with app x rows) inputs)) ∧
  (merge_mode self = txt "zero" → inputs ≠ [] →
   call self (Inputs inputs) = Some [rows]).
Proof.
  intros Hc Hh Hin Hlen Hrows rows.
  assert (length (hd [] inputs) = seq_len ∨ inputs = []) as Hseq.
  { destruct inputs as [|x0 r]; [by right|]. left.
    apply Forall_cons in Hin as [[? _] _]. done. }
  assert (call self (Inputs inputs) =
          merge self (length inputs) inputs [take (length (hd [] inputs)) (embeddings self)])
    as Hcall.
  { unfold call, unpack, position_embeddings. rewrite Hc, Hh. cbn.
    unfold range. by rewrite length_map, length_seq. }
  rewrite Hcall. clear Hcall.
  assert (length rows = seq_len) as Hrl by (unfold rows; rewrite length_take; lia).
  assert (Forall (λ row, length row = dim) rows) as Hrr
    by (unfold rows; by apply Forall_take).
  destruct Hseq as [Hseq | ->].
  2:{ unfold merge. cbn [length hd take map].
      split; [|split; [|split]]; [by intros ->|by intros ->| |by intros _ []].
      intros. rewrite !str_eqb_ne by done. rewrite Hc. reflexivity. }
  rewrite Hseq. fold rows. unfold merge. split; [|split; [|split]]; [| | |by intros ->].
  - intros ->. rewrite str_eqb_refl. unfold bop3. rewrite bcast_single.
    apply mapM_total. eapply Forall_impl; [exact Hin|]. intros x [Hx Hxr]. cbn beta.
    apply (bop2_same s_add x rows dim); [congruence|done|done].
  - intros ->. change (str_eqb (txt "mul") (txt "add")) with false.
    rewrite str_eqb_refl. cbv iota. unfold bop3, smap3. cbn [map]. rewrite bcast_single.
    apply mapM_total. eapply Forall_impl; [exact Hin|]. intros x [Hx Hxr]. cbn beta.
    apply (bop2_same s_mul x _ dim); [by rewrite length_map; congruence|done|].
    apply Forall_map. eapply Forall_impl; [exact Hrr|].
    intros row Hrow. cbn beta. by rewrite length_map.
  - intros H1 H2 H3. rewrite !str_eqb_ne by done. rewrite Hc. cbn [negb].
    unfold tile0, concat_last.
    match goal with
    | |- zip_exact _ _ ?t = _ => assert (t = map (λ _, rows) inputs) as ->
    end.
    { clear. induction inputs as [|x r IH]; [done|]. cbn. by rewrite IH. }
    assert (∀ l : list (list (list T)),
              Forall (λ x, length x = seq_len) l →
              zip_exact (zip_exact (λ u v : vec, Some (u ++ v))) l (map (λ _, rows) l)
              = Some (map (λ x, zip_with app x rows) l)) as Hz.
    { intros l Hl. rewrite (zip_exact_zip (zip_with app)).
      - f_equal. clear. induction l as [|x r IH]; [done|]. cbn. by rewrite IH.
      - induction Hl as [|x r Hx _ IH]; [constructor|]. cbn [map]. constructor; [|done].
        apply zip_exact_zip. apply Forall2_true; [done|].
        etrans; [exact Hx|symmetry; exact Hrl]. }
    apply Hz. eapply Forall_impl; [exact Hin|]. by intros x [? _].
Qed.

(** X13.  Without custom position ids and without the hierarchical
    decomposition, a batch whose sequences are longer than the table (of
    two rows or more) is an error with every merge mode but zero: the
    shapes of the inputs and of the embedding do not agree.  With zero
    the call returns the whole table as the embedding. *)
Theorem call_sequence_longer_than_table
    (self : layer T) (x0 : list (list T)) (rest : list (list (list T))) :
  custom_position_ids self = false →
  hierarchical_enabled (hierarchical self) = false →
  (2 ≤ length (embeddings self) < length x0)%nat →
  (merge_mode self ≠ txt "zero" → call self (Inputs (x0 :: rest)) = None) ∧
  (merge_mode self = txt "zero" →
   call self (Inputs (x0 :: rest)) = Some [embeddings self]).
Proof.
  intros Hc Hh Hlen.
  assert (call self (Inputs (x0 :: rest)) =
          merge self (S (length rest)) (x0 :: rest) [embeddings self]) as ->.
  { unfold call, unpack, position_embeddings. rewrite Hc, Hh. cbn.
    unfold range. rewrite length_map, length_seq.
    by rewrite take_ge by lia. }
  set (E := embeddings self) in *.
  assert (∀ {A B C} (f : A → B → option C) (xs : list A) (ys : list B),
            (2 ≤ length ys < length xs)%nat → bcast f xs ys = None) as Hb.
  { intros A B C f xs ys Hl. unfold bcast.
    rewrite bool_decide_eq_false_2 by lia.
    destruct xs as [|a [|a' xs]], ys as [|b [|b' ys]]; cbn in *; (done || lia). }
  unfold merge. split.
  - intros Hz.
    destruct (str_eqb (merge_mode self) (txt "add")).
    { unfold bop3. rewrite bcast_single.
      apply (mapM_fails _ _ x0); [apply list_elem_of_here|]. by apply Hb. }
    destruct (str_eqb (merge_mode self) (txt "mul")).
    { unfold bop3, smap3. cbn [map]. rewrite bcast_single.
      apply (mapM_fails _ _ x0); [apply list_elem_of_here|].
      apply Hb. by rewrite length_map. }
    rewrite str_eqb_ne by done. rewrite Hc. cbn [negb].
    unfold tile0, concat_last, zip_exact at 1.
    case_bool_decide as Hl; [|done].
    cbn [replicate concat app zip mapM fst snd].
    assert (zip_exact (λ u v : vec, Some (u ++ v)) x0 E = None) as ->; [|done].
    unfold zip_exact. rewrite bool_decide_eq_false_2; [done|].
    intros Heq. assert (length x0 = length E) as Heq' by exact Heq. lia.
  - intros ->. reflexivity.
Qed.

(** X14.  With the hierarchical decomposition the bound of the position
    ids is sharp: as soon as one id is negative or at least
    [input_dim^2], a lookup falls outside the table and the call is an
    error, whatever the merge mode. *)
Theorem hierarchical_position_out_of_range
    (self : layer T) (inputs : list (list (list T)))
    (position_ids : list (list Z)) (ids : list Z) (p : Z) :
  custom_position_ids self = true →
  hierarchical_enabled (hierarchical self) = true →
  0 < input_dim self →
  length (embeddings self) = Z.to_nat (input_dim self) →
  Forall (λ row, length row = Z.to_nat (output_dim self)) (embeddings self) →
  ids ∈ position_ids → p ∈ ids →
  p < 0 ∨ input_dim self ^ 2 ≤ p →
  position_embeddings self position_ids = None ∧
  call self (InputsWithIds inputs position_ids) = None.
Proof.
  intros Hc Hen Hd Hlen Hrows Hids Hp Hout.
  assert (position_embeddings self position_ids = None) as Hpe.
  { unfold position_embeddings. rewrite Hen.
    rewrite (rescaled_rows _ (embeddings self) (Z.to_nat (output_dim self)));
      [|intros E; rewrite E in Hlen; cbn in Hlen; lia|done].
    cbn [mbind option_bind]. unfold floordiv.
    rewrite bool_decide_eq_false_2 by lia. cbn [mbind option_bind].
    set (E' := map _ (embeddings self)).
    assert (gather E' (map (map (λ q, q / input_dim self)) position_ids) = None) as ->;
      [|done].
    unfold gather.
    apply (mapM_fails _ _ (map (λ q, q / input_dim self) ids)).
    { apply list_elem_of_fmap. eauto. }
    apply (mapM_fails _ _ (p / input_dim self)).
    { apply list_elem_of_fmap. eauto. }
    unfold index. case_bool_decide as Hq; [|done].
    apply lookup_ge_None_2. unfold E'. rewrite length_map, Hlen.
    destruct Hout as [Hneg|Hbig].
    - exfalso. assert (p / input_dim self < 0); [|lia].
      apply Z.div_lt_upper_bound; lia.
    - assert (input_dim self ≤ p / input_dim self); [|lia].
      apply Z.div_le_lower_bound; [done|]. nia. }
  split; [done|]. unfold call, unpack. rewrite Hc. cbn. by rewrite Hpe.
Qed.
End PositionEmbeddingMore.

Section PositionEmbeddingMoreWitnesses.
Import Py Tensor PositionEmbedding PositionEmbeddingExamples.

Lemma call_default_positions_witness :
  let self := {| input_dim := 4; output_dim := 1; merge_mode := txt "add";
                 hierarchical := HNone; custom_position_ids := false;
                 embeddings := table_4x1 |} in
  call self (Inputs batch_2x2x1) = Some [[[11]; [22]]; [[31]; [42]]]%float.
Proof.
  intros self.
  destruct (call_default_positions self batch_2x2x1 2 1) as [Hadd _].
  - reflexivity.
  - reflexivity.
  - repeat constructor.
  - cbn. lia.
  - repeat constructor.
  - rewrite Hadd by reflexivity. vm_compute. reflexivity.
Defined.

Lemma call_sequence_longer_than_table_witness :
  let self := {| input_dim := 2; output_dim := 1; merge_mode := txt "add";
                 hierarchical := HNone; custom_position_ids := false;
                 embeddings := [[1]; [2]]%float |} in
  call self (Inputs [[[10]; [20]; [30]]]%float) = None.
Proof.
  intros self.
  apply (call_sequence_longer_than_table self [[10]; [20]; [30]]%float []).
  - reflexivity.
  - reflexivity.
  - cbn. lia.
  - discriminate.
Defined.

Lemma hierarchical_position_out_of_range_witness :
  let self := {| input_dim := 4; output_dim := 1; merge_mode := txt "zero";
                 hierarchical := HBool true; custom_position_ids := true;
                 embeddings := table_4x1 |} in
  position_embeddings self [[0; 15]; [16; 3]] = None ∧
  call self (InputsWithIds batch_2x2x1 [[0; 15]; [16; 3]]) = None.
Proof.
  intros self.
  apply (hierarchical_position_out_of_range self batch_2x2x1
           [[0; 15]; [16; 3]] [16; 3] 16).
  - reflexivity.
  - reflexivity.
  - reflexivity.
  - reflexivity.
  - repeat constructor.
  - set_solver.
  - set_solver.
  - right. cbn. lia.
Defined.
End PositionEmbeddingMoreWitnesses.

(** ** BertOutput.__init__ *)

Section BertOutputInit.
Import Py BertOutput BertOutputKeywords.
Context {V : Type}.

Lemma is_Some_None_false {A : Type} : bool_decide (is_Some (@None A)) = false.
Proof. apply bool_decide_eq_false_2. by intros [? ?]. Qed.

(** The five deletions in a row. *)
Lemma del_chain {A : Type} (kwargs : gmap str V) (f : gmap str V → A) :
  (kw ← del (V := V) (txt "hidden_size") kwargs;
   kw ← del (V := V) (txt "embedding_size") kw;
   kw ← del (V := V) (txt "hidden_act") kw;
   kw ← del (V := V) (txt "layer_norm_eps") kw;
   kw ← del (V := V) (txt "token_embeddings") kw;
   Some (f kw))
  = if all_present kwargs then Some (f (without_five kwargs)) else None.
Proof.
  unfold all_present, without_five, del.
  destruct (kwargs !! txt "hidden_size") eqn:E1; cbn [mbind option_bind];
    [|by rewrite (is_Some_None_false (A := V))].
  rewrite lookup_delete_ne by done.
  destruct (kwargs !! txt "embedding_size") eqn:E2; cbn [mbind option_bind];
    [|by rewrite (is_Some_None_false (A := V)), ?andb_false_r].
  rewrite !lookup_delete_ne by done.
  destruct (kwargs !! txt "hidden_act") eqn:E3; cbn [mbind option_bind];
    [|by rewrite (is_Some_None_false (A := V)), ?andb_false_r].
  rewrite !lookup_delete_ne by done.
  destruct (kwargs !! txt "layer_norm_eps") eqn:E4; cbn [mbind option_bind];
    [|by rewrite (is_Some_None_false (A := V)), ?andb_false_r].
  rewrite !lookup_delete_ne by done.
  destruct (kwargs !! txt "token_embeddings") eqn:E5; cbn [mbind option_bind];
    [|by rewrite (is_Some_None_false (A := V)), ?andb_false_r].
  by rewrite !bool_decide_eq_true_2 by done.
Qed.

(** X15.  [BertOutput.__init__] gets past its assertions and deletions
    exactly when one of [with_pool], [with_mlm] is set and all five of
    [hidden_size], [embedding_size], [hidden_act], [layer_norm_eps] and
    [token_embeddings] are among the keyword arguments, whichever heads
    were asked for: the five are deleted without a test.  What it then
    passes on to the constructor of the base class is the keyword
    arguments without these five. *)
Theorem BertOutput_init_needs_all_keywords
    (with_pool with_nsp with_mlm : flag) (kwargs : gmap str V) :
  (is_Some (init with_pool with_nsp with_mlm kwargs) ↔
   (truthy with_pool || truthy with_mlm) && all_present kwargs = true) ∧
  (∀ self, init with_pool with_nsp with_mlm kwargs = Some self →
           layer_kwargs self = without_five kwargs).
Proof.
  unfold init. rewrite del_chain.
  destruct (truthy with_pool || truthy with_mlm) eqn:Hflag; cbn [negb andb].
  2:{ split; [|done]. split; [by intros [? ?]|done]. }
  destruct (all_present kwargs) eqn:Hall.
  - unfold all_present in Hall.
    apply andb_true_iff in Hall as [[[[H1 H2]%andb_true_iff H3]%andb_true_iff
                                     H4]%andb_true_iff H5].
    rewrite H1, H2, H3, H4, H5. cbn [negb andb]. rewrite !andb_false_r.
    split; [split; [done|eauto]|]. by intros self [= <-].
  - split; [|intros self; by repeat case_match].
    split; [|done]. repeat case_match; by intros [? ?].
Qed.

(** The call one would write for a pooled output alone fails. *)
Example BertOutput_init_pool_only (hidden_size : V) :
  init (FBool true) (FBool false) (FBool false) {[ txt "hidden_size" := hidden_size ]}
    = None.
Proof. reflexivity. Qed.
End BertOutputInit.

(** ** BertSelfAttention.transpose_for_scores: the batch that does not fit *)

Section BertSelfAttentionMore.
Import Shape Buffer BertSelfAttention.

(** X16.  [transpose_for_scores] reshapes with the configured
    [batch_size]: a tensor of [b] sequences of length [seq] is an error as
    soon as [batch_size] does not divide [b * seq], as for the smaller
    last batch of a data set. *)
Theorem transpose_for_scores_indivisible {T : Type}
    (self : layer) (t : tensor T) (size b seq : Z) :
  0 < batch_size self → 0 < num_heads self → 0 < size →
  dims t = [b; seq; size * num_heads self] →
  (b * seq) mod batch_size self ≠ 0 →
  transpose_for_scores self t size = None.
Proof.
  intros Hbs Hnh Hsize Hdims Hmod.
  unfold transpose_for_scores, reshape, Shape.reshape. rewrite Hdims.
  rewrite bool_decide_eq_false_2.
  2:{ rewrite !Exists_cons, Exists_nil. lia. }
  assert (filter (λ d, d ≠ -1) [batch_size self; -1; num_heads self; size]
          = [batch_size self; num_heads self; size]) as ->.
  { rewrite !filter_cons, filter_nil. repeat case_decide; (lia || done). }
  cbn [length Nat.sub numel fold_right].
  assert (batch_size self * (num_heads self * (size * 1))
          = batch_size self * (size * num_heads self)) as -> by lia.
  assert (b * (seq * (size * num_heads self * 1))
          = b * seq * (size * num_heads self)) as -> by lia.
  rewrite bool_decide_eq_false_2 by nia.
  rewrite Z.mul_mod_distr_r by nia.
  rewrite bool_decide_eq_false_2 by nia. done.
Qed.

Lemma transpose_for_scores_indivisible_witness :
  transpose_for_scores (init 12 64 32 0x1.999999999999ap-4%float true None None)
    {| dims := [7; 100; 64 * 12]; elems := replicate (Z.to_nat (7 * 100 * (64 * 12))) 0 |}
    64 = None.
Proof.
  apply (transpose_for_scores_indivisible
           (init 12 64 32 0x1.999999999999ap-4%float true None None) _ 64 7 100);
    (reflexivity || (intros E; vm_compute in E; discriminate E)).
Defined.
End BertSelfAttentionMore.

(** ** Embedding.compute_mask *)

Section EmbeddingFacts.
Import Embedding.

Lemma lookup_map {A B} (f : A → B) (l : list A) (i : nat) :
  map f l !! i = f <$> l !! i.
Proof. revert i. induction l as [|x l IH]; intros [|i]; cbn; auto. Qed.

(** X17.  On a batch of sequences of token ids, with [mask_zero],
    [compute_mask] returns a mask of the shape of the batch in which the
    first position of every sequence is True, whatever its id, and every
    later position is True exactly when its id is not 0; without
    [mask_zero] it returns None.  On inputs of another rank it hands back
    the mask it was given. *)
Theorem compute_mask_first_token {X M} (mask_zero : bool) (ids : list (list Z))
    (x : X) (mask : option M) :
  (∃ m, compute_mask (X := X) true (Rank2 ids) mask = Computed m ∧
        length m = length ids ∧
        ∀ b row, ids !! b = Some row →
          ∃ mrow, m !! b = Some mrow ∧ length mrow = length row ∧
                  (row ≠ [] → mrow !! 0%nat = Some true) ∧
                  ∀ j i, row !! S j = Some i → mrow !! S j = Some (negb (i =? 0))) ∧
  compute_mask (X := X) false (Rank2 ids) mask = NoMask ∧
  compute_mask mask_zero (OtherRank x) mask
    = match mask with Some m => Passed m | None => NoMask end.
Proof.
  split; [|done].
  set (G := λ row : list Z,
         match row with [] => [] | _ :: r => true :: map (λ i, negb (i =? 0)) r end).
  assert (compute_mask (X := X) true (Rank2 ids) mask = Computed (map G ids)) as ->.
  { unfold compute_mask, keras_compute_mask. f_equal.
    induction ids as [|row ids IH]; [done|]. cbn [map zip_with]. rewrite IH.
    f_equal. by destruct row. }
  eexists. split; [reflexivity|]. split; [by rewrite length_map|].
  intros b row Hrow. exists (G row). split.
  - rewrite (lookup_map G ids b). by rewrite Hrow.
  - destruct row as [|i0 r]; [done|]. cbn [G length]. rewrite length_map.
    split; [done|]. split; [done|].
    intros j i Hj.
    change (r !! j = Some i) in Hj.
    change (map (λ i, negb (i =? 0)) r !! j = Some (negb (i =? 0))).
    rewrite (lookup_map (λ i, negb (i =? 0)) r j). by rewrite Hj.
Qed.
End EmbeddingFacts.

(** ** get_config and the constructor *)

Section LayerConfigFacts.
Import Py Tools LayerConfig.

Lemma dict_get_filter_in (ks : list str) (d : list (str * pyval)) (k : str) :
  dict_get (filter (λ kv, fst kv ∈ ks) d) k
  = if decide (k ∈ ks) then dict_get d k else None.
Proof.
  induction d as [|[k' v] d IH]; [by destruct (decide (k ∈ ks))|].
  rewrite filter_cons. cbn [fst dict_get].
  destruct (decide (k' ∈ ks)) as [Hk'|Hk']; cbn [dict_get].
  - destruct (str_eqb k' k) eqn:E; [|exact IH].
    apply str_eqb_eq in E as <-. rewrite decide_True by done. done.
  - rewrite IH. destruct (str_eqb k' k) eqn:E; [|done].
    apply str_eqb_eq in E as <-. rewrite !decide_False by done. done.
Qed.

Lemma dict_get_filter_notin (ks : list str) (d : list (str * pyval)) (k : str) :
  dict_get (filter (λ kv, fst kv ∉ ks) d) k
  = if decide (k ∉ ks) then dict_get d k else None.
Proof.
  induction d as [|[k' v] d IH]; [by destruct (decide (k ∉ ks))|].
  rewrite filter_cons. cbn [fst dict_get].
  destruct (decide (k' ∉ ks)) as [Hk'|Hk']; cbn [dict_get].
  - destruct (str_eqb k' k) eqn:E; [|exact IH].
    apply str_eqb_eq in E as <-. rewrite decide_True by done. done.
  - rewrite IH. destruct (str_eqb k' k) eqn:E; [|done].
    apply str_eqb_eq in E as <-. rewrite !decide_False by done. done.
Qed.

(** X18.  The config that [BertSelfAttention.get_config] returns has no
    entry for [batch_size], a parameter the constructor requires: calling
    the constructor with the entries of the config, as [from_config]
    does, is a TypeError, for every layer. *)
Theorem BertSelfAttention_config_lacks_batch_size
    (self : BertSelfAttention.layer) (attention_dropout initializer : pyval)
    (base_config : dict) :
  dict_get base_config (txt "batch_size") = None →
  dict_get (BertSelfAttention_get_config self attention_dropout initializer base_config)
    (txt "batch_size") = None ∧
  bind BertSelfAttention_required BertSelfAttention_optional
    (BertSelfAttention_get_config self attention_dropout initializer base_config)
    = Raise TypeError.
Proof.
  intros Hbase.
  assert (dict_get (BertSelfAttention_get_config self attention_dropout initializer
                      base_config) (txt "batch_size") = None) as Hnone.
  { unfold BertSelfAttention_get_config. rewrite dict_get_update by compute_done.
    exact Hbase. }
  split; [done|]. unfold bind, BertSelfAttention_required.
  cbn [forallb]. rewrite Hnone.
  rewrite (bool_decide_eq_false_2 (is_Some None)) by (by intros [? ?]).
  cbn [andb]. by rewrite !andb_false_r.
Qed.

Lemma BertSelfAttention_config_lacks_batch_size_witness :
  bind BertSelfAttention_required BertSelfAttention_optional
    (BertSelfAttention_get_config
       (BertSelfAttention.init 12 64 32 0x1.999999999999ap-4%float true None None)
       (PyFloat (FRepr (txt "0.1"))) (PyStr (txt "glorot_uniform"))
       [(txt "name", PyStr (txt "attention")); (txt "trainable", PyBool true);
        (txt "dtype", PyStr (txt "float32"))])
    = Raise TypeError.
Proof.
  apply (BertSelfAttention_config_lacks_batch_size
           (BertSelfAttention.init 12 64 32 0x1.999999999999ap-4%float true None None)).
  reflexivity.
Defined.

(** X19.  The config that [PositionEmbedding.get_config] returns holds
    the merge mode under the key [merge_model], which is no parameter of
    the constructor.  Calling the constructor with the entries of the
    config, as [from_config] does, binds the parameters the config names
    and hands [merge_model] on to the constructor of the base class among
    the other keyword arguments, which refuses it: the call is a
    TypeError, for every layer. *)
Theorem PositionEmbedding_config_rejected
    (input_dim output_dim : Z) (merge_mode : str) (hierarchical : pyval)
    (embeddings_initializer : pyval) (custom_position_ids : bool)
    (base_config : dict) :
  let config := PositionEmbedding_get_config input_dim output_dim merge_mode
                  hierarchical embeddings_initializer custom_position_ids base_config in
  dict_get config (txt "merge_model") = Some (PyStr merge_mode) ∧
  dict_get config (txt "merge_mode") = dict_get base_config (txt "merge_mode") ∧
  (∃ bound kwargs,
     bind PositionEmbedding_required PositionEmbedding_optional config
       = Ok (bound, kwargs) ∧
     dict_get kwargs (txt "merge_model") = Some (PyStr merge_mode) ∧
     keras_layer_init kwargs = Raise TypeError) ∧
  PositionEmbedding_init config = Raise TypeError.
Proof.
  intros config.
  assert (∀ k, dict_get config k =
               match dict_get [ (txt "input_dim", PyInt input_dim);
                                (txt "output_dim", PyInt output_dim);
                                (txt "merge_model", PyStr merge_mode);
                                (txt "hierarchical", hierarchical);
                                (txt "embeddings_initializer", embeddings_initializer);
                                (txt "custom_position_ids", PyBool custom_position_ids) ] k
               with Some v => Some v | None => dict_get base_config k end) as Hget.
  { intros k. unfold config, PositionEmbedding_get_config.
    by rewrite dict_get_update by compute_done. }
  split; [by rewrite Hget|]. split; [by rewrite Hget|].
  set (kwargs := filter (λ kv, fst kv ∉ PositionEmbedding_required
                                          ++ PositionEmbedding_optional) config).
  assert (bind PositionEmbedding_required PositionEmbedding_optional config
          = Ok (filter (λ kv, fst kv ∈ PositionEmbedding_required
                                         ++ PositionEmbedding_optional) config,
                kwargs)) as Hbind.
  { unfold bind. cbn [forallb PositionEmbedding_required].
    rewrite !Hget. cbn [dict_get].
    change (str_eqb (txt "input_dim") (txt "input_dim")) with true.
    change (str_eqb (txt "input_dim") (txt "output_dim")) with false.
    change (str_eqb (txt "output_dim") (txt "output_dim")) with true.
    cbv iota. rewrite !bool_decide_eq_true_2 by done. reflexivity. }
  assert (dict_get kwargs (txt "merge_model") = Some (PyStr merge_mode)) as Hk.
  { unfold kwargs.
    rewrite (dict_get_filter_notin
               (PositionEmbedding_required ++ PositionEmbedding_optional) config).
    rewrite Hget. vm_compute. reflexivity. }
  assert (keras_layer_init kwargs = Raise TypeError) as Hbase.
  { unfold keras_layer_init.
    destruct (forallb _ kwargs) eqn:E; [|done]. exfalso.
    rewrite forallb_forall in E.
    specialize (E _ (dict_get_Some_In _ _ _ Hk)). cbn [fst] in E.
    apply bool_decide_eq_true in E. revert E. compute_done. }
  split; [eauto|].
  unfold PositionEmbedding_init. by rewrite Hbind, Hbase.
Qed.
End LayerConfigFacts.
